(** * autobrrctl: the database subcommands (db:migrate, db:reset, db:seed)

    A shallow embedding of [migrate], [resetDB], [seedDB] and of the part
    of [main] that dispatches to them (package main of the operator CLI).
    The Go code talks to two SQL engines, a log, standard output and the
    file system; here these form an explicit [World] that every operation
    threads through, and [log.Fatalf]/[os.Exit] are an [Exit] outcome that
    stops whatever would have come next.

    The branches create-user and change-password of [main], with
    [readPassword], follow on a repository that is a parameter; and
    [seedDB] is taken up again on a connection whose engine ends and
    starts transactions at the statements of a script that ask for it.

    Not modelled: floating-point, time and byte-slice cells of a row; the
    errors of [rows.ColumnTypes] and [rows.Err], which need a connection
    that breaks in the middle of a run; the subcommand version, which
    needs the network. *)

From Stdlib Require Import String Ascii List ZArith Lia Bool.
From Stdlib Require Import DecimalString.
Import ListNotations.

Local Open Scope string_scope.
Local Open Scope list_scope.

(** Go's [+] on strings. *)
Infix "+++" := String.append (right associativity, at level 60).

(** ** Strings: what the program uses of [strings] and [fmt] *)

Module Strings.

(** [strings.HasPrefix s prefix]. *)
Fixpoint HasPrefix (s prefix : string) {struct prefix} : bool :=
  match prefix with
  | EmptyString => true
  | String p prefix' =>
      match s with
      | EmptyString => false
      | String c s' => if Ascii.eqb c p then HasPrefix s' prefix' else false
      end
  end.

(** [strings.Contains s substr]. *)
Fixpoint Contains (s substr : string) : bool :=
  if HasPrefix s substr then true
  else match s with
       | EmptyString => false
       | String _ s' => Contains s' substr
       end.

(** [strings.Split s sep] for a separator of one byte, which is the
    only way the program calls it ([";"]): the fragments between
    consecutive separators, empty ones included; a text without
    separator is its own single fragment. *)
Fixpoint Split (s : string) (sep : ascii) : list string :=
  match s with
  | EmptyString => [EmptyString]
  | String c s' =>
      if Ascii.eqb c sep then EmptyString :: Split s' sep
      else match Split s' sep with
           | frag :: frags => String c frag :: frags
           | [] => [String c EmptyString]
           end
  end.

(** [strings.Join elems sep]. *)
Fixpoint Join (elems : list string) (sep : string) : string :=
  match elems with
  | [] => EmptyString
  | [e] => e
  | e :: rest => e +++ sep +++ Join rest sep
  end.

(** The verb [%d] of [fmt] on an [int]. *)
Definition Itoa (n : Z) : string := NilZero.string_of_int (Z.to_int n).

(** The verb [%q] of [fmt] on a string without special characters. *)
Definition Quote (s : string) : string :=
  String "034"%char (s +++ String "034"%char EmptyString).

End Strings.

(** ** Values and rows *)

(** What [rows.Scan] stores in an [interface{}] cell. *)
Inductive Value : Type :=
| VNull
| VInt (n : Z)
| VBool (b : bool)
| VText (s : string).

(** One source row: the scanned cells, in column order. *)
Definition Row := list Value.

(** The verb [%v] of [fmt] on one cell and on the [[]interface{}] of a row. *)
Definition fmt_value (v : Value) : string :=
  match v with
  | VNull => "<nil>"
  | VInt n => Strings.Itoa n
  | VBool true => "true"
  | VBool false => "false"
  | VText s => s
  end.

Definition fmt_values (values : Row) : string :=
  "[" +++ Strings.Join (map fmt_value values) " " +++ "]".

(** ** Statement builder (the column loop of [migrate]) *)

(** The loop
    [for i, col := range columns { colNames += col.Name(); ... }]:
    [n] is [len(columns)], [i] the index of the head of [columns], and the
    two accumulators are [colNames] and [colPlaceholders]. *)
Fixpoint build_columns_loop (n i : Z) (columns : list string)
    (colNames colPlaceholders : string) : string * string :=
  match columns with
  | [] => (colNames, colPlaceholders)
  | col :: rest =>
      let colNames := colNames +++ col in
      let colPlaceholders := colPlaceholders +++ ("$" +++ Strings.Itoa (i + 1)) in
      if (i <? n - 1)%Z
      then build_columns_loop n (i + 1) rest (colNames +++ ", ") (colPlaceholders +++ ", ")
      else build_columns_loop n (i + 1) rest colNames colPlaceholders
  end.

Definition build_columns (columns : list string) : string * string :=
  build_columns_loop (Z.of_nat (length columns)) 0 columns "" "".

(** [fmt.Sprintf("INSERT INTO %s (%s) VALUES (%s)", table, colNames, colPlaceholders)]. *)
Definition insert_text (table colNames colPlaceholders : string) : string :=
  "INSERT INTO " +++ table +++ " (" +++ colNames +++ ") VALUES (" +++ colPlaceholders +++ ")".

Definition build_insert (table : string) (columns : list string) : string :=
  let '(colNames, colPlaceholders) := build_columns columns in
  insert_text table colNames colPlaceholders.

(** The statement text as the specification words it:
    [INSERT INTO <table> (<c1>, ..., <cn>) VALUES ($1, ..., $n)]. *)
Definition placeholders (n : nat) : list string :=
  map (fun k => "$" +++ Strings.Itoa (Z.of_nat k)) (seq 1 n).

Definition spec_insert_text (table : string) (columns : list string) : string :=
  "INSERT INTO " +++ table +++ " (" +++ Strings.Join columns ", " +++ ") VALUES ("
    +++ Strings.Join (placeholders (length columns)) ", " +++ ")".

(** Reading the column list back from a statement text: what stands
    between the first opening and the first closing parenthesis, cut at
    the commas, without the space after each comma. *)
Fixpoint has_char (c : ascii) (s : string) : bool :=
  match s with
  | EmptyString => false
  | String x s' => if Ascii.eqb x c then true else has_char c s'
  end.

Fixpoint after_char (c : ascii) (s : string) : string :=
  match s with
  | EmptyString => EmptyString
  | String x s' => if Ascii.eqb x c then s' else after_char c s'
  end.

Fixpoint before_char (c : ascii) (s : string) : string :=
  match s with
  | EmptyString => EmptyString
  | String x s' => if Ascii.eqb x c then EmptyString else String x (before_char c s')
  end.

Definition trim_space (s : string) : string :=
  match s with
  | String c s' => if Ascii.eqb c " "%char then s' else s
  | EmptyString => s
  end.

Definition statement_columns (query : string) : list string :=
  map trim_space (Strings.Split (before_char ")"%char (after_char "("%char query)) ","%char).

(** A name that the column list can be read back with: no comma, no
    parenthesis, no space in front. *)
Definition plain_name (name : string) : bool :=
  negb (has_char ","%char name) && negb (has_char "("%char name)
  && negb (has_char ")"%char name) && negb (Strings.HasPrefix name " ").

(** ** The outside world *)

(** What [database/sql/driver] asks of an engine: a store and the effect
    of a statement on it.  A query yields column names and rows or an
    error text; preparing a statement may be refused; executing it yields
    the new store or an error text, in which case the store is as before
    the statement. *)
Record Engine : Type := mkEngine {
  Store : Type;
  engine_query : Store -> string -> (list string * list Row) + string;
  engine_prepare : Store -> string -> option string;
  engine_exec : Store -> string -> list Value -> Store + string
}.

(** A [*sql.DB]: the driver name and data source name given to [sql.Open]. *)
Definition Conn := (string * string)%type.

Definition conn_eqb (c1 c2 : Conn) : bool :=
  String.eqb (fst c1) (fst c2) && String.eqb (snd c1) (snd c2).

(** The calls that reach a database, in the order they are made. *)
Inductive Call : Type :=
| CQuery (c : Conn) (query : string)
| CBegin (c : Conn)
| CPrepare (c : Conn) (query : string)
| CExec (c : Conn) (query : string) (args : list Value)
| CRollback (c : Conn)
| CCommit (c : Conn).

(** [sql.ErrTxDone] and the error of a database that cannot be reached. *)
Definition ErrTxDone : string :=
  "sql: transaction has already been committed or rolled back".
Definition ErrBadConn : string := "driver: bad connection".

(** [flag.Usage] prints this. *)
Definition usage : string :=
"usage: autobrrctl <action> [arguments]

Actions:
  create-user         <username>                      Create a new user
  change-password     <username>                      Change the password
  db:seed             <path-to-database> <seed-path>  Seed the sqlite database
  db:reset            <path-to-database> <seed-path>  Reset the sqlite database
  db:migrate             <sqliteDBPath> <postgresDBURL>  Migrate sqlite to postgres
  version                                             Display the version of autobrrctl
  help                                                Show this help message

Examples:
  autobrrctl --config /config.toml create-user john
  autobrrctl --config /config.toml change-password john
  autobrrctl db:reset /path/to/sqlite.db /path/to/seed
  autobrrctl db:seed /path/to/sqlite.db /path/to/seed
  autobrrctl db:migrate /path/to/sqlite.db postgresql://localhost/mydb
  autobrrctl version
  autobrrctl help
".

(** The drivers that the two blank imports of the file register:
    [github.com/lib/pq] as "postgres" and [github.com/mattn/go-sqlite3] as
    "sqlite3". *)
Definition blank_imports : list string := ["postgres"; "sqlite3"].

(** The schema catalogs: the [tables] literal of [migrate] and the one of
    [resetDB]. *)
Definition migrate_tables : list string :=
  ["users"; "indexer"; "irc_network"; "irc_channel"; "client"; "filter"; "action";
   "notification"; "filter_indexer"; "release"; "release_action_status"; "feed"; "api_key"].

Definition reset_tables : list string :=
  ["action"; "api_key"; "client"; "feed"; "feed_cache"; "filter"; "filter_indexer";
   "indexer"; "irc_channel"; "irc_network"; "notification"; "release";
   "release_action_status"; "users"].

(** A computation ends with a result, or the process has exited with a
    status ([os.Exit], [log.Fatalf]). *)
Inductive Outcome (A : Type) : Type :=
| Ret (a : A)
| Exit (code : Z).
Arguments Ret {A} a.
Arguments Exit {A} code.

(** A loop body either falls through to the next iteration or executes a
    [return] of the enclosing function. *)
Inductive Flow : Type := Next | Return.

Section Program.

Context {E : Engine}.

(** A database: what is durable, and the view of the transaction that is
    open, if one is.  None of the three operations holds two
    transactions of one database open at once, so one slot is enough. *)
Record DB : Type := mkDB {
  db_committed : Store E;
  db_tx : option (Store E)
}.

Record World : Type := mkWorld {
  w_drivers : list string;           (* names registered with database/sql *)
  w_files : string -> option string; (* the file system, by path *)
  w_dbs : Conn -> option DB;         (* the databases that can be reached *)
  w_log : list string;               (* lines written through package log *)
  w_out : list string;               (* lines written to standard output *)
  w_err : list string;               (* what flag.Usage printed *)
  w_calls : list Call                (* database calls made so far *)
}.

Definition set_db (c : Conn) (d : DB) (w : World) : World :=
  mkWorld (w_drivers w) (w_files w)
          (fun c' => if conn_eqb c c' then Some d else w_dbs w c')
          (w_log w) (w_out w) (w_err w) (w_calls w).

Definition add_log (line : string) (w : World) : World :=
  mkWorld (w_drivers w) (w_files w) (w_dbs w) (w_log w ++ [line]) (w_out w) (w_err w)
          (w_calls w).

Definition add_out (line : string) (w : World) : World :=
  mkWorld (w_drivers w) (w_files w) (w_dbs w) (w_log w) (w_out w ++ [line]) (w_err w)
          (w_calls w).

Definition add_err (text : string) (w : World) : World :=
  mkWorld (w_drivers w) (w_files w) (w_dbs w) (w_log w) (w_out w) (w_err w ++ [text])
          (w_calls w).

Definition add_call (c : Call) (w : World) : World :=
  mkWorld (w_drivers w) (w_files w) (w_dbs w) (w_log w) (w_out w) (w_err w)
          (w_calls w ++ [c]).

(** *** Computations: a result, or the process is gone *)

Definition M (A : Type) : Type := World -> Outcome A * World.

Definition ret {A} (a : A) : M A := fun w => (Ret a, w).

Definition bind {A B} (m : M A) (k : A -> M B) : M B :=
  fun w => match m w with
           | (Ret a, w') => k a w'
           | (Exit code, w') => (Exit code, w')
           end.

Notation "x <- m ;; k" := (bind m (fun x => k))
  (at level 61, m at next level, right associativity).
Notation "m ;;; k" := (bind m (fun _ => k))
  (at level 61, right associativity).

(** [for _, x := range xs { body }] without [return] in the body. *)
Fixpoint for_each {A} (xs : list A) (body : A -> M unit) : M unit :=
  match xs with
  | [] => ret tt
  | x :: rest => body x ;;; for_each rest body
  end.

Fixpoint for_each_return {A} (xs : list A) (body : A -> M Flow) : M Flow :=
  match xs with
  | [] => ret Next
  | x :: rest =>
      f <- body x ;;
      match f with
      | Next => for_each_return rest body
      | Return => ret Return
      end
  end.

(** *** os, log, fmt, flag, ioutil *)

Definition os_Exit {A} (code : Z) : M A := fun w => (Exit code, w).

Definition log_Printf (line : string) : M unit := fun w => (Ret tt, add_log line w).

(** [log.Fatalf] is [Printf] followed by [os.Exit(1)]; deferred calls
    do not run. *)
Definition log_Fatalf {A} (line : string) : M A := fun w => (Exit 1, add_log line w).

Definition fmt_Println (line : string) : M unit := fun w => (Ret tt, add_out line w).

Definition flag_Usage : M unit := fun w => (Ret tt, add_err usage w).

(** [flag.Arg(i)]: the i-th argument left after the flags, or "". *)
Definition flag_Arg (args : list string) (i : nat) : string := nth i args "".

Definition ioutil_ReadFile (path : string) : M (string + string) :=
  fun w => match w_files w path with
           | Some text => (Ret (inl text), w)
           | None => (Ret (inr ("open " +++ path +++ ": no such file or directory")), w)
           end.

(** *** database/sql *)

(** [sql.Open] looks the driver up and connects to nothing yet. *)
Definition sql_Open (driverName dataSourceName : string) : M (Conn + string) :=
  fun w => if existsb (String.eqb driverName) (w_drivers w)
           then (Ret (inl (driverName, dataSourceName)), w)
           else (Ret (inr ("sql: unknown driver " +++ Strings.Quote driverName
                             +++ " (forgotten import?)")), w).

(** [db.Close]. *)
Definition db_Close (db : Conn) : M unit := ret tt.

(** [db.Query]: outside any transaction, so it reads what is durable.
    The result stands for the open cursor together with what
    [rows.ColumnTypes] tells about it (the column names, in the order of
    the engine); the rows are consumed one by one by the row loop. *)
Definition db_Query (db : Conn) (query : string)
    : M ((list string * list Row) + string) :=
  fun w => let w := add_call (CQuery db query) w in
           match w_dbs w db with
           | None => (Ret (inr ErrBadConn), w)
           | Some d => (Ret (engine_query E (db_committed d) query), w)
           end.

(** [db.Begin]: a transaction that starts from what is durable. *)
Definition db_Begin (db : Conn) : M (option string) :=
  fun w => let w := add_call (CBegin db) w in
           match w_dbs w db with
           | None => (Ret (Some ErrBadConn), w)
           | Some d => (Ret None, set_db db (mkDB (db_committed d) (Some (db_committed d))) w)
           end.

(** The transaction handle [tx] is usable while its transaction is
    open; on a finished one every method answers [sql.ErrTxDone] without
    reaching the database. *)
Definition open_tx (db : Conn) (w : World) : option (DB * Store E) :=
  match w_dbs w db with
  | None => None
  | Some d => match db_tx d with
              | None => None
              | Some s => Some (d, s)
              end
  end.

(** [tx.Prepare]. *)
Definition tx_Prepare (db : Conn) (query : string) : M (option string) :=
  fun w => match open_tx db w with
           | None => (Ret (Some ErrTxDone), w)
           | Some (d, s) => (Ret (engine_prepare E s query), add_call (CPrepare db query) w)
           end.

(** [tx.Exec], and [stmt.Exec] of a statement prepared in the
    transaction, for a statement that the engine executes on the data, as
    the INSERT, DELETE and UPDATE statements that the program builds are.
    The fragments of a seed script need not be such statements: see
    [Script.tx_Exec] below. *)
Definition tx_Exec (db : Conn) (query : string) (args : list Value) : M (option string) :=
  fun w => match open_tx db w with
           | None => (Ret (Some ErrTxDone), w)
           | Some (d, s) =>
               let w := add_call (CExec db query args) w in
               match engine_exec E s query args with
               | inl s' => (Ret None, set_db db (mkDB (db_committed d) (Some s')) w)
               | inr err => (Ret (Some err), w)
               end
           end.

(** [tx.Rollback]: the view of the transaction is dropped. *)
Definition tx_Rollback (db : Conn) : M (option string) :=
  fun w => match open_tx db w with
           | None => (Ret (Some ErrTxDone), w)
           | Some (d, _) =>
               (Ret None, set_db db (mkDB (db_committed d) None) (add_call (CRollback db) w))
           end.

(** [tx.Commit]: the view of the transaction becomes durable. *)
Definition tx_Commit (db : Conn) : M (option string) :=
  fun w => match open_tx db w with
           | None => (Ret (Some ErrTxDone), w)
           | Some (_, s) =>
               (Ret None, set_db db (mkDB s None) (add_call (CCommit db) w))
           end.

(** [rows.Scan(valuePtrs...)] with one pointer per column. *)
Definition rows_Scan (ncols : nat) (row : Row) : Row + string :=
  if Nat.eqb (length row) ncols then inl row
  else inr ("sql: expected " +++ Strings.Itoa (Z.of_nat (length row))
              +++ " destination arguments in Scan, not " +++ Strings.Itoa (Z.of_nat ncols)).


(** *** migrate *)

Definition fk_violation : string := "violates foreign key constraint".

(** The body of [for rows.Next() { ... }] for one row. *)
Definition copy_row (postgresDB : Conn) (table : string) (ncols : nat)
    (colNames colPlaceholders : string) (row : Row) : M unit :=
  match rows_Scan ncols row with
  | inr err =>
      log_Fatalf ("Failed to scan row from SQLite table '" +++ table +++ "': " +++ err)
  | inl values =>
      let query := insert_text table colNames colPlaceholders in
      e <- tx_Prepare postgresDB query ;;
      match e with
      | Some err =>
          log_Fatalf ("Failed to prepare INSERT statement for table '" +++ table
                        +++ "': " +++ err)
      | None =>
          e <- tx_Exec postgresDB query values ;;
          match e with
          | None => ret tt
          | Some err =>
              if Strings.Contains err fk_violation then
                log_Printf ("Failed to insert the following values into PostgreSQL table '"
                              +++ table +++ "': " +++ fmt_values values) ;;;
                log_Printf ("Skipping row due to foreign key constraint violation: " +++ err) ;;;
                _ <- tx_Rollback postgresDB ;;
                e <- db_Begin postgresDB ;;
                match e with
                | Some err => log_Fatalf ("Failed to begin a transaction: " +++ err)
                | None => ret tt
                end
              else
                log_Fatalf ("Failed to insert row into PostgreSQL table '" +++ table
                              +++ "': " +++ err)
          end
      end
  end.

Definition copy_rows (postgresDB : Conn) (table : string) (ncols : nat)
    (colNames colPlaceholders : string) (rows : list Row) : M unit :=
  for_each rows (copy_row postgresDB table ncols colNames colPlaceholders).

(** The body of [for _, table := range tables { ... }]. *)
Definition migrate_table (sqliteDB postgresDB : Conn) (table : string) : M unit :=
  r <- db_Query sqliteDB ("SELECT * FROM " +++ table) ;;
  match r with
  | inr err => log_Fatalf ("Failed to query SQLite table '" +++ table +++ "': " +++ err)
  | inl (columns, rows) =>
      let '(colNames, colPlaceholders) := build_columns columns in
      e <- db_Begin postgresDB ;;
      match e with
      | Some err => log_Fatalf ("Failed to begin a transaction: " +++ err)
      | None =>
          copy_rows postgresDB table (length columns) colNames colPlaceholders rows ;;;
          e <- tx_Commit postgresDB ;;
          match e with
          | Some err => log_Fatalf ("Failed to commit the transaction: " +++ err)
          | None =>
              fmt_Println ("Migrated table '" +++ table +++ "' from SQLite to PostgreSQL")
          end
      end
  end.

(** The closure deferred in every iteration of the table loop; it runs
    when [migrate] returns. *)
Definition deferred_rollback (postgresDB : Conn) : M unit :=
  e <- tx_Rollback postgresDB ;;
  match e with
  | None => ret tt
  | Some err =>
      if String.eqb err ErrTxDone then ret tt
      else log_Fatalf ("Failed to rollback: " +++ err)
  end.

Definition migrate (sqliteDBPath postgresDBURL : string) : M unit :=
  r <- sql_Open "sqlite3" sqliteDBPath ;;
  match r with
  | inr err => log_Fatalf ("Failed to connect to SQLite database: " +++ err)
  | inl sqliteDB =>
      r <- sql_Open "postgres" postgresDBURL ;;
      match r with
      | inr err => log_Fatalf ("Failed to connect to PostgreSQL database: " +++ err)
      | inl postgresDB =>
          for_each migrate_tables (migrate_table sqliteDB postgresDB) ;;;
          fmt_Println "Migration completed successfully!" ;;;
          for_each (rev migrate_tables) (fun _ => deferred_rollback postgresDB) ;;;
          db_Close postgresDB ;;;
          db_Close sqliteDB
      end
  end.

(** *** resetDB *)

Definition delete_text (table : string) : string := "DELETE FROM " +++ table.

Definition sequence_text (table : string) : string :=
  "UPDATE sqlite_sequence SET seq = 0 WHERE name = '" +++ table +++ "'".

(** The body of [for _, table := range tables { ... }] of [resetDB]. *)
Definition reset_table (db : Conn) (table : string) : M Flow :=
  e <- tx_Exec db (delete_text table) [] ;;
  match e with
  | Some err =>
      log_Printf ("failed to delete rows from table " +++ table +++ ": " +++ err) ;;;
      _ <- tx_Rollback db ;;
      ret Return
  | None =>
      e <- tx_Exec db (sequence_text table) [] ;;
      match e with
      | None => ret Next
      | Some err =>
          if negb (Strings.Contains err "no such table") then
            log_Printf ("failed to reset primary key sequence for table " +++ table
                          +++ ": " +++ err) ;;;
            _ <- tx_Rollback db ;;
            ret Return
          else ret Next
      end
  end.

Definition resetDB (dbPath : string) : M unit :=
  r <- sql_Open "sqlite" dbPath ;;
  match r with
  | inr err => log_Fatalf ("failed to open database: " +++ err)
  | inl db =>
      e <- db_Begin db ;;
      match e with
      | Some err => log_Fatalf ("failed to begin transaction: " +++ err)
      | None =>
          f <- for_each_return reset_tables (reset_table db) ;;
          match f with
          | Return => db_Close db
          | Next =>
              e <- tx_Commit db ;;
              match e with
              | Some err => log_Fatalf ("failed to commit transaction: " +++ err)
              | None => db_Close db
              end
          end
      end
  end.

(** *** seedDB

    Here every fragment of the script is executed on the view of the
    transaction; [Script.seedDB] below is the same function on an engine
    that ends and starts transactions at the fragments that ask for it. *)

(** The body of [for _, cmd := range sqlCommands { ... }]. *)
Definition seed_command (db : Conn) (cmd : string) : M Flow :=
  e <- tx_Exec db cmd [] ;;
  match e with
  | Some err =>
      log_Printf ("failed to execute SQL command: " +++ err) ;;;
      _ <- tx_Rollback db ;;
      ret Return
  | None => ret Next
  end.

Definition seedDB (seedDBPath dbPath : string) : M unit :=
  r <- ioutil_ReadFile seedDBPath ;;
  match r with
  | inr err => log_Fatalf ("failed to read SQL file: " +++ err)
  | inl sqlFile =>
      r <- sql_Open "sqlite" dbPath ;;
      match r with
      | inr err => log_Fatalf ("failed to open database: " +++ err)
      | inl db =>
          e <- db_Begin db ;;
          match e with
          | Some err => log_Fatalf ("failed to begin transaction: " +++ err)
          | None =>
              let sqlCommands := Strings.Split sqlFile ";"%char in
              f <- for_each_return sqlCommands (seed_command db) ;;
              match f with
              | Return => db_Close db
              | Next =>
                  e <- tx_Commit db ;;
                  match e with
                  | Some err => log_Fatalf ("failed to commit transaction: " +++ err)
                  | None => db_Close db
                  end
              end
          end
      end
  end.

(** *** main: the database subcommands

    [args] is what [flag.Parse] leaves ([flag.Args()]).  The other
    subcommands (version, create-user, change-password) need the network,
    the configuration and the user repository, which this world does not
    have: for them the result is [None] ([create_user] and
    [change_password] below are the two branches on a repository). *)
Definition main (args : list string) : option (M unit) :=
  let cmd := flag_Arg args 0 in
  if String.eqb cmd "db:migrate" then
    let sqliteDBPath := flag_Arg args 1 in
    let postgresDBURL := flag_Arg args 2 in
    Some (if String.eqb sqliteDBPath "" || String.eqb postgresDBURL "" then
            flag_Usage ;;; os_Exit 1
          else migrate sqliteDBPath postgresDBURL)
  else if String.eqb cmd "db:seed" then
    let seedDBPath := flag_Arg args 1 in
    Some (if String.eqb seedDBPath "" then
            fmt_Println "Error: missing path to SQL seed file" ;;;
            flag_Usage ;;; os_Exit 1
          else
            let dbPath := flag_Arg args 2 in
            if String.eqb dbPath "" then
              fmt_Println "Error: missing path to SQLite database file" ;;;
              flag_Usage ;;; os_Exit 1
            else
              seedDB seedDBPath dbPath ;;;
              fmt_Println "Database seeding completed successfully!")
  else if String.eqb cmd "db:reset" then
    let seedDBPath := flag_Arg args 1 in
    Some (if String.eqb seedDBPath "" then
            fmt_Println "Error: missing path to SQL seed file" ;;;
            flag_Usage ;;; os_Exit 1
          else
            let dbPath := flag_Arg args 2 in
            if String.eqb dbPath "" then
              fmt_Println "Error: missing path to SQLite database file" ;;;
              flag_Usage ;;; os_Exit 1
            else
              resetDB dbPath ;;;
              seedDB seedDBPath dbPath ;;;
              fmt_Println "Database reset completed successfully!")
  else if String.eqb cmd "version" || String.eqb cmd "create-user"
          || String.eqb cmd "change-password" then None
  else Some (flag_Usage ;;; if negb (String.eqb cmd "help") then os_Exit 1 else ret tt).

(** The exit status of the process: what [os.Exit] was given, or 0 when
    [main] returns. *)
Definition exit_status {A} (o : Outcome A) : Z :=
  match o with
  | Ret _ => 0
  | Exit code => code
  end.

End Program.

(** ** What the loops do to a store

    The effect of the row loop, of the reset loop and of the seed loop on
    the view of the open transaction, written as plain functions of the
    store; the theorems below relate the program to them. *)

Section Stores.

Context {E : Engine}.

(** Every row of [rows] is inserted, one after the other, and none is
    refused: the store they leave. *)
Fixpoint insert_all (s : Store E) (query : string) (rows : list Row) : option (Store E) :=
  match rows with
  | [] => Some s
  | row :: rest =>
      match engine_prepare E s query with
      | Some _ => None
      | None =>
          match engine_exec E s query row with
          | inl s' => insert_all s' query rest
          | inr _ => None
          end
      end
  end.

(** The rows of [rows] are offered one after the other to a transaction
    whose view is [cur] while [s0] is durable; a foreign-key refusal
    restarts from [s0]; any other refusal ends the run ([None]). *)
Fixpoint copy_store (s0 cur : Store E) (query : string) (rows : list Row)
    : option (Store E) :=
  match rows with
  | [] => Some cur
  | row :: rest =>
      match engine_prepare E cur query with
      | Some _ => None
      | None =>
          match engine_exec E cur query row with
          | inl cur' => copy_store s0 cur' query rest
          | inr err =>
              if Strings.Contains err fk_violation then copy_store s0 s0 query rest
              else None
          end
      end
  end.

(** The statements of [cmds] are executed in order without arguments:
    the store they leave, or the first error. *)
Fixpoint exec_all (s : Store E) (cmds : list string) : Store E + string :=
  match cmds with
  | [] => inl s
  | cmd :: rest =>
      match engine_exec E s cmd [] with
      | inl s' => exec_all s' rest
      | inr err => inr err
      end
  end.

(** The statements of [cmds] that are reached: all of them up to and
    including the first that is refused. *)
Fixpoint attempted (s : Store E) (cmds : list string) : list string :=
  match cmds with
  | [] => []
  | cmd :: rest =>
      cmd :: match engine_exec E s cmd [] with
             | inl s' => attempted s' rest
             | inr _ => []
             end
  end.

(** One table of the reset loop on a store: [inl] the store to go on
    with, [inr] the line that is logged when the loop gives up. *)
Definition reset_store_table (s : Store E) (table : string) : Store E + string :=
  match engine_exec E s (delete_text table) [] with
  | inr err => inr ("failed to delete rows from table " +++ table +++ ": " +++ err)
  | inl s' =>
      match engine_exec E s' (sequence_text table) [] with
      | inl s'' => inl s''
      | inr err =>
          if Strings.Contains err "no such table" then inl s'
          else inr ("failed to reset primary key sequence for table " +++ table
                      +++ ": " +++ err)
      end
  end.

Fixpoint reset_store (s : Store E) (tables : list string) : Store E + string :=
  match tables with
  | [] => inl s
  | table :: rest =>
      match reset_store_table s table with
      | inl s' => reset_store s' rest
      | inr line => inr line
      end
  end.

(** The statements of the reset loop that are reached. *)
Fixpoint reset_attempted (s : Store E) (tables : list string) : list string :=
  match tables with
  | [] => []
  | table :: rest =>
      delete_text table
      :: match engine_exec E s (delete_text table) [] with
         | inr _ => []
         | inl _ =>
             sequence_text table
             :: match reset_store_table s table with
                | inl s' => reset_attempted s' rest
                | inr _ => []
                end
         end
  end.

(** The statements of a reset in which nothing stops the loop. *)
Definition reset_statements (tables : list string) : list string :=
  flat_map (fun table => [delete_text table; sequence_text table]) tables.

(** All rows have one cell per column. *)
Definition rows_wf (ncols : nat) (rows : list Row) : bool :=
  forallb (fun row => Nat.eqb (length row) ncols) rows.

End Stores.

(** ** Reading the log and the calls *)

(** The line logged when [sql.Open] does not know the driver "sqlite". *)
Definition unknown_sqlite : string :=
  "failed to open database: sql: unknown driver " +++ Strings.Quote "sqlite"
    +++ " (forgotten import?)".

Definition skip_prefix : string := "Skipping row due to foreign key constraint violation: ".

(** The number of rows reported as skipped. *)
Definition rowsSkipped (log : list string) : nat :=
  length (filter (fun line => Strings.HasPrefix line skip_prefix) log).

(** The statement texts given to [Exec] on [db], in order. *)
Definition executed (db : Conn) (calls : list Call) : list string :=
  flat_map (fun c => match c with
                     | CExec db' query _ => if conn_eqb db db' then [query] else []
                     | _ => []
                     end) calls.

(** The texts given to [Query] on [db], in order. *)
Definition queried (db : Conn) (calls : list Call) : list string :=
  flat_map (fun c => match c with
                     | CQuery db' query => if conn_eqb db db' then [query] else []
                     | _ => []
                     end) calls.

Definition non_empty (s : string) : bool := negb (String.eqb s "").

(** ** A small engine to run the program on

    Tables with named columns, a few foreign keys of the application's
    schema, and the statement forms the program issues.  It stands for
    both engines; it is used for the concrete runs only. *)

Module Toy.

Definition Table := (list string * list Row)%type.

Record store : Type := mkStore {
  tables : list (string * Table);
  sequence : bool                  (* is there a sqlite_sequence table *)
}.

Fixpoint lookup (name : string) (ts : list (string * Table)) : option Table :=
  match ts with
  | [] => None
  | (n, t) :: rest => if String.eqb n name then Some t else lookup name rest
  end.

Fixpoint update (name : string) (f : Table -> Table) (ts : list (string * Table))
    : list (string * Table) :=
  match ts with
  | [] => []
  | (n, t) :: rest =>
      if String.eqb n name then (n, f t) :: rest else (n, t) :: update name f rest
  end.

(** The rest of [s] after [prefix], when [s] starts with it. *)
Fixpoint strip_prefix (prefix s : string) {struct prefix} : option string :=
  match prefix with
  | EmptyString => Some s
  | String p prefix' =>
      match s with
      | EmptyString => None
      | String c s' => if Ascii.eqb c p then strip_prefix prefix' s' else None
      end
  end.

(** The first word of [s]. *)
Fixpoint word (s : string) : string :=
  match s with
  | EmptyString => EmptyString
  | String c s' => if Ascii.eqb c " "%char then EmptyString else String c (word s')
  end.

Definition value_eqb (v1 v2 : Value) : bool :=
  match v1, v2 with
  | VNull, VNull => true
  | VInt a, VInt b => Z.eqb a b
  | VBool a, VBool b => Bool.eqb a b
  | VText a, VText b => String.eqb a b
  | _, _ => false
  end.

Fixpoint index_of (col : string) (cols : list string) : nat :=
  match cols with
  | [] => 0
  | c :: rest => if String.eqb c col then 0 else S (index_of col rest)
  end.

Definition cell (cols : list string) (row : Row) (col : string) : Value :=
  nth (index_of col cols) row VNull.

(** child table, child column, parent table, parent column *)
Definition foreign_keys : list (string * string * string * string) :=
  [("irc_channel", "network_id", "irc_network", "id");
   ("filter_indexer", "filter_id", "filter", "id");
   ("filter_indexer", "indexer_id", "indexer", "id")].

Definition fk_ok (ts : list (string * Table)) (cols : list string) (row : Row)
    (fk : string * string * string * string) : bool :=
  let '(_, child_col, parent, parent_col) := fk in
  match cell cols row child_col with
  | VNull => true
  | v =>
      match lookup parent ts with
      | None => false
      | Some (pcols, prows) => existsb (fun r => value_eqb (cell pcols r parent_col) v) prows
      end
  end.

Definition query (s : store) (q : string) : (list string * list Row) + string :=
  match strip_prefix "SELECT * FROM " q with
  | None => inr "syntax error"
  | Some t =>
      match lookup t (tables s) with
      | None => inr ("no such table: " +++ t)
      | Some tbl => inl tbl
      end
  end.

Definition prepare (s : store) (q : string) : option string :=
  match strip_prefix "INSERT INTO " q with
  | None => None
  | Some rest =>
      match lookup (word rest) (tables s) with
      | None => Some ("pq: relation " +++ Strings.Quote (word rest) +++ " does not exist")
      | Some _ => None
      end
  end.

Definition insert (s : store) (rest : string) (args : list Value) : store + string :=
  let t := word rest in
  match lookup t (tables s) with
  | None => inr ("no such table: " +++ t)
  | Some (cols, _) =>
      (* without bound arguments the values are in the text: kept as one cell *)
      let row := match args with [] => [VText rest] | _ => args end in
      if negb (Nat.eqb (length args) 0) && negb (Nat.eqb (length args) (length cols))
      then inr "pq: INSERT has more expressions than target columns"
      else
        match find (fun fk => negb (fk_ok (tables s) cols row fk))
                   (filter (fun fk => String.eqb (fst (fst (fst fk))) t) foreign_keys) with
        | Some (_, child_col, _, _) =>
            inr ("pq: insert or update on table " +++ Strings.Quote t
                   +++ " violates foreign key constraint "
                   +++ Strings.Quote (t +++ "_" +++ child_col +++ "_fkey"))
        | None =>
            inl (mkStore (update t (fun tbl => (fst tbl, snd tbl ++ [row])) (tables s))
                         (sequence s))
        end
  end.

Definition exec (s : store) (q : string) (args : list Value) : store + string :=
  if String.eqb q "" then inl s
  else
    match strip_prefix "DELETE FROM " q with
    | Some t =>
        match lookup t (tables s) with
        | None => inr ("no such table: " +++ t)
        | Some _ => inl (mkStore (update t (fun tbl => (fst tbl, [])) (tables s)) (sequence s))
        end
    | None =>
        match strip_prefix "UPDATE sqlite_sequence " q with
        | Some _ => if sequence s then inl s else inr "no such table: sqlite_sequence"
        | None =>
            match strip_prefix "INSERT INTO " q with
            | Some rest => insert s rest args
            | None => inr ("near " +++ Strings.Quote (word q) +++ ": syntax error")
            end
        end
    end.

Definition engine : Engine := mkEngine store query prepare exec.

(** The number of rows of a table of a store. *)
Definition count (s : store) (table : string) : nat :=
  match lookup table (tables s) with
  | None => 0
  | Some (_, rows) => length rows
  end.

(** *** A source, a destination and a world *)

Definition irc_network_columns : list string := ["id"; "name"].
Definition irc_channel_columns : list string := ["id"; "network_id"; "name"].

Definition channel (id network : Z) (name : string) : Row :=
  [VInt id; VInt network; VText name].

(** Every table of the catalog, empty, with one column [id] unless given
    in [given]. *)
Definition schema (given : list (string * Table)) : list (string * Table) :=
  map (fun t => match lookup t given with
                | Some tbl => (t, tbl)
                | None => (t, (["id"], []))
                end) reset_tables.

(** The source: two networks and three channels, the second of a network
    that does not exist. *)
Definition source : store :=
  mkStore (schema [("irc_network", (irc_network_columns,
                                    [[VInt 1; VText "libera"]; [VInt 2; VText "oftc"]]));
                   ("irc_channel", (irc_channel_columns,
                                    [channel 1 1 "#a"; channel 2 9 "#b"; channel 3 2 "#c"]))])
          true.

(** The destination: the same schema, empty. *)
Definition empty : store :=
  mkStore (schema [("irc_network", (irc_network_columns, []));
                   ("irc_channel", (irc_channel_columns, []))])
          true.

Definition sqliteDB : Conn := ("sqlite3", "/config/autobrr.db").
Definition postgresDB : Conn := ("postgres", "postgresql://localhost/autobrr").
Definition sqlite : Conn := ("sqlite", "/config/autobrr.db").

(** A database that holds [s], no transaction open. *)
Definition db (s : store) : @DB engine := @mkDB engine s None.

Definition dbs (l : list (Conn * @DB engine)) (c : Conn) : option (@DB engine) :=
  match find (fun e => conn_eqb (fst e) c) l with
  | Some e => Some (snd e)
  | None => None
  end.

Definition files (l : list (string * string)) (path : string) : option string :=
  match find (fun e => String.eqb (fst e) path) l with
  | Some e => Some (snd e)
  | None => None
  end.

(** The destination once the networks have been migrated. *)
Definition networks : store :=
  mkStore (schema [("irc_network", (irc_network_columns,
                                    [[VInt 1; VText "libera"]; [VInt 2; VText "oftc"]]));
                   ("irc_channel", (irc_channel_columns, []))])
          true.

(** A destination whose table irc_channel has one column less than the
    source's. *)
Definition narrow : store :=
  mkStore (schema [("irc_network", (irc_network_columns,
                                    [[VInt 1; VText "libera"]; [VInt 2; VText "oftc"]]));
                   ("irc_channel", (["id"; "name"], []))])
          true.

(** A world in the middle of the row loop: a transaction is open on the
    destination, which holds [s]. *)
Definition loop_world (s : store) : @World engine :=
  mkWorld blank_imports (files [])
          (dbs [(sqliteDB, db source); (postgresDB, @mkDB engine s (Some s))])
          [] [] [] [].

(** The world in which the table irc_channel is migrated. *)
Definition channels_world : @World engine :=
  mkWorld blank_imports (files [])
          (dbs [(sqliteDB, db source); (postgresDB, db networks)])
          [] [] [] [].

(** A world for [migrate]. *)
Definition migrate_world : @World engine :=
  mkWorld blank_imports (files [])
          (dbs [(sqliteDB, db source); (postgresDB, db empty)])
          [] [] [] [].

(** Worlds for [resetDB] and [seedDB]: the driver "sqlite" is registered
    as well, the database holds [s], and there is a seed script. *)
Definition seed_path : string := "/config/seed.sql".

Definition sqlite_world (s : store) (script : string) : @World engine :=
  mkWorld ("sqlite" :: blank_imports) (files [(seed_path, script)])
          (dbs [(sqlite, db s)])
          [] [] [] [].

(** The same with the drivers of the blank imports only. *)
Definition blank_world (s : store) (script : string) : @World engine :=
  mkWorld blank_imports (files [(seed_path, script)])
          (dbs [(sqlite, db s)])
          [] [] [] [].

(** A store without the table [feed_cache]. *)
Definition no_feed_cache : store :=
  mkStore (filter (fun e => negb (String.eqb (fst e) "feed_cache")) (tables source)) true.

(** The durable store of a database of a world. *)
Definition durable (w : @World engine) (c : Conn) : option store :=
  match w_dbs w c with
  | Some d => Some (db_committed d)
  | None => None
  end.

End Toy.

(** ** More of what the loops do to a store *)

Section Runs.

Context {E : Engine}.

(** The number of rows that the row loop skips: the rows refused for a
    foreign key on the way of [copy_store]. *)
Fixpoint skipped (s0 cur : Store E) (query : string) (rows : list Row) : nat :=
  match rows with
  | [] => 0
  | row :: rest =>
      match engine_prepare E cur query with
      | Some _ => 0
      | None =>
          match engine_exec E cur query row with
          | inl cur' => skipped s0 cur' query rest
          | inr err =>
              if Strings.Contains err fk_violation then S (skipped s0 s0 query rest)
              else 0
          end
      end
  end.

(** The tables of [tables] are copied one after the other from the
    source store [src] into the destination, [dst] being durable there:
    the store that is durable in the end, or [None] when a table cannot
    be queried, a row has not one cell per column, or a row is refused for
    another reason than a foreign key. *)
Fixpoint migrate_store (src dst : Store E) (tables : list string) : option (Store E) :=
  match tables with
  | [] => Some dst
  | table :: rest =>
      match engine_query E src ("SELECT * FROM " +++ table) with
      | inr _ => None
      | inl (columns, rows) =>
          if rows_wf (length columns) rows then
            match copy_store dst dst (build_insert table columns) rows with
            | Some dst' => migrate_store src dst' rest
            | None => None
            end
          else None
      end
  end.

(** The rows of every table deleted, one table after the other. *)
Fixpoint delete_all (s : Store E) (tables : list string) : option (Store E) :=
  match tables with
  | [] => Some s
  | table :: rest =>
      match engine_exec E s (delete_text table) [] with
      | inl s' => delete_all s' rest
      | inr _ => None
      end
  end.

(** The durable store of a database of a world. *)
Definition durable (w : @World E) (c : Conn) : option (Store E) :=
  match w_dbs w c with
  | Some d => Some (db_committed d)
  | None => None
  end.

(** Every run of [m] relates the world before and the world after by
    [R], and its exit status, when it exits, satisfies [Q]. *)
Definition post {A} (R : @World E -> @World E -> Prop) (Q : Z -> Prop) (m : @M E A) : Prop :=
  forall w o w', m w = (o, w') -> R w w' /\ (forall code, o = Exit code -> Q code).

(** What a run of [migrate] from [sqliteDB] to [postgresDB] may do to
    the world: the drivers, the files and what [flag.Usage] printed stay,
    so does every database but the destination, and the calls made are
    queries on the source and transaction calls on the destination. *)
Definition migrate_call (sqliteDB postgresDB : Conn) (call : Call) : bool :=
  match call with
  | CQuery c _ => conn_eqb sqliteDB c
  | CBegin c | CPrepare c _ | CExec c _ _ | CRollback c | CCommit c => conn_eqb postgresDB c
  end.

Definition migrate_effects (sqliteDB postgresDB : Conn) (w w' : @World E) : Prop :=
  w_drivers w' = w_drivers w
  /\ w_files w' = w_files w
  /\ w_err w' = w_err w
  /\ (forall c, conn_eqb postgresDB c = false -> w_dbs w' c = w_dbs w c)
  /\ exists calls,
      w_calls w' = w_calls w ++ calls
      /\ forallb (migrate_call sqliteDB postgresDB) calls = true.

(** The same, and what is durable in the destination stays as well. *)
Definition copy_effects (sqliteDB postgresDB : Conn) (w w' : @World E) : Prop :=
  migrate_effects sqliteDB postgresDB w w'
  /\ durable w' postgresDB = durable w postgresDB.

End Runs.

(** The number of occurrences of a character in a text. *)
Fixpoint count_char (c : ascii) (s : string) : nat :=
  match s with
  | EmptyString => 0
  | String x s' => (if Ascii.eqb x c then 1 else 0) + count_char c s'
  end.

(** The calls of one accepted row: the statement is prepared, then
    executed with the cells of the row. *)
Definition row_calls (postgresDB : Conn) (query : string) (row : Row) : list Call :=
  [CPrepare postgresDB query; CExec postgresDB query row].

(** ** More worlds for the small engine *)

Module ToyRuns.

(** A run of [migrate] into a destination whose table irc_channel has
    one column less than the source's. *)
Definition narrow_world : @World Toy.engine :=
  mkWorld blank_imports (Toy.files [])
          (Toy.dbs [(Toy.sqliteDB, Toy.db Toy.source); (Toy.postgresDB, Toy.db Toy.narrow)])
          [] [] [] [].

(** The source without a sqlite_sequence table. *)
Definition no_sequence : Toy.store := Toy.mkStore (Toy.tables Toy.source) false.

(** The destination after a run of [migrate] from [Toy.source]. *)
Definition migrated : Toy.store :=
  Toy.mkStore
    (Toy.update "irc_channel" (fun tbl => (fst tbl, [Toy.channel 3 2 "#c"]))
                (Toy.tables Toy.networks))
    true.

End ToyRuns.

(** ** create-user and change-password

    The two subcommands read a password ([readPassword]), hash it and
    hand it to the user repository.  Standard input, the hash function,
    the repository and the opening of the application database belong to
    packages that are not part of this development: they are what the
    section is parameterized by. *)

(** What [scanner.Scan] finds on standard input: a line, the end of the
    input, or an error ([scanner.Err]). *)
Inductive ScanResult : Type :=
| ScanToken (line : string)
| ScanEnd
| ScanError (err : string).

(** Standard input for one run: whether it is a terminal, what
    [term.ReadPassword] returns there, and what the scanner finds
    otherwise. *)
Record Console : Type := mkConsole {
  is_terminal : bool;
  tty_password : string + string;
  scanned : ScanResult
}.

(** [domain.CreateUserRequest]. *)
Record CreateUserRequest : Type := mkCreateUserRequest {
  req_username : string;
  req_password : string
}.

Section Users.

Context {E : Engine}.

(** [domain.User]: the field [Password], which [main] assigns, and the
    other fields. *)
Context {UserFields : Type}.

Record User : Type := mkUser {
  user_password : string;
  user_fields : UserFields
}.

(** The user repository: its state and its three methods, each giving
    the new state or an error text. *)
Context {Repo : Type}.
Variable repo_Store : Repo -> CreateUserRequest -> Repo + string.
Variable repo_FindByUsername : Repo -> string -> option User + string.
Variable repo_Update : Repo -> User -> Repo + string.

(** [argon2id.CreateHash] with the default parameters, for this run. *)
Variable CreateHash : string -> string + string.

(** [config.New], [logger.New], [database.NewDB] and [db.Open] for a
    configuration path: the error of [db.Open], if any. *)
Variable db_Open : string -> option string.

(** The process for these subcommands: the world of the database
    subcommands (log, usage), standard input, what [fmt.Printf] wrote, and
    the repository. *)
Record Session : Type := mkSession {
  s_world : @World E;
  s_console : Console;
  s_printed : list string;
  s_repo : Repo
}.

Definition U (A : Type) : Type := Session -> Outcome A * Session.

Definition uret {A} (a : A) : U A := fun s => (Ret a, s).

Definition ubind {A B} (m : U A) (k : A -> U B) : U B :=
  fun s => match m s with
           | (Ret a, s') => k a s'
           | (Exit code, s') => (Exit code, s')
           end.

(** A computation on the world, in a session. *)
Definition lift {A} (m : @M E A) : U A :=
  fun s => match m (s_world s) with
           | (o, w') => (o, mkSession w' (s_console s) (s_printed s) (s_repo s))
           end.

(** [fmt.Printf] of a text without verbs. *)
Definition fmt_Printf (text : string) : U unit :=
  fun s => (Ret tt, mkSession (s_world s) (s_console s) (s_printed s ++ [text]) (s_repo s)).

(** A method of the repository that changes its state. *)
Definition on_repo (f : Repo -> Repo + string) : U (option string) :=
  fun s => match f (s_repo s) with
           | inl repo' => (Ret None, mkSession (s_world s) (s_console s) (s_printed s) repo')
           | inr err => (Ret (Some err), s)
           end.

(** [readPassword]: the password, or an error. *)
Definition readPassword : U (string + string) :=
  fun s =>
    if is_terminal (s_console s) then
      ubind (fmt_Printf "Password: ")
            (fun _ =>
               match tty_password (s_console s) with
               | inr err => uret (inr err)
               | inl password =>
                   ubind (fmt_Printf (String "010"%char ""))
                         (fun _ => uret (inl password))
               end) s
    else
      match scanned (s_console s) with
      | ScanError err => lift (log_Fatalf ("failed to read password from stdin: " +++ err)) s
      | ScanEnd =>
          lift (log_Fatalf "failed to read password from stdin: stdin is empty <nil>") s
      | ScanToken password =>
          if Nat.eqb (String.length password) 0
          then uret (inr "zero length password") s
          else uret (inl password) s
      end.

(** [userRepo.FindByUsername]. *)
Definition find_user (username : string) : U (option User + string) :=
  fun s => (Ret (repo_FindByUsername (s_repo s) username), s).

(** [case "create-user":] of [main]; [configPath] is the value of the
    flag [--config]. *)
Definition create_user (configPath : string) (args : list string) : U unit :=
  if String.eqb configPath "" then lift (log_Fatalf "--config required")
  else
    match db_Open configPath with
    | Some _ => lift (log_Fatalf "could not open db connection")
    | None =>
        let username := flag_Arg args 1 in
        if String.eqb username "" then lift (bind flag_Usage (fun _ => os_Exit 1))
        else
          ubind readPassword
            (fun r =>
               match r with
               | inr err => lift (log_Fatalf ("failed to read password: " +++ err))
               | inl password =>
                   match CreateHash password with
                   | inr err => lift (log_Fatalf ("failed to hash password: " +++ err))
                   | inl hashed =>
                       let user := mkCreateUserRequest username hashed in
                       ubind (on_repo (fun repo => repo_Store repo user))
                         (fun e =>
                            match e with
                            | Some err =>
                                lift (log_Fatalf ("failed to create user: " +++ err))
                            | None => uret tt
                            end)
                   end
               end)
    end.

(** [case "change-password":] of [main]. *)
Definition change_password (configPath : string) (args : list string) : U unit :=
  if String.eqb configPath "" then lift (log_Fatalf "--config required")
  else
    match db_Open configPath with
    | Some _ => lift (log_Fatalf "could not open db connection")
    | None =>
        let username := flag_Arg args 1 in
        if String.eqb username "" then lift (bind flag_Usage (fun _ => os_Exit 1))
        else
          ubind (find_user username)
            (fun found =>
               match found with
               | inr err => lift (log_Fatalf ("failed to get user: " +++ err))
               | inl None => lift (log_Fatalf "failed to get user: <nil>")
               | inl (Some user) =>
                   ubind readPassword
                     (fun r =>
                        match r with
                        | inr err => lift (log_Fatalf ("failed to read password: " +++ err))
                        | inl password =>
                            match CreateHash password with
                            | inr err =>
                                lift (log_Fatalf ("failed to hash password: " +++ err))
                            | inl hashed =>
                                let user := mkUser hashed (user_fields user) in
                                ubind (on_repo (fun repo => repo_Update repo user))
                                  (fun e =>
                                     match e with
                                     | Some err =>
                                         lift (log_Fatalf
                                                 ("failed to create user: " +++ err))
                                     | None => uret tt
                                     end)
                            end
                        end)
               end)
    end.

(** The password that [readPassword] can return in a session. *)
Definition password_read (c : Console) (password : string) : Prop :=
  if is_terminal c then tty_password c = inl password
  else scanned c = ScanToken password /\ password <> "".

End Users.

(** A small user repository: the requests stored, by name. *)
Module ToyUsers.

Definition repo := list CreateUserRequest.

Definition store (r : repo) (req : CreateUserRequest) : repo + string :=
  if existsb (fun u => String.eqb (req_username u) (req_username req)) r
  then inr "UNIQUE constraint failed: users.username"
  else inl (r ++ [req]).

Definition find (r : repo) (username : string) : option (@User string) + string :=
  match List.find (fun u => String.eqb (req_username u) username) r with
  | Some u => inl (Some (mkUser (req_password u) (req_username u)))
  | None => inl None
  end.

Definition update (r : repo) (user : @User string) : repo + string :=
  inl (map (fun u => if String.eqb (req_username u) (user_fields user)
                     then mkCreateUserRequest (req_username u) (user_password user)
                     else u) r).

Definition hash (password : string) : string + string := inl ("$argon2id$" +++ password).

Definition open (configPath : string) : option string := None.

(** A session with the given standard input and repository, in a world
    with nothing else. *)
Definition session (c : Console) (r : repo) : @Session Toy.engine repo :=
  mkSession (Toy.sqlite_world Toy.empty "") c [] r.

Definition piped (line : string) : Console := mkConsole false (inr "not a terminal") (ScanToken line).
Definition typed (password : string) : Console := mkConsole true (inl password) ScanEnd.

End ToyUsers.

(** ** A source without a row that is refused *)

Module ToyClean.

(** The source with the second channel on a network that exists: no row
    is refused. *)
Definition source : Toy.store :=
  Toy.mkStore (Toy.schema [("irc_network", (Toy.irc_network_columns,
                                            [[VInt 1; VText "libera"]; [VInt 2; VText "oftc"]]));
                           ("irc_channel", (Toy.irc_channel_columns,
                                            [Toy.channel 1 1 "#a"; Toy.channel 2 2 "#b";
                                             Toy.channel 3 2 "#c"]))])
              true.

Definition world : @World Toy.engine :=
  mkWorld blank_imports (Toy.files [])
          (Toy.dbs [(Toy.sqliteDB, Toy.db source); (Toy.postgresDB, Toy.db Toy.empty)])
          [] [] [] [].

End ToyClean.

(** ** Seed scripts and the engine's own transaction control

    [seedDB] gives the fragments of the script to [tx.Exec] as they are.
    The statements that [migrate] and [resetDB] build are INSERT, DELETE
    and UPDATE statements, which the engine executes on the view of the
    open transaction; a fragment of a script can also be a statement by
    which the engine itself ends or starts a transaction (COMMIT, END,
    ROLLBACK, BEGIN).  The handle [tx] of [database/sql] does not see
    this: it stays usable until its own Commit or Rollback, and what is
    sent through it reaches the connection in whatever state the script
    has left it.  The definitions of this part execute the fragments on
    the connection, with that in view. *)

(** What the engine takes a statement for, when it is one of its
    transaction-control statements. *)
Inductive Control : Type := CtlBegin | CtlCommit | CtlRollback.

(** The errors of SQLite for transaction control out of place. *)
Definition ErrNoTransaction (verb : string) : string :=
  "cannot " +++ verb +++ " - no transaction is active".
Definition ErrNestedTransaction : string :=
  "cannot start a transaction within a transaction".

Module Script.

Section Script.

Context {E : Engine}.

(** How the engine reads a statement text: [None] for a statement that
    it executes on the data. *)
Variable engine_control : string -> option Control.

Local Notation "x <- m ;; k" := (bind m (fun x => k))
  (at level 61, m at next level, right associativity).
Local Notation "m ;;; k" := (bind m (fun _ => k))
  (at level 61, right associativity).

(** A statement on a connection.  [db_tx] is the transaction that the
    engine has open on it; without one the connection is in autocommit
    mode, where the effect of a statement is durable at once. *)
Definition conn_exec (d : @DB E) (query : string) (args : list Value) : @DB E + string :=
  match engine_control query, db_tx d with
  | Some CtlBegin, None => inl (mkDB (db_committed d) (Some (db_committed d)))
  | Some CtlBegin, Some _ => inr ErrNestedTransaction
  | Some CtlCommit, Some s => inl (mkDB s None)
  | Some CtlCommit, None => inr (ErrNoTransaction "commit")
  | Some CtlRollback, Some _ => inl (mkDB (db_committed d) None)
  | Some CtlRollback, None => inr (ErrNoTransaction "rollback")
  | None, Some s =>
      match engine_exec E s query args with
      | inl s' => inl (mkDB (db_committed d) (Some s'))
      | inr err => inr err
      end
  | None, None =>
      match engine_exec E (db_committed d) query args with
      | inl s' => inl (mkDB s' None)
      | inr err => inr err
      end
  end.

(** The driver's Commit and Rollback on a connection. *)
Definition conn_commit (d : @DB E) : @DB E + string :=
  match db_tx d with
  | Some s => inl (mkDB s None)
  | None => inr (ErrNoTransaction "commit")
  end.

Definition conn_rollback (d : @DB E) : @DB E + string :=
  match db_tx d with
  | Some _ => inl (mkDB (db_committed d) None)
  | None => inr (ErrNoTransaction "rollback")
  end.

(** The handle that the last [db.Begin] on [db] returned is usable until
    [Commit] or [Rollback] is called on it. *)
Definition tx_usable (db : Conn) (calls : list Call) : bool :=
  fold_left (fun usable c =>
               match c with
               | CBegin db' => if conn_eqb db db' then true else usable
               | CRollback db' | CCommit db' => if conn_eqb db db' then false else usable
               | _ => usable
               end) calls false.

(** A method of the handle: [sql.ErrTxDone] once the handle is finished,
    otherwise the call reaches the connection. *)
Definition on_conn (db : Conn) (call : Call) (f : @DB E -> @DB E + string)
    : @M E (option string) :=
  fun w => if tx_usable db (w_calls w) then
             let w := add_call call w in
             match w_dbs w db with
             | None => (Ret (Some ErrBadConn), w)
             | Some d =>
                 match f d with
                 | inl d' => (Ret None, set_db db d' w)
                 | inr err => (Ret (Some err), w)
                 end
             end
           else (Ret (Some ErrTxDone), w).

(** [tx.Exec]. *)
Definition tx_Exec (db : Conn) (query : string) (args : list Value) : @M E (option string) :=
  on_conn db (CExec db query args) (fun d => conn_exec d query args).

(** [tx.Rollback]. *)
Definition tx_Rollback (db : Conn) : @M E (option string) :=
  on_conn db (CRollback db) conn_rollback.

(** [tx.Commit]. *)
Definition tx_Commit (db : Conn) : @M E (option string) :=
  on_conn db (CCommit db) conn_commit.

(** The body of [for _, cmd := range sqlCommands { ... }]. *)
Definition seed_command (db : Conn) (cmd : string) : @M E Flow :=
  e <- tx_Exec db cmd [] ;;
  match e with
  | Some err =>
      log_Printf ("failed to execute SQL command: " +++ err) ;;;
      _ <- tx_Rollback db ;;
      ret Return
  | None => ret Next
  end.

Definition seedDB (seedDBPath dbPath : string) : @M E unit :=
  r <- ioutil_ReadFile seedDBPath ;;
  match r with
  | inr err => log_Fatalf ("failed to read SQL file: " +++ err)
  | inl sqlFile =>
      r <- sql_Open "sqlite" dbPath ;;
      match r with
      | inr err => log_Fatalf ("failed to open database: " +++ err)
      | inl db =>
          e <- db_Begin db ;;
          match e with
          | Some err => log_Fatalf ("failed to begin transaction: " +++ err)
          | None =>
              let sqlCommands := Strings.Split sqlFile ";"%char in
              f <- for_each_return sqlCommands (seed_command db) ;;
              match f with
              | Return => db_Close db
              | Next =>
                  e <- tx_Commit db ;;
                  match e with
                  | Some err => log_Fatalf ("failed to commit transaction: " +++ err)
                  | None => db_Close db
                  end
              end
          end
      end
  end.

(** The fragments on a connection, in order: the connection after the
    last one that was accepted, and the error of the one that was
    refused, if one was. *)
Fixpoint run_script (d : @DB E) (cmds : list string) : @DB E * option string :=
  match cmds with
  | [] => (d, None)
  | cmd :: rest =>
      match conn_exec d cmd [] with
      | inl d' => run_script d' rest
      | inr err => (d, Some err)
      end
  end.

(** The fragments that are reached. *)
Fixpoint reached (d : @DB E) (cmds : list string) : list string :=
  match cmds with
  | [] => []
  | cmd :: rest =>
      cmd :: match conn_exec d cmd [] with
             | inl d' => reached d' rest
             | inr _ => []
             end
  end.

(** The connection as the seed loop leaves it: at a refusal the loop
    rolls the handle back, which drops the transaction that the engine
    has open, if it has one. *)
Definition after_loop (d : @DB E) (cmds : list string) : @DB E :=
  match run_script d cmds with
  | (d', None) => d'
  | (d', Some _) => mkDB (db_committed d') None
  end.

(** The connection as [seedDB] leaves it when it has begun its
    transaction on [d]: without a refusal the handle is committed, which
    makes durable the transaction that the engine has open, if it has
    one. *)
Definition seeded (d : @DB E) (cmds : list string) : @DB E :=
  let d' := after_loop (mkDB (db_committed d) (Some (db_committed d))) cmds in
  match db_tx d' with
  | Some s => mkDB s None
  | None => d'
  end.

(** How [seedDB] ends on these fragments: the line that it logs, if
    any, and whether the process exits (at a Commit that the engine
    refuses because the script has ended the transaction). *)
Definition seed_end (d : @DB E) (cmds : list string) : option string * bool :=
  match run_script (mkDB (db_committed d) (Some (db_committed d))) cmds with
  | (_, Some err) => (Some ("failed to execute SQL command: " +++ err), false)
  | (d', None) =>
      match db_tx d' with
      | Some _ => (None, false)
      | None => (Some ("failed to commit transaction: " +++ ErrNoTransaction "commit"), true)
      end
  end.

(** [main] for db:seed and db:reset, with this [seedDB]. *)
Definition main (args : list string) : option (@M E unit) :=
  let cmd := flag_Arg args 0 in
  if String.eqb cmd "db:seed" then
    let seedDBPath := flag_Arg args 1 in
    Some (if String.eqb seedDBPath "" then
            fmt_Println "Error: missing path to SQL seed file" ;;;
            flag_Usage ;;; os_Exit 1
          else
            let dbPath := flag_Arg args 2 in
            if String.eqb dbPath "" then
              fmt_Println "Error: missing path to SQLite database file" ;;;
              flag_Usage ;;; os_Exit 1
            else
              seedDB seedDBPath dbPath ;;;
              fmt_Println "Database seeding completed successfully!")
  else if String.eqb cmd "db:reset" then
    let seedDBPath := flag_Arg args 1 in
    Some (if String.eqb seedDBPath "" then
            fmt_Println "Error: missing path to SQL seed file" ;;;
            flag_Usage ;;; os_Exit 1
          else
            let dbPath := flag_Arg args 2 in
            if String.eqb dbPath "" then
              fmt_Println "Error: missing path to SQLite database file" ;;;
              flag_Usage ;;; os_Exit 1
            else
              resetDB dbPath ;;;
              seedDB seedDBPath dbPath ;;;
              fmt_Println "Database reset completed successfully!")
  else None.

End Script.

End Script.

(** The transaction-control statements that the small engine knows. *)
Module ToyScript.

Definition control (query : string) : option Control :=
  if String.eqb query "BEGIN" then Some CtlBegin
  else if String.eqb query "COMMIT" || String.eqb query "END" then Some CtlCommit
  else if String.eqb query "ROLLBACK" then Some CtlRollback
  else None.

(** A script that commits by itself before a fragment that is refused. *)
Definition committing : string := "INSERT INTO users VALUES (1);COMMIT;BOGUS".

End ToyScript.

(** ** Proof automation *)

(** Case analysis on everything the outcome of a run in [H] depends on. *)
Ltac split_run H :=
  repeat (match type of H with
          | context [open_tx ?c ?w] => destruct (open_tx c w) as [[? ?]|] eqn:?
          | context [engine_prepare ?e ?s ?q] => destruct (engine_prepare e s q) eqn:?
          | context [engine_exec ?e ?s ?q ?a] => destruct (engine_exec e s q a) eqn:?
          | context [engine_query ?e ?s ?q] => destruct (engine_query e s q) as [[? ?]|] eqn:?
          | context [Strings.Contains ?e ?t] => destruct (Strings.Contains e t) eqn:?
          | context [String.eqb ?a ?b] => destruct (String.eqb a b) eqn:?
          | context [conn_eqb ?a ?b] => destruct (conn_eqb a b) eqn:?
          | context [w_dbs ?w ?c] => destruct (w_dbs w c) eqn:?
          | context [existsb ?f ?l] => destruct (existsb f l) eqn:?
          end; cbn in H).

(** * Properties *)

(** ** Strings *)

Lemma append_assoc (a b c : string) : (a +++ b) +++ c = a +++ (b +++ c).
Proof.
  induction a as [|ch a IH]; simpl; [reflexivity | now rewrite IH].
Qed.

Lemma append_nil_r (a : string) : a +++ "" = a.
Proof.
  induction a as [|ch a IH]; simpl; [reflexivity | now rewrite IH].
Qed.

Lemma Join_cons (e : string) (rest : list string) (sep : string) :
  rest <> [] -> Strings.Join (e :: rest) sep = e +++ sep +++ Strings.Join rest sep.
Proof.
  destruct rest; [congruence | reflexivity].
Qed.

(** ** Statement builder *)

(** The accumulators of the column loop after the columns from index [i]
    on: the names and the placeholders so far, followed by the remaining
    ones joined with a comma and a space. *)
Lemma build_columns_loop_spec (columns : list string) :
  forall (i : nat) (colNames colPlaceholders : string),
    build_columns_loop (Z.of_nat (i + length columns)) (Z.of_nat i) columns
                       colNames colPlaceholders
    = (colNames +++ Strings.Join columns ", ",
       colPlaceholders
         +++ Strings.Join (map (fun k => "$" +++ Strings.Itoa (Z.of_nat k))
                               (seq (S i) (length columns))) ", ").
Proof.
  induction columns as [|col rest IH]; intros i colNames colPlaceholders.
  - simpl. now rewrite !append_nil_r.
  - cbn [build_columns_loop length].
    replace (Z.of_nat i + 1)%Z with (Z.of_nat (S i)) by lia.
    replace (i + S (length rest)) with (S i + length rest) by lia.
    destruct rest as [|col2 rest].
    + replace (Z.of_nat i <? Z.of_nat (S i + length []) - 1)%Z with false
        by (symmetry; apply Z.ltb_ge; cbn [length]; lia).
      rewrite IH. simpl. now rewrite !append_nil_r.
    + replace (Z.of_nat i <? Z.of_nat (S i + length (col2 :: rest)) - 1)%Z with true
        by (symmetry; apply Z.ltb_lt; cbn [length]; lia).
      rewrite IH.
      cbn [seq map].
      rewrite (Join_cons col) by discriminate.
      rewrite (Join_cons ("$" +++ Strings.Itoa (Z.of_nat (S i)))) by discriminate.
      now rewrite !append_assoc.
Qed.

Example build_insert_users :
  build_insert "users" ["id"; "username"; "password"]
  = "INSERT INTO users (id, username, password) VALUES ($1, $2, $3)".
Proof. reflexivity. Qed.

Example build_columns_eleven :
  snd (build_columns ["a"; "b"; "c"; "d"; "e"; "f"; "g"; "h"; "i"; "j"; "k"])
  = "$1, $2, $3, $4, $5, $6, $7, $8, $9, $10, $11".
Proof. reflexivity. Qed.

Example build_insert_no_column : build_insert "users" [] = "INSERT INTO users () VALUES ()".
Proof. reflexivity. Qed.

Lemma build_columns_spec (columns : list string) :
  build_columns columns
  = (Strings.Join columns ", ", Strings.Join (placeholders (length columns)) ", ").
Proof.
  unfold build_columns.
  exact (build_columns_loop_spec columns 0 "" "").
Qed.

(** The fragments of [Split] joined with the separator give the text
    back, and no fragment holds the separator. *)
Lemma Split_not_nil (s : string) (sep : ascii) : Strings.Split s sep <> [].
Proof.
  destruct s as [|c s]; simpl; [discriminate|].
  destruct (Ascii.eqb c sep); [discriminate|].
  destruct (Strings.Split s sep); discriminate.
Qed.

Lemma Join_Split (s : string) (sep : ascii) :
  Strings.Join (Strings.Split s sep) (String sep "") = s.
Proof.
  induction s as [|c s IH]; [reflexivity|].
  cbn [Strings.Split].
  pose proof (Split_not_nil s sep) as Hne.
  destruct (Ascii.eqb c sep) eqn:Hc.
  - apply Ascii.eqb_eq in Hc. subst c.
    rewrite Join_cons by assumption. now rewrite IH.
  - destruct (Strings.Split s sep) as [|frag frags]; [congruence|].
    destruct frags as [|frag2 frags].
    + simpl in *. now rewrite IH.
    + rewrite Join_cons by discriminate.
      rewrite Join_cons in IH by discriminate.
      simpl. now rewrite <- IH.
Qed.

Lemma Split_no_sep (s : string) (sep : ascii) :
  Forall (fun frag => has_char sep frag = false) (Strings.Split s sep).
Proof.
  induction s as [|c s IH]; [repeat constructor|].
  cbn [Strings.Split].
  destruct (Ascii.eqb c sep) eqn:Hc; [constructor; [reflexivity | exact IH]|].
  destruct (Strings.Split s sep) as [|frag frags]; [repeat constructor; simpl; now rewrite Hc|].
  inversion IH as [|? ? Hfrag Hfrags]; subst.
  constructor; [simpl; now rewrite Hc | assumption].
Qed.

Lemma has_char_app (c : ascii) (a b : string) :
  has_char c (a +++ b) = has_char c a || has_char c b.
Proof.
  induction a as [|x a IH]; simpl; [reflexivity|].
  destruct (Ascii.eqb x c); [reflexivity | exact IH].
Qed.

Lemma after_char_app (c : ascii) (a b : string) :
  has_char c a = false -> after_char c (a +++ b) = after_char c b.
Proof.
  induction a as [|x a IH]; simpl; intros H; [reflexivity|].
  destruct (Ascii.eqb x c); [discriminate | auto].
Qed.

Lemma before_char_app (c : ascii) (a b : string) :
  has_char c a = false -> before_char c (a +++ b) = a +++ before_char c b.
Proof.
  induction a as [|x a IH]; simpl; intros H; [reflexivity|].
  destruct (Ascii.eqb x c); [discriminate | now rewrite IH].
Qed.

Lemma Split_cons_char (x : ascii) (s : string) (sep : ascii) :
  Ascii.eqb x sep = false ->
  Strings.Split (String x s) sep
  = String x (hd "" (Strings.Split s sep)) :: tl (Strings.Split s sep).
Proof.
  intros H. cbn [Strings.Split]. rewrite H.
  pose proof (Split_not_nil s sep).
  destruct (Strings.Split s sep); [congruence | reflexivity].
Qed.

Lemma Split_app_sep (sep : ascii) (a b : string) :
  has_char sep a = false ->
  Strings.Split (a +++ String sep b) sep = a :: Strings.Split b sep.
Proof.
  induction a as [|x a IH]; intros H.
  - simpl. now rewrite Ascii.eqb_refl.
  - simpl in H. destruct (Ascii.eqb x sep) eqn:Hx; [discriminate|].
    change (String x a +++ String sep b) with (String x (a +++ String sep b)).
    rewrite Split_cons_char by assumption.
    now rewrite IH.
Qed.

Lemma Split_none (sep : ascii) (a : string) :
  has_char sep a = false -> Strings.Split a sep = [a].
Proof.
  induction a as [|x a IH]; intros H; [reflexivity|].
  simpl in H. destruct (Ascii.eqb x sep) eqn:Hx; [discriminate|].
  rewrite Split_cons_char by assumption.
  now rewrite IH.
Qed.

(** The names joined with a comma and a space, cut at the commas: the
    first name, and the others with the space in front. *)
Lemma Split_Join_names (col : string) (rest : list string) :
  forallb plain_name (col :: rest) = true ->
  Strings.Split (Strings.Join (col :: rest) ", ") ","%char
  = col :: map (String " "%char) rest.
Proof.
  revert col. induction rest as [|col2 rest IH]; intros col H.
  - cbn [forallb] in H. unfold plain_name in H.
    rewrite !andb_true_iff, !negb_true_iff in H.
    apply Split_none. tauto.
  - rewrite Join_cons by discriminate.
    cbn [forallb] in H. apply andb_true_iff in H. destruct H as [Hcol H].
    unfold plain_name in Hcol. rewrite !andb_true_iff, !negb_true_iff in Hcol.
    change (col +++ ", " +++ Strings.Join (col2 :: rest) ", ")
      with (col +++ String ","%char (String " "%char (Strings.Join (col2 :: rest) ", "))).
    rewrite Split_app_sep by tauto.
    rewrite Split_cons_char by reflexivity.
    rewrite (IH col2) by exact H. reflexivity.
Qed.

Lemma has_char_Join_names (c : ascii) (cols : list string) :
  has_char c ", " = false ->
  forallb (fun col => negb (has_char c col)) cols = true ->
  has_char c (Strings.Join cols ", ") = false.
Proof.
  intros Hsep. induction cols as [|col rest IH]; intros H; [reflexivity|].
  cbn [forallb] in H. apply andb_true_iff in H. destruct H as [Hcol H].
  apply negb_true_iff in Hcol.
  destruct rest as [|col2 rest]; [exact Hcol|].
  rewrite Join_cons by discriminate.
  rewrite !has_char_app, Hcol, Hsep, IH by assumption. reflexivity.
Qed.

Lemma trim_space_names (cols : list string) :
  map trim_space (map (String " "%char) cols) = cols.
Proof.
  induction cols as [|col rest IH]; [reflexivity|].
  cbn [map]. now rewrite IH.
Qed.

(** C7.  The statement builder is a function of the table name and the
    column list alone, and for a non-empty list of columns it yields the
    text INSERT INTO <table> (<c1>, ..., <cn>) VALUES ($1, ..., $n), the
    columns in the order given; read back from the text, the columns are
    the list given, in its order. *)
Theorem build_insert_spec (table : string) (columns : list string) :
  columns <> [] ->
  build_insert table columns = spec_insert_text table columns
  /\ snd (build_columns columns) = Strings.Join (placeholders (length columns)) ", "
  /\ (has_char "("%char table = false ->
      forallb plain_name columns = true ->
      statement_columns (build_insert table columns) = columns).
Proof.
  intros Hne.
  unfold build_insert. rewrite build_columns_spec. cbn [snd].
  split; [reflexivity|]. split; [reflexivity|].
  intros Htable Hnames.
  unfold statement_columns, insert_text.
  cbn [String.append after_char Ascii.eqb Bool.eqb].
  rewrite after_char_app by exact Htable.
  cbn [String.append after_char Ascii.eqb Bool.eqb].
  rewrite before_char_app.
  - cbn [String.append before_char Ascii.eqb Bool.eqb]. rewrite append_nil_r.
    destruct columns as [|col rest]; [congruence|].
    rewrite Split_Join_names by assumption.
    cbn [map]. rewrite trim_space_names.
    cbn [forallb] in Hnames. apply andb_true_iff in Hnames. destruct Hnames as [Hcol _].
    unfold plain_name in Hcol. rewrite !andb_true_iff, !negb_true_iff in Hcol.
    destruct Hcol as [_ Hsp].
    destruct col as [|x col]; [reflexivity|].
    simpl in Hsp. unfold trim_space.
    destruct (Ascii.eqb x " "%char); [discriminate | reflexivity].
  - apply has_char_Join_names; [reflexivity|].
    clear -Hnames. induction columns as [|col rest IH]; [reflexivity|].
    cbn [forallb] in *. apply andb_true_iff in Hnames. destruct Hnames as [Hcol H].
    unfold plain_name in Hcol. rewrite !andb_true_iff in Hcol.
    rewrite IH by assumption. now rewrite (proj2 (proj1 Hcol)).
Qed.

Lemma build_insert_spec_witness :
  build_insert "irc_channel" ["id"; "network_id"; "name"]
  = "INSERT INTO irc_channel (id, network_id, name) VALUES ($1, $2, $3)"
  /\ statement_columns (build_insert "irc_channel" ["id"; "network_id"; "name"])
     = ["id"; "network_id"; "name"].
Proof.
  destruct (build_insert_spec "irc_channel" ["id"; "network_id"; "name"]) as (H1 & _ & H3);
    [discriminate|].
  split; [rewrite H1; reflexivity | exact (H3 eq_refl eq_refl)].
Defined.

(** ** The world and the primitives *)

Section Proofs.

Context {E : Engine}.

Lemma conn_eqb_refl (c : Conn) : conn_eqb c c = true.
Proof.
  unfold conn_eqb. now rewrite !String.eqb_refl.
Qed.

Lemma w_dbs_set_db (c : Conn) (d : @DB E) (w : @World E) : w_dbs (set_db c d w) c = Some d.
Proof.
  simpl. now rewrite conn_eqb_refl.
Qed.

Lemma w_dbs_set_db_other (c c' : Conn) (d : @DB E) (w : @World E) :
  conn_eqb c c' = false -> w_dbs (set_db c d w) c' = w_dbs w c'.
Proof.
  intros H. simpl. now rewrite H.
Qed.

Lemma open_tx_set_db (c : Conn) (s0 cur : Store E) (w : @World E) :
  open_tx c (set_db c (mkDB s0 (Some cur)) w) = Some (mkDB s0 (Some cur), cur).
Proof.
  unfold open_tx. now rewrite w_dbs_set_db.
Qed.

Lemma open_tx_of_db (c : Conn) (s0 cur : Store E) (w : @World E) :
  w_dbs w c = Some (mkDB s0 (Some cur)) ->
  open_tx c w = Some (mkDB s0 (Some cur), cur).
Proof.
  intros H. unfold open_tx. now rewrite H.
Qed.

(** Sequencing: an [Exit] on the left is the outcome of the whole. *)
Lemma bind_ret {A B} (m : @M E A) (k : A -> @M E B) (w w' : World) (a : A) :
  m w = (Ret a, w') -> bind m k w = k a w'.
Proof.
  intros H. unfold bind. now rewrite H.
Qed.

Lemma bind_exit {A B} (m : @M E A) (k : A -> @M E B) (w w' : World) (code : Z) :
  m w = (Exit code, w') -> bind m k w = (Exit code, w').
Proof.
  intros H. unfold bind. now rewrite H.
Qed.

Lemma for_each_app {A} (xs ys : list A) (body : A -> @M E unit) (w : @World E) :
  for_each (xs ++ ys) body w = bind (for_each xs body) (fun _ => for_each ys body) w.
Proof.
  revert w. induction xs as [|x xs IH]; intros w.
  - reflexivity.
  - cbn [app for_each]. unfold bind.
    destruct (body x w) as [[[]|code] w1]; [|reflexivity].
    rewrite IH. reflexivity.
Qed.

(** *** One row of the copy loop *)

Section CopyRow.

Variables (postgresDB : Conn) (table colNames colPlaceholders : string).
Variable ncols : nat.

Local Abbreviation query := (insert_text table colNames colPlaceholders).
Local Abbreviation body := (@copy_row E postgresDB table ncols colNames colPlaceholders).

(** The insert is accepted: the view of the transaction moves on and
    nothing is logged. *)
Lemma copy_row_ok (w : @World E) (row : Row) (s0 cur cur' : Store E) :
  w_dbs w postgresDB = Some (mkDB s0 (Some cur)) ->
  length row = ncols ->
  engine_prepare E cur query = None ->
  engine_exec E cur query row = inl cur' ->
  body row w
  = (Ret tt, set_db postgresDB (mkDB s0 (Some cur'))
                    (add_call (CExec postgresDB query row)
                              (add_call (CPrepare postgresDB query) w))).
Proof.
  intros Hdb Hlen Hprep Hexec.
  unfold copy_row, rows_Scan.
  rewrite Hlen, Nat.eqb_refl.
  unfold bind, tx_Prepare.
  rewrite (open_tx_of_db _ _ _ _ Hdb).
  rewrite Hprep.
  unfold tx_Exec.
  rewrite (open_tx_of_db postgresDB s0 cur (add_call _ w) Hdb).
  rewrite Hexec. reflexivity.
Qed.

(** The insert is refused for a foreign key: two lines are logged, the
    transaction is rolled back and a new one is begun. *)
Lemma copy_row_fk (w : @World E) (row : Row) (s0 cur : Store E) (err : string) :
  w_dbs w postgresDB = Some (mkDB s0 (Some cur)) ->
  length row = ncols ->
  engine_prepare E cur query = None ->
  engine_exec E cur query row = inr err ->
  Strings.Contains err fk_violation = true ->
  body row w
  = (Ret tt,
     set_db postgresDB (mkDB s0 (Some s0))
       (add_call (CBegin postgresDB)
          (set_db postgresDB (mkDB s0 None)
             (add_call (CRollback postgresDB)
                (add_log ("Skipping row due to foreign key constraint violation: " +++ err)
                   (add_log ("Failed to insert the following values into PostgreSQL table '"
                               +++ table +++ "': " +++ fmt_values row)
                      (add_call (CExec postgresDB query row)
                         (add_call (CPrepare postgresDB query) w)))))))).
Proof.
  intros Hdb Hlen Hprep Hexec Hfk.
  unfold copy_row, rows_Scan.
  rewrite Hlen, Nat.eqb_refl.
  unfold bind, tx_Prepare.
  rewrite (open_tx_of_db _ _ _ _ Hdb).
  rewrite Hprep.
  unfold tx_Exec.
  rewrite (open_tx_of_db postgresDB s0 cur (add_call _ w) Hdb).
  rewrite Hexec, Hfk.
  unfold log_Printf, tx_Rollback.
  rewrite (open_tx_of_db postgresDB s0 cur (add_log _ (add_log _ (add_call _ (add_call _ w)))) Hdb).
  unfold db_Begin.
  cbn [w_dbs add_call set_db].
  rewrite conn_eqb_refl.
  reflexivity.
Qed.

(** The insert is refused for another reason: one line is logged and
    the process exits with status 1, the transaction left as it was. *)
Lemma copy_row_fatal (w : @World E) (row : Row) (s0 cur : Store E) (err : string) :
  w_dbs w postgresDB = Some (mkDB s0 (Some cur)) ->
  length row = ncols ->
  engine_prepare E cur query = None ->
  engine_exec E cur query row = inr err ->
  Strings.Contains err fk_violation = false ->
  body row w
  = (Exit 1,
     add_log ("Failed to insert row into PostgreSQL table '" +++ table +++ "': " +++ err)
       (add_call (CExec postgresDB query row)
          (add_call (CPrepare postgresDB query) w))).
Proof.
  intros Hdb Hlen Hprep Hexec Hfk.
  unfold copy_row, rows_Scan.
  rewrite Hlen, Nat.eqb_refl.
  unfold bind, tx_Prepare.
  rewrite (open_tx_of_db _ _ _ _ Hdb).
  rewrite Hprep.
  unfold tx_Exec.
  rewrite (open_tx_of_db postgresDB s0 cur (add_call _ w) Hdb).
  rewrite Hexec, Hfk.
  reflexivity.
Qed.

(** *** The row loop *)

Local Abbreviation loop := (@copy_rows E postgresDB table ncols colNames colPlaceholders).

Lemma rows_wf_cons (row : Row) (rows : list Row) :
  rows_wf ncols (row :: rows) = true -> length row = ncols /\ rows_wf ncols rows = true.
Proof.
  unfold rows_wf. cbn [forallb]. intros H.
  apply andb_true_iff in H. destruct H as [H1 H2].
  apply Nat.eqb_eq in H1. now split.
Qed.

Lemma rows_wf_app (rows1 rows2 : list Row) :
  rows_wf ncols (rows1 ++ rows2) = true ->
  rows_wf ncols rows1 = true /\ rows_wf ncols rows2 = true.
Proof.
  unfold rows_wf. rewrite forallb_app. apply andb_true_iff.
Qed.

(** Rows that are all accepted: the loop returns, the view of the
    transaction is the store they leave, and neither log nor standard
    output has grown. *)
Lemma copy_rows_ok (rows : list Row) :
  forall (w : @World E) (s0 cur cur' : Store E),
    w_dbs w postgresDB = Some (mkDB s0 (Some cur)) ->
    rows_wf ncols rows = true ->
    insert_all cur query rows = Some cur' ->
    exists w',
      loop rows w = (Ret tt, w')
      /\ w_dbs w' postgresDB = Some (mkDB s0 (Some cur'))
      /\ w_log w' = w_log w
      /\ w_out w' = w_out w.
Proof.
  induction rows as [|row rows IH]; intros w s0 cur cur' Hdb Hwf Hall.
  - simpl in Hall. injection Hall as <-.
    exists w. now repeat split.
  - apply rows_wf_cons in Hwf. destruct Hwf as [Hlen Hwf].
    cbn [insert_all] in Hall.
    destruct (engine_prepare E cur query) eqn:Hprep; [discriminate|].
    destruct (engine_exec E cur query row) as [cur1|err] eqn:Hexec; [|discriminate].
    pose proof (copy_row_ok w row s0 cur cur1 Hdb Hlen Hprep Hexec) as Hrow.
    match type of Hrow with
    | _ = (_, ?w1) =>
        destruct (IH w1 s0 cur1 cur' (w_dbs_set_db postgresDB _ _) Hwf Hall)
          as (w' & Hrun & Hdb' & Hlog & Hout)
    end.
    exists w'. repeat split; try assumption.
    unfold copy_rows. cbn [for_each].
    rewrite (bind_ret _ _ _ _ _ Hrow). exact Hrun.
Qed.


Lemma copy_rows_app (rows1 rows2 : list Row) (w w1 : @World E) :
  loop rows1 w = (Ret tt, w1) ->
  loop (rows1 ++ rows2) w = loop rows2 w1.
Proof.
  intros H. unfold copy_rows in *.
  rewrite for_each_app. now rewrite (bind_ret _ _ _ _ _ H).
Qed.

Lemma copy_rows_cons (row : Row) (rows : list Row) (w w1 : @World E) :
  body row w = (Ret tt, w1) ->
  loop (row :: rows) w = loop rows w1.
Proof.
  intros H. unfold copy_rows. cbn [for_each].
  now rewrite (bind_ret _ _ _ _ _ H).
Qed.

(** Accepted rows, one row refused for a foreign key, accepted rows: what
    is left in the transaction are the rows after the refused one, and the
    log has the two lines of the refused row. *)
Lemma copy_rows_one_fk (pre post : list Row) (bad : Row) (w : @World E)
    (s0 s1 s2 : Store E) (err : string) :
  w_dbs w postgresDB = Some (mkDB s0 (Some s0)) ->
  rows_wf ncols (pre ++ bad :: post) = true ->
  insert_all s0 query pre = Some s1 ->
  engine_prepare E s1 query = None ->
  engine_exec E s1 query bad = inr err ->
  Strings.Contains err fk_violation = true ->
  insert_all s0 query post = Some s2 ->
  exists w',
    loop (pre ++ bad :: post) w = (Ret tt, w')
    /\ w_dbs w' postgresDB = Some (mkDB s0 (Some s2))
    /\ w_log w' = w_log w
                  ++ ["Failed to insert the following values into PostgreSQL table '"
                        +++ table +++ "': " +++ fmt_values bad;
                      "Skipping row due to foreign key constraint violation: " +++ err]
    /\ w_out w' = w_out w.
Proof.
  intros Hdb Hwf Hpre Hprep Hexec Hfk Hpost.
  apply rows_wf_app in Hwf. destruct Hwf as [Hwf1 Hwf2].
  apply rows_wf_cons in Hwf2. destruct Hwf2 as [Hlen Hwf2].
  destruct (copy_rows_ok pre w s0 s0 s1 Hdb Hwf1 Hpre) as (w1 & Hrun1 & Hdb1 & Hlog1 & Hout1).
  pose proof (copy_row_fk w1 bad s0 s1 err Hdb1 Hlen Hprep Hexec Hfk) as Hrow.
  match type of Hrow with
  | _ = (_, ?w2) =>
      destruct (copy_rows_ok post w2 s0 s0 s2 (w_dbs_set_db postgresDB _ _) Hwf2 Hpost)
        as (w3 & Hrun3 & Hdb3 & Hlog3 & Hout3)
  end.
  exists w3. split; [|split; [|split]].
  - rewrite (copy_rows_app _ _ _ _ Hrun1), (copy_rows_cons _ _ _ _ Hrow). exact Hrun3.
  - exact Hdb3.
  - rewrite Hlog3. cbn [w_log set_db add_call add_log]. rewrite Hlog1.
    rewrite <- app_assoc. reflexivity.
  - rewrite Hout3. cbn [w_out set_db add_call add_log]. exact Hout1.
Qed.

End CopyRow.

(** *** One table of [migrate] *)

(** The world in which the row loop of a table starts: the table has
    been queried and a transaction begun on the destination. *)
Local Abbreviation begun sqliteDB postgresDB table s0 w :=
  (set_db postgresDB (mkDB s0 (Some s0))
          (add_call (CBegin postgresDB)
                    (add_call (CQuery sqliteDB ("SELECT * FROM " +++ table)) w))).

(** When the row loop returns, the view of the transaction is committed
    and the table is reported on standard output. *)
Lemma migrate_table_copied (sqliteDB postgresDB : Conn) (table : string)
    (columns : list string) (rows : list Row) (w w1 : @World E)
    (dsrc ddst : @DB E) (s' : Store E) :
  w_dbs w sqliteDB = Some dsrc ->
  engine_query E (db_committed dsrc) ("SELECT * FROM " +++ table) = inl (columns, rows) ->
  w_dbs w postgresDB = Some ddst ->
  copy_rows postgresDB table (length columns)
            (fst (build_columns columns)) (snd (build_columns columns)) rows
            (begun sqliteDB postgresDB table (db_committed ddst) w) = (Ret tt, w1) ->
  w_dbs w1 postgresDB = Some (mkDB (db_committed ddst) (Some s')) ->
  migrate_table sqliteDB postgresDB table w
  = (Ret tt,
     add_out ("Migrated table '" +++ table +++ "' from SQLite to PostgreSQL")
       (set_db postgresDB (mkDB s' None) (add_call (CCommit postgresDB) w1))).
Proof.
  intros Hsrc Hquery Hdst Hloop Hdb1.
  unfold migrate_table.
  unfold bind at 1. unfold db_Query. cbn [w_dbs add_call].
  rewrite Hsrc, Hquery.
  destruct (build_columns columns) as [colNames colPlaceholders]. cbn [fst snd] in Hloop.
  unfold bind at 1. unfold db_Begin. cbn [w_dbs add_call].
  rewrite Hdst.
  rewrite (bind_ret _ _ _ _ _ Hloop).
  unfold bind, tx_Commit.
  rewrite (open_tx_of_db _ _ _ _ Hdb1).
  reflexivity.
Qed.

Lemma build_insert_text (table : string) (columns : list string) :
  build_insert table columns
  = insert_text table (fst (build_columns columns)) (snd (build_columns columns)).
Proof.
  unfold build_insert. now destruct (build_columns columns).
Qed.

(** ** The failure policy of [migrate] *)

Lemma rowsSkipped_skip (log : list string) (table : string) (values : Row) (err : string) :
  rowsSkipped (log ++ ["Failed to insert the following values into PostgreSQL table '"
                         +++ table +++ "': " +++ fmt_values values;
                       "Skipping row due to foreign key constraint violation: " +++ err])
  = S (rowsSkipped log).
Proof.
  unfold rowsSkipped. rewrite filter_app, length_app.
  cbn. lia.
Qed.

(** C1 (amended).  A table whose rows are all accepted by the destination
    except one, refused for a foreign key: [migrate] commits the rows that
    come after the refused one, and only them (N-k of N rows when the
    refused row is the k-th), logs for the refused row one line naming the
    table with the values of the row and one line with the error, and
    reports the table as migrated. *)
Theorem migrate_table_one_fk_failure (sqliteDB postgresDB : Conn) (table : string)
    (columns : list string) (pre post : list Row) (bad : Row) (w : @World E)
    (dsrc ddst : @DB E) (s1 s2 : Store E) (err : string) :
  w_dbs w sqliteDB = Some dsrc ->
  engine_query E (db_committed dsrc) ("SELECT * FROM " +++ table)
    = inl (columns, pre ++ bad :: post) ->
  w_dbs w postgresDB = Some ddst ->
  rows_wf (length columns) (pre ++ bad :: post) = true ->
  insert_all (db_committed ddst) (build_insert table columns) pre = Some s1 ->
  engine_prepare E s1 (build_insert table columns) = None ->
  engine_exec E s1 (build_insert table columns) bad = inr err ->
  Strings.Contains err fk_violation = true ->
  insert_all (db_committed ddst) (build_insert table columns) post = Some s2 ->
  exists w',
    migrate_table sqliteDB postgresDB table w = (Ret tt, w')
    /\ w_dbs w' postgresDB = Some (mkDB s2 None)
    /\ w_log w' = w_log w
                  ++ ["Failed to insert the following values into PostgreSQL table '"
                        +++ table +++ "': " +++ fmt_values bad;
                      "Skipping row due to foreign key constraint violation: " +++ err]
    /\ rowsSkipped (w_log w') = S (rowsSkipped (w_log w))
    /\ w_out w' = w_out w ++ ["Migrated table '" +++ table +++ "' from SQLite to PostgreSQL"]
    /\ length post = length (pre ++ bad :: post) - S (length pre).
Proof.
  intros Hsrc Hquery Hdst Hwf Hpre Hprep Hexec Hfk Hpost.
  rewrite build_insert_text in Hpre, Hprep, Hexec, Hpost.
  destruct (copy_rows_one_fk postgresDB table _ _ (length columns) pre post bad
              (begun sqliteDB postgresDB table (db_committed ddst) w)
              (db_committed ddst) s1 s2 err
              (w_dbs_set_db postgresDB _ _) Hwf Hpre Hprep Hexec Hfk Hpost)
    as (w1 & Hrun & Hdb1 & Hlog1 & Hout1).
  eexists. split; [|split; [|split; [|split; [|split]]]].
  - exact (migrate_table_copied _ _ _ _ _ _ _ _ _ _ Hsrc Hquery Hdst Hrun Hdb1).
  - apply w_dbs_set_db.
  - cbn [w_log add_out set_db add_call]. exact Hlog1.
  - cbn [w_log add_out set_db add_call]. rewrite Hlog1. apply rowsSkipped_skip.
  - cbn [w_out add_out set_db add_call]. now rewrite Hout1.
  - rewrite length_app. cbn [length]. lia.
Qed.


(** C3 (amended).  A row whose insert is refused.  For a foreign key: the
    transaction is rolled back, the row is logged (two lines: its values,
    and that it is skipped, with the error), a new transaction is begun
    and the loop goes on with the next row of the table; nothing else is
    kept of the row.  For any other reason:
    one line is logged and the process exits with status 1 at once, the
    row having been executed once, whatever rows, tables and statements
    were to follow. *)
Theorem copy_row_failure_policy (postgresDB : Conn) (table colNames colPlaceholders : string)
    (ncols : nat) (w : @World E) (row : Row) (rest : list Row)
    (s0 cur : Store E) (err : string) :
  w_dbs w postgresDB = Some (mkDB s0 (Some cur)) ->
  length row = ncols ->
  engine_prepare E cur (insert_text table colNames colPlaceholders) = None ->
  engine_exec E cur (insert_text table colNames colPlaceholders) row = inr err ->
  (Strings.Contains err fk_violation = true ->
   exists w',
     copy_row postgresDB table ncols colNames colPlaceholders row w = (Ret tt, w')
     /\ w_dbs w' postgresDB = Some (mkDB s0 (Some s0))
     /\ w_log w' = w_log w
                   ++ ["Failed to insert the following values into PostgreSQL table '"
                         +++ table +++ "': " +++ fmt_values row;
                       "Skipping row due to foreign key constraint violation: " +++ err]
     /\ w_calls w' = w_calls w
                     ++ [CPrepare postgresDB (insert_text table colNames colPlaceholders);
                         CExec postgresDB (insert_text table colNames colPlaceholders) row;
                         CRollback postgresDB; CBegin postgresDB]
     /\ copy_rows postgresDB table ncols colNames colPlaceholders (row :: rest) w
        = copy_rows postgresDB table ncols colNames colPlaceholders rest w')
  /\ (Strings.Contains err fk_violation = false ->
      forall next : unit -> @M E unit,
        bind (copy_rows postgresDB table ncols colNames colPlaceholders (row :: rest)) next w
        = (Exit 1,
           add_log ("Failed to insert row into PostgreSQL table '" +++ table +++ "': " +++ err)
             (add_call (CExec postgresDB (insert_text table colNames colPlaceholders) row)
                (add_call (CPrepare postgresDB (insert_text table colNames colPlaceholders))
                   w)))).
Proof.
  intros Hdb Hlen Hprep Hexec. split; intros Hfk.
  - pose proof (copy_row_fk postgresDB table colNames colPlaceholders ncols w row s0 cur err
                  Hdb Hlen Hprep Hexec Hfk) as Hrow.
    eexists. split; [exact Hrow|]. split; [|split; [|split]].
    + apply w_dbs_set_db.
    + cbn [w_log set_db add_call add_log]. now rewrite <- app_assoc.
    + cbn [w_calls set_db add_call add_log]. now rewrite <- !app_assoc.
    + exact (copy_rows_cons _ _ _ _ _ _ _ _ _ Hrow).
  - intros next.
    pose proof (copy_row_fatal postgresDB table colNames colPlaceholders ncols w row s0 cur err
                  Hdb Hlen Hprep Hexec Hfk) as Hrow.
    apply bind_exit. unfold copy_rows. cbn [for_each].
    now apply bind_exit.
Qed.

(** ** Opening the database in [resetDB] and [seedDB] *)

Lemma resetDB_unknown_driver (dbPath : string) (w : @World E) :
  existsb (String.eqb "sqlite") (w_drivers w) = false ->
  resetDB dbPath w = (Exit 1, add_log unknown_sqlite w).
Proof.
  intros H. unfold resetDB, bind, sql_Open. rewrite H. reflexivity.
Qed.

Lemma seedDB_unknown_driver (seedDBPath dbPath : string) (w : @World E) :
  existsb (String.eqb "sqlite") (w_drivers w) = false ->
  seedDB seedDBPath dbPath w
  = (Exit 1,
     match w_files w seedDBPath with
     | Some _ => add_log unknown_sqlite w
     | None => add_log ("failed to read SQL file: open " +++ seedDBPath
                          +++ ": no such file or directory") w
     end).
Proof.
  intros H. unfold seedDB, bind, ioutil_ReadFile.
  destruct (w_files w seedDBPath); [|reflexivity].
  unfold sql_Open. rewrite H. reflexivity.
Qed.

(** ** seedDB *)

Lemma attempted_all (cmds : list string) :
  forall (s s' : Store E), exec_all s cmds = inl s' -> attempted s cmds = cmds.
Proof.
  induction cmds as [|cmd rest IH]; intros s s' H; [reflexivity|].
  cbn [exec_all attempted] in *.
  destruct (engine_exec E s cmd []) as [s1|err]; [|discriminate].
  now rewrite (IH s1 s').
Qed.

(** The loop over the fragments, from a transaction whose view is [cur]:
    every fragment is executed in turn; when all are accepted the loop
    falls through with their effect as the view, and at the first refusal
    one line is logged, the transaction is rolled back and the function
    returns. *)
Lemma seed_loop (db : Conn) (cmds : list string) :
  forall (w : @World E) (s0 cur : Store E),
    w_dbs w db = Some (mkDB s0 (Some cur)) ->
    exists w',
      for_each_return cmds (seed_command db) w
      = (Ret (match exec_all cur cmds with inl _ => Next | inr _ => Return end), w')
      /\ w_dbs w' db = Some (mkDB s0 (match exec_all cur cmds with
                                      | inl cur' => Some cur'
                                      | inr _ => None
                                      end))
      /\ w_log w' = w_log w ++ match exec_all cur cmds with
                               | inl _ => []
                               | inr err => ["failed to execute SQL command: " +++ err]
                               end
      /\ w_calls w' = w_calls w ++ map (fun cmd => CExec db cmd []) (attempted cur cmds)
                        ++ match exec_all cur cmds with
                           | inl _ => []
                           | inr _ => [CRollback db]
                           end
      /\ w_out w' = w_out w.
Proof.
  induction cmds as [|cmd rest IH]; intros w s0 cur Hdb.
  - exists w. cbn. rewrite !app_nil_r. now repeat split.
  - cbn [for_each_return exec_all attempted].
    unfold bind at 1. unfold seed_command at 1. unfold bind at 1. unfold tx_Exec.
    rewrite (open_tx_of_db _ _ _ _ Hdb).
    destruct (engine_exec E cur cmd []) as [cur1|err] eqn:Hexec.
    + destruct (IH (set_db db (mkDB s0 (Some cur1)) (add_call (CExec db cmd []) w)) s0 cur1
                  (w_dbs_set_db db _ _))
        as (w' & Hrun & Hdb' & Hlog & Hcalls & Hout).
      exists w'. cbn [ret]. split; [exact Hrun|]. split; [exact Hdb'|].
      split; [exact Hlog|]. split; [|exact Hout].
      rewrite Hcalls. cbn [w_calls set_db add_call map]. now rewrite <- !app_assoc.
    + unfold bind, log_Printf, tx_Rollback.
      rewrite (open_tx_of_db db s0 cur (add_log _ (add_call _ w)) Hdb).
      eexists. split; [reflexivity|]. split; [apply w_dbs_set_db|].
      split; [reflexivity|]. split; [|reflexivity].
      cbn [w_calls set_db add_call add_log map]. now rewrite <- !app_assoc.
Qed.

(** What [seedDB] does once it has read the script and knows the driver. *)
Lemma seedDB_run (seedDBPath dbPath script : string) (w : @World E) (d : @DB E) :
  w_files w seedDBPath = Some script ->
  existsb (String.eqb "sqlite") (w_drivers w) = true ->
  w_dbs w ("sqlite", dbPath) = Some d ->
  exists w',
    seedDB seedDBPath dbPath w = (Ret tt, w')
    /\ w_dbs w' ("sqlite", dbPath)
       = Some (mkDB (match exec_all (db_committed d) (Strings.Split script ";"%char) with
                     | inl s' => s'
                     | inr _ => db_committed d
                     end) None)
    /\ w_log w' = w_log w
                  ++ match exec_all (db_committed d) (Strings.Split script ";"%char) with
                     | inl _ => []
                     | inr err => ["failed to execute SQL command: " +++ err]
                     end
    /\ w_calls w' = w_calls w
                    ++ CBegin ("sqlite", dbPath)
                    :: map (fun cmd => CExec ("sqlite", dbPath) cmd [])
                           (attempted (db_committed d) (Strings.Split script ";"%char))
                    ++ [match exec_all (db_committed d) (Strings.Split script ";"%char) with
                        | inl _ => CCommit ("sqlite", dbPath)
                        | inr _ => CRollback ("sqlite", dbPath)
                        end]
    /\ w_out w' = w_out w.
Proof.
  intros Hfile Hdriver Hdb.
  unfold seedDB.
  unfold bind at 1. unfold ioutil_ReadFile. rewrite Hfile.
  unfold bind at 1. unfold sql_Open. rewrite Hdriver.
  unfold bind at 1. unfold db_Begin. cbn [w_dbs add_call]. rewrite Hdb.
  destruct (seed_loop ("sqlite", dbPath) (Strings.Split script ";"%char)
              (set_db ("sqlite", dbPath) (mkDB (db_committed d) (Some (db_committed d)))
                      (add_call (CBegin ("sqlite", dbPath)) w))
              (db_committed d) (db_committed d) (w_dbs_set_db _ _ _))
    as (w1 & Hrun & Hdb1 & Hlog1 & Hcalls1 & Hout1).
  rewrite (bind_ret _ _ _ _ _ Hrun).
  destruct (exec_all (db_committed d) (Strings.Split script ";"%char)) as [s'|err].
  - unfold bind, tx_Commit. rewrite (open_tx_of_db _ _ _ _ Hdb1).
    eexists. split; [reflexivity|]. split; [apply w_dbs_set_db|].
    cbn [w_log w_calls w_out set_db add_call db_Close ret].
    rewrite Hlog1, Hcalls1, Hout1. cbn [w_log w_calls w_out set_db add_call].
    rewrite !app_nil_r. split; [reflexivity|]. split; [|reflexivity].
    rewrite <- !app_assoc. reflexivity.
  - exists w1. split; [reflexivity|]. split; [exact Hdb1|].
    rewrite Hlog1, Hcalls1, Hout1. cbn [w_log w_calls w_out set_db add_call].
    split; [reflexivity|]. split; [|reflexivity].
    rewrite <- !app_assoc. reflexivity.
Qed.

(** C8 (amended).  [seedDB] cuts the script at every semicolon, whatever
    surrounds it, and gives every fragment to Exec in the order of the
    script, the empty ones as well, between one Begin and one Commit (one
    Rollback when a fragment is refused, which ends the loop). *)
Theorem seedDB_executes_every_fragment (seedDBPath dbPath script : string)
    (w : @World E) (d : @DB E) :
  w_files w seedDBPath = Some script ->
  existsb (String.eqb "sqlite") (w_drivers w) = true ->
  w_dbs w ("sqlite", dbPath) = Some d ->
  Strings.Join (Strings.Split script ";"%char) ";" = script
  /\ Forall (fun cmd => has_char ";"%char cmd = false) (Strings.Split script ";"%char)
  /\ exists w',
      seedDB seedDBPath dbPath w = (Ret tt, w')
      /\ w_calls w' = w_calls w
                      ++ CBegin ("sqlite", dbPath)
                      :: map (fun cmd => CExec ("sqlite", dbPath) cmd [])
                             (attempted (db_committed d) (Strings.Split script ";"%char))
                      ++ [match exec_all (db_committed d) (Strings.Split script ";"%char) with
                          | inl _ => CCommit ("sqlite", dbPath)
                          | inr _ => CRollback ("sqlite", dbPath)
                          end]
      /\ (forall s', exec_all (db_committed d) (Strings.Split script ";"%char) = inl s' ->
                     attempted (db_committed d) (Strings.Split script ";"%char)
                     = Strings.Split script ";"%char
                     /\ w_dbs w' ("sqlite", dbPath) = Some (mkDB s' None)).
Proof.
  intros Hfile Hdriver Hdb.
  split; [apply Join_Split|]. split; [apply Split_no_sep|].
  destruct (seedDB_run seedDBPath dbPath script w d Hfile Hdriver Hdb)
    as (w' & Hrun & Hdb' & Hlog & Hcalls & _).
  exists w'. split; [exact Hrun|]. split; [exact Hcalls|].
  intros s' Hall. split; [exact (attempted_all _ _ _ Hall)|].
  now rewrite Hall in Hdb'.
Qed.

(** ** resetDB *)

(** One table of the reset loop, from a transaction whose view is [cur]. *)
Lemma reset_table_run (db : Conn) (table : string) (w : @World E) (s0 cur : Store E) :
  w_dbs w db = Some (mkDB s0 (Some cur)) ->
  exists w',
    reset_table db table w
    = (Ret (match reset_store_table cur table with inl _ => Next | inr _ => Return end), w')
    /\ w_dbs w' db = Some (mkDB s0 (match reset_store_table cur table with
                                    | inl cur' => Some cur'
                                    | inr _ => None
                                    end))
    /\ w_log w' = w_log w ++ match reset_store_table cur table with
                             | inl _ => []
                             | inr line => [line]
                             end
    /\ w_calls w' = w_calls w
                    ++ map (fun q => CExec db q []) (reset_attempted cur [table])
                    ++ match reset_store_table cur table with
                       | inl _ => []
                       | inr _ => [CRollback db]
                       end
    /\ w_out w' = w_out w /\ w_files w' = w_files w /\ w_drivers w' = w_drivers w.
Proof.
  intros Hdb.
  unfold reset_table, reset_store_table, reset_attempted, reset_store_table.
  unfold bind at 1. unfold tx_Exec at 1.
  rewrite (open_tx_of_db _ _ _ _ Hdb).
  destruct (engine_exec E cur (delete_text table) []) as [cur1|err] eqn:Hdel.
  - unfold bind at 1. unfold tx_Exec. rewrite open_tx_set_db.
    destruct (engine_exec E cur1 (sequence_text table) []) as [cur2|err] eqn:Hseq.
    + eexists. split; [reflexivity|]. split; [apply w_dbs_set_db|].
      cbn [w_log w_calls w_out w_files w_drivers set_db add_call map].
      rewrite !app_nil_r, <- !app_assoc. now repeat split.
    + destruct (Strings.Contains err "no such table"); cbn [negb].
      * eexists. split; [reflexivity|]. split; [apply w_dbs_set_db|].
        cbn [w_log w_calls w_out w_files w_drivers set_db add_call map].
        rewrite !app_nil_r, <- !app_assoc. now repeat split.
      * unfold bind, log_Printf, tx_Rollback.
        rewrite (open_tx_of_db db s0 cur1 (add_log _ (add_call _ (set_db _ _ _)))
                   (w_dbs_set_db _ _ _)).
        eexists. split; [reflexivity|]. split; [apply w_dbs_set_db|].
        cbn [w_log w_calls w_out w_files w_drivers set_db add_call add_log map].
        rewrite <- !app_assoc. now repeat split.
  - unfold bind, log_Printf, tx_Rollback.
    rewrite (open_tx_of_db db s0 cur (add_log _ (add_call _ w)) Hdb).
    eexists. split; [reflexivity|]. split; [apply w_dbs_set_db|].
    cbn [w_log w_calls w_out w_files w_drivers set_db add_call add_log map].
    rewrite <- !app_assoc. now repeat split.
Qed.

Lemma reset_attempted_cons (s : Store E) (table : string) (rest : list string) :
  reset_attempted s (table :: rest)
  = reset_attempted s [table]
    ++ match reset_store_table s table with
       | inl s' => reset_attempted s' rest
       | inr _ => []
       end.
Proof.
  cbn [reset_attempted]. unfold reset_store_table.
  destruct (engine_exec E s (delete_text table) []) as [s1|err]; [|reflexivity].
  destruct (engine_exec E s1 (sequence_text table) []) as [s2|err].
  - reflexivity.
  - destruct (Strings.Contains err "no such table"); cbn; now rewrite ?app_nil_r.
Qed.

(** The loop over the tables. *)
Lemma reset_loop (db : Conn) (tables : list string) :
  forall (w : @World E) (s0 cur : Store E),
    w_dbs w db = Some (mkDB s0 (Some cur)) ->
    exists w',
      for_each_return tables (reset_table db) w
      = (Ret (match reset_store cur tables with inl _ => Next | inr _ => Return end), w')
      /\ w_dbs w' db = Some (mkDB s0 (match reset_store cur tables with
                                      | inl cur' => Some cur'
                                      | inr _ => None
                                      end))
      /\ w_log w' = w_log w ++ match reset_store cur tables with
                               | inl _ => []
                               | inr line => [line]
                               end
      /\ w_calls w' = w_calls w
                      ++ map (fun q => CExec db q []) (reset_attempted cur tables)
                      ++ match reset_store cur tables with
                         | inl _ => []
                         | inr _ => [CRollback db]
                         end
      /\ w_out w' = w_out w /\ w_files w' = w_files w /\ w_drivers w' = w_drivers w.
Proof.
  induction tables as [|table rest IH]; intros w s0 cur Hdb.
  - exists w. cbn. rewrite !app_nil_r. now repeat split.
  - destruct (reset_table_run db table w s0 cur Hdb)
      as (w1 & Hrun1 & Hdb1 & Hlog1 & Hcalls1 & Hout1 & Hfiles1 & Hdrivers1).
    cbn [for_each_return reset_store].
    rewrite (bind_ret _ _ _ _ _ Hrun1).
    rewrite reset_attempted_cons.
    destruct (reset_store_table cur table) as [cur1|line].
    + destruct (IH w1 s0 cur1 Hdb1)
        as (w' & Hrun & Hdb' & Hlog & Hcalls & Hout & Hfiles & Hdrivers).
      exists w'. split; [exact Hrun|]. split; [exact Hdb'|].
      rewrite Hlog, Hcalls, Hout, Hfiles, Hdrivers, Hlog1, Hcalls1.
      rewrite !app_nil_r, map_app, <- !app_assoc. now repeat split.
    + exists w1. split; [reflexivity|]. split; [exact Hdb1|].
      rewrite Hlog1, Hcalls1, !app_nil_r. now repeat split.
Qed.

(** What [resetDB] does once it knows the driver. *)
Lemma resetDB_run (dbPath : string) (w : @World E) (d : @DB E) :
  existsb (String.eqb "sqlite") (w_drivers w) = true ->
  w_dbs w ("sqlite", dbPath) = Some d ->
  exists w',
    resetDB dbPath w = (Ret tt, w')
    /\ w_dbs w' ("sqlite", dbPath)
       = Some (mkDB (match reset_store (db_committed d) reset_tables with
                     | inl s' => s'
                     | inr _ => db_committed d
                     end) None)
    /\ w_log w' = w_log w ++ match reset_store (db_committed d) reset_tables with
                             | inl _ => []
                             | inr line => [line]
                             end
    /\ w_calls w' = w_calls w
                    ++ CBegin ("sqlite", dbPath)
                    :: map (fun q => CExec ("sqlite", dbPath) q [])
                           (reset_attempted (db_committed d) reset_tables)
                    ++ [match reset_store (db_committed d) reset_tables with
                        | inl _ => CCommit ("sqlite", dbPath)
                        | inr _ => CRollback ("sqlite", dbPath)
                        end]
    /\ w_out w' = w_out w /\ w_files w' = w_files w /\ w_drivers w' = w_drivers w.
Proof.
  intros Hdriver Hdb.
  unfold resetDB.
  unfold bind at 1. unfold sql_Open. rewrite Hdriver.
  unfold bind at 1. unfold db_Begin. cbn [w_dbs add_call]. rewrite Hdb.
  destruct (reset_loop ("sqlite", dbPath) reset_tables
              (set_db ("sqlite", dbPath) (mkDB (db_committed d) (Some (db_committed d)))
                      (add_call (CBegin ("sqlite", dbPath)) w))
              (db_committed d) (db_committed d) (w_dbs_set_db _ _ _))
    as (w1 & Hrun & Hdb1 & Hlog1 & Hcalls1 & Hout1 & Hfiles1 & Hdrivers1).
  rewrite (bind_ret _ _ _ _ _ Hrun).
  destruct (reset_store (db_committed d) reset_tables) as [s'|line].
  - unfold bind, tx_Commit. rewrite (open_tx_of_db _ _ _ _ Hdb1).
    eexists. split; [reflexivity|]. split; [apply w_dbs_set_db|].
    cbn [w_log w_calls w_out w_files w_drivers set_db add_call db_Close ret].
    rewrite Hlog1, Hcalls1, Hout1, Hfiles1, Hdrivers1.
    cbn [w_log w_calls w_out w_files w_drivers set_db add_call].
    rewrite !app_nil_r, <- !app_assoc. now repeat split.
  - exists w1. split; [reflexivity|]. split; [exact Hdb1|].
    rewrite Hlog1, Hcalls1, Hout1, Hfiles1, Hdrivers1.
    cbn [w_log w_calls w_out w_files w_drivers set_db add_call].
    rewrite <- !app_assoc. now repeat split.
Qed.

(** *** What a failed reset leaves *)

(** The parts of the reset policy that hold: a refusal of the sequence
    statement whose text holds "no such table" lets the loop go on with the
    transaction open; any other refusal rolls the transaction back, so
    that the durable store is the one from before the reset, and
    [resetDB] returns. *)
Lemma resetDB_policy (dbPath : string) (w : @World E) (d : @DB E) :
  existsb (String.eqb "sqlite") (w_drivers w) = true ->
  w_dbs w ("sqlite", dbPath) = Some d ->
  (forall table s0 cur cur' err (w0 : @World E),
      w_dbs w0 ("sqlite", dbPath) = Some (mkDB s0 (Some cur)) ->
      engine_exec E cur (delete_text table) [] = inl cur' ->
      engine_exec E cur' (sequence_text table) [] = inr err ->
      Strings.Contains err "no such table" = true ->
      exists w1,
        reset_table ("sqlite", dbPath) table w0 = (Ret Next, w1)
        /\ w_dbs w1 ("sqlite", dbPath) = Some (mkDB s0 (Some cur'))
        /\ w_log w1 = w_log w0)
  /\ (forall line,
         reset_store (db_committed d) reset_tables = inr line ->
         exists w',
           resetDB dbPath w = (Ret tt, w')
           /\ w_dbs w' ("sqlite", dbPath) = Some (mkDB (db_committed d) None)
           /\ w_log w' = w_log w ++ [line]).
Proof.
  intros Hdriver Hdb. split.
  - intros table s0 cur cur' err w0 Hdb0 Hdel Hseq Hno.
    destruct (reset_table_run ("sqlite", dbPath) table w0 s0 cur Hdb0)
      as (w1 & Hrun & Hdb1 & Hlog & _).
    unfold reset_store_table in Hrun, Hdb1, Hlog.
    rewrite Hdel, Hseq, Hno in Hrun, Hdb1, Hlog.
    exists w1. rewrite app_nil_r in Hlog. now repeat split.
  - intros line Hfail.
    destruct (resetDB_run dbPath w d Hdriver Hdb) as (w' & Hrun & Hdb' & Hlog & _).
    rewrite Hfail in Hdb', Hlog.
    exists w'. now repeat split.
Qed.

(** C4 (the code at a reset that fails).  db:reset on a database of which
    a statement of the reset is refused, other than the tolerated refusal
    of the sequence statement: the reset is rolled back and logged, and
    then the process does not exit: it seeds the database that was not
    reset, prints that the reset completed successfully and ends with
    status 0. *)
Theorem db_reset_failure_exits_zero (seedDBPath dbPath script line : string)
    (w : @World E) (d : @DB E) :
  String.eqb seedDBPath "" = false ->
  String.eqb dbPath "" = false ->
  existsb (String.eqb "sqlite") (w_drivers w) = true ->
  w_files w seedDBPath = Some script ->
  w_dbs w ("sqlite", dbPath) = Some d ->
  reset_store (db_committed d) reset_tables = inr line ->
  exists run w',
    main ["db:reset"; seedDBPath; dbPath] = Some run
    /\ run w = (Ret tt, w')
    /\ exit_status (fst (run w)) = 0%Z
    /\ w_out w' = w_out w ++ ["Database reset completed successfully!"]
    /\ w_log w' = w_log w ++ line
                    :: match exec_all (db_committed d) (Strings.Split script ";"%char) with
                       | inl _ => []
                       | inr err => ["failed to execute SQL command: " +++ err]
                       end
    /\ w_dbs w' ("sqlite", dbPath)
       = Some (mkDB (match exec_all (db_committed d) (Strings.Split script ";"%char) with
                     | inl s' => s'
                     | inr _ => db_committed d
                     end) None).
Proof.
  intros Hseed Hpath Hdriver Hfile Hdb Hfail.
  destruct (resetDB_run dbPath w d Hdriver Hdb)
    as (w1 & Hrun1 & Hdb1 & Hlog1 & _ & Hout1 & Hfiles1 & Hdrivers1).
  rewrite Hfail in Hdb1, Hlog1.
  rewrite <- Hfiles1 in Hfile. rewrite <- Hdrivers1 in Hdriver.
  destruct (seedDB_run seedDBPath dbPath script w1 _ Hfile Hdriver Hdb1)
    as (w2 & Hrun2 & Hdb2 & Hlog2 & _ & Hout2).
  cbn [db_committed] in Hdb2, Hlog2.
  assert (Hmain : @main E ["db:reset"; seedDBPath; dbPath]
                  = Some (bind (resetDB dbPath)
                            (fun _ => bind (seedDB seedDBPath dbPath)
                                        (fun _ => fmt_Println
                                                    "Database reset completed successfully!")))).
  { unfold main, flag_Arg. cbn [nth String.eqb Ascii.eqb Bool.eqb]. now rewrite Hseed, Hpath. }
  assert (Hall : bind (resetDB dbPath)
                   (fun _ => bind (seedDB seedDBPath dbPath)
                               (fun _ => fmt_Println "Database reset completed successfully!")) w
                 = (Ret tt, add_out "Database reset completed successfully!" w2)).
  { rewrite (bind_ret _ _ _ _ _ Hrun1), (bind_ret _ _ _ _ _ Hrun2). reflexivity. }
  eexists. eexists. split; [exact Hmain|]. split; [exact Hall|].
  split; [now rewrite Hall|].
  cbn [w_out w_log w_dbs add_out].
  split; [now rewrite Hout2, Hout1|].
  split; [rewrite Hlog2, Hlog1, <- app_assoc; reflexivity | exact Hdb2].
Qed.

(** ** The driver that [resetDB] and [seedDB] ask for *)

(** C5 (amended).  [resetDB] and [seedDB] ask [sql.Open] for the driver
    "sqlite", [migrate] for "sqlite3" and "postgres"; the two blank
    imports of the file register "postgres" and "sqlite3" and not
    "sqlite".  In a process in which no driver is registered under the
    name "sqlite", [resetDB] and [seedDB] end at [sql.Open] with a fatal
    error, and every db:reset and db:seed invocation exits with status 1
    without a call to, or a change of, any database.  In a process in
    which one is, they go on to begin their transaction. *)
Theorem reset_and_seed_need_the_sqlite_driver (w : @World E) :
  (existsb (String.eqb "sqlite") blank_imports = false
   /\ existsb (String.eqb "sqlite3") blank_imports = true
   /\ existsb (String.eqb "postgres") blank_imports = true)
  /\ (existsb (String.eqb "sqlite") (w_drivers w) = false ->
      (forall dbPath, resetDB dbPath w = (Exit 1, add_log unknown_sqlite w))
      /\ (forall seedDBPath dbPath script,
             w_files w seedDBPath = Some script ->
             seedDB seedDBPath dbPath w = (Exit 1, add_log unknown_sqlite w))
      /\ (forall args,
             flag_Arg args 0 = "db:reset" \/ flag_Arg args 0 = "db:seed" ->
             exists run w',
               main args = Some run
               /\ run w = (Exit 1, w')
               /\ w_dbs w' = w_dbs w
               /\ w_calls w' = w_calls w))
  /\ (existsb (String.eqb "sqlite") (w_drivers w) = true ->
      (forall dbPath,
          exists o w' calls,
            resetDB dbPath w = (o, w')
            /\ w_calls w' = w_calls w ++ CBegin ("sqlite", dbPath) :: calls)
      /\ (forall seedDBPath dbPath script,
             w_files w seedDBPath = Some script ->
             exists o w' calls,
               seedDB seedDBPath dbPath w = (o, w')
               /\ w_calls w' = w_calls w ++ CBegin ("sqlite", dbPath) :: calls))
  /\ (forall sqliteDBPath postgresDBURL,
         (existsb (String.eqb "sqlite3") (w_drivers w) = true ->
          sql_Open "sqlite3" sqliteDBPath w = (Ret (inl ("sqlite3", sqliteDBPath)), w))
         /\ (existsb (String.eqb "postgres") (w_drivers w) = true ->
             sql_Open "postgres" postgresDBURL w = (Ret (inl ("postgres", postgresDBURL)), w))
         /\ (existsb (String.eqb "sqlite3") (w_drivers w) = false ->
             migrate sqliteDBPath postgresDBURL w
             = (Exit 1, add_log ("Failed to connect to SQLite database: sql: unknown driver "
                                   +++ Strings.Quote "sqlite3" +++ " (forgotten import?)") w))).
Proof.
  split; [repeat split|]. split; [|split].
  - intros Hsqlite. split; [|split].
    + intros dbPath. now apply resetDB_unknown_driver.
    + intros seedDBPath dbPath script Hfile.
      rewrite seedDB_unknown_driver by assumption. now rewrite Hfile.
    + intros args [Hcmd|Hcmd]; unfold main; rewrite Hcmd; cbn [String.eqb Ascii.eqb Bool.eqb];
        (destruct (String.eqb (flag_Arg args 1) "");
         [|destruct (String.eqb (flag_Arg args 2) "")]);
        eexists; eexists; (split; [reflexivity|]);
        try (split; [reflexivity | split; reflexivity]).
      * split; [apply bind_exit; now apply resetDB_unknown_driver|].
        split; reflexivity.
      * split.
        -- apply bind_exit. now apply seedDB_unknown_driver.
        -- destruct (w_files w (flag_Arg args 1)); split; reflexivity.
  - intros Hsqlite. split.
    + intros dbPath.
      destruct (w_dbs w ("sqlite", dbPath)) as [d|] eqn:Hdb.
      * destruct (resetDB_run dbPath w d Hsqlite Hdb) as (w' & Hrun & _ & _ & Hcalls & _).
        eexists. exists w'. eexists. split; [exact Hrun | exact Hcalls].
      * eexists. eexists. exists [].
        unfold resetDB, bind, sql_Open, db_Begin. rewrite Hsqlite.
        cbn [w_dbs add_call]. rewrite Hdb. split; reflexivity.
    + intros seedDBPath dbPath script Hfile.
      destruct (w_dbs w ("sqlite", dbPath)) as [d|] eqn:Hdb.
      * destruct (seedDB_run seedDBPath dbPath script w d Hfile Hsqlite Hdb)
          as (w' & Hrun & _ & _ & Hcalls & _).
        eexists. exists w'. eexists. split; [exact Hrun | exact Hcalls].
      * eexists. eexists. exists [].
        unfold seedDB, bind, ioutil_ReadFile, sql_Open, db_Begin. rewrite Hfile, Hsqlite.
        cbn [w_dbs add_call]. rewrite Hdb. split; reflexivity.
  - intros sqliteDBPath postgresDBURL. split; [|split]; intros H.
    + unfold sql_Open. now rewrite H.
    + unfold sql_Open. now rewrite H.
    + unfold migrate, bind, sql_Open. now rewrite H.
Qed.

(** ** The tables that a run goes through *)

Lemma queried_app (c : Conn) (calls1 calls2 : list Call) :
  queried c (calls1 ++ calls2) = queried c calls1 ++ queried c calls2.
Proof.
  unfold queried. apply flat_map_app.
Qed.

Lemma executed_app (c : Conn) (calls1 calls2 : list Call) :
  executed c (calls1 ++ calls2) = executed c calls1 ++ executed c calls2.
Proof.
  unfold executed. apply flat_map_app.
Qed.

(** Whatever happens to a row, no query is issued and standard output is
    not written to. *)
Lemma copy_row_frame (c postgresDB : Conn) (table colNames colPlaceholders : string)
    (ncols : nat) (row : Row) (w w' : @World E) (o : Outcome unit) :
  copy_row postgresDB table ncols colNames colPlaceholders row w = (o, w') ->
  queried c (w_calls w') = queried c (w_calls w) /\ w_out w' = w_out w.
Proof.
  intros H.
  unfold copy_row in H.
  destruct (rows_Scan ncols row) as [values|err].
  - unfold bind, tx_Prepare, tx_Exec, tx_Rollback, db_Begin, log_Printf, log_Fatalf, ret in H.
    split_run H;
      injection H as <- <-; cbn [w_calls w_out set_db add_call add_log];
      rewrite ?queried_app; cbn; rewrite ?app_nil_r; split; reflexivity.
  - injection H as <- <-. split; reflexivity.
Qed.

Lemma copy_rows_frame (c postgresDB : Conn) (table colNames colPlaceholders : string)
    (ncols : nat) (rows : list Row) :
  forall (w w' : @World E) (o : Outcome unit),
    copy_rows postgresDB table ncols colNames colPlaceholders rows w = (o, w') ->
    queried c (w_calls w') = queried c (w_calls w) /\ w_out w' = w_out w.
Proof.
  induction rows as [|row rows IH]; intros w w' o H.
  - injection H as <- <-. split; reflexivity.
  - unfold copy_rows in H. cbn [for_each] in H. unfold bind in H.
    destruct (copy_row postgresDB table ncols colNames colPlaceholders row w)
      as [[[]|code] w1] eqn:Hrow;
      destruct (copy_row_frame c _ _ _ _ _ _ _ _ _ Hrow) as [Hq Hout].
    + destruct (IH _ _ _ H) as [Hq' Hout']. split; congruence.
    + injection H as <- <-. split; assumption.
Qed.

Lemma for_each_frame {A} (body : A -> @M E unit) (R : @World E -> @World E -> Prop) :
  (forall w, R w w) ->
  (forall w1 w2 w3, R w1 w2 -> R w2 w3 -> R w1 w3) ->
  (forall x w o w', body x w = (o, w') -> R w w') ->
  forall xs w o w', for_each xs body w = (o, w') -> R w w'.
Proof.
  intros Hrefl Htrans Hbody. induction xs as [|x xs IH]; intros w o w' H.
  - injection H as <- <-. apply Hrefl.
  - cbn [for_each] in H. unfold bind in H.
    destruct (body x w) as [[[]|code] w1] eqn:Hx.
    + exact (Htrans _ _ _ (Hbody _ _ _ _ Hx) (IH _ _ _ H)).
    + injection H as <- <-. exact (Hbody _ _ _ _ Hx).
Qed.

Lemma deferred_rollback_frame (c postgresDB : Conn) (w w' : @World E) (o : Outcome unit) :
  deferred_rollback postgresDB w = (o, w') ->
  queried c (w_calls w') = queried c (w_calls w) /\ w_out w' = w_out w.
Proof.
  intros H. unfold deferred_rollback, bind, tx_Rollback, log_Fatalf, ret in H.
  split_run H;
    injection H as <- <-; cbn [w_calls w_out set_db add_call add_log];
    rewrite ?queried_app; cbn; rewrite ?app_nil_r; split; reflexivity.
Qed.

(** One table of [migrate], whatever its outcome: the table is queried,
    once, and it is reported on standard output when, and only when, the
    body is left normally. *)
Lemma migrate_table_frame (sqliteDB postgresDB : Conn) (table : string)
    (w w' : @World E) (o : Outcome unit) :
  migrate_table sqliteDB postgresDB table w = (o, w') ->
  queried sqliteDB (w_calls w')
  = queried sqliteDB (w_calls w) ++ ["SELECT * FROM " +++ table]
  /\ w_out w' = w_out w
                ++ match o with
                   | Ret _ => ["Migrated table '" +++ table +++ "' from SQLite to PostgreSQL"]
                   | Exit _ => []
                   end.
Proof.
  intros H. unfold migrate_table in H.
  unfold bind at 1 in H. unfold db_Query in H. cbn [w_dbs add_call] in H.
  assert (Hq : forall q, queried sqliteDB [CQuery sqliteDB q] = [q])
    by (intros q; cbn; now rewrite conn_eqb_refl).
  destruct (w_dbs w sqliteDB) as [dsrc|].
  - destruct (engine_query E (db_committed dsrc) ("SELECT * FROM " +++ table))
      as [[columns rows]|err].
    + destruct (build_columns columns) as [colNames colPlaceholders].
      unfold bind at 1 in H. unfold db_Begin in H. cbn [w_dbs add_call] in H.
      destruct (w_dbs w postgresDB) as [ddst|].
      * unfold bind at 1 in H.
        destruct (copy_rows postgresDB table (length columns) colNames colPlaceholders rows _)
          as [[[]|code] w1] eqn:Hloop;
          destruct (copy_rows_frame sqliteDB _ _ _ _ _ _ _ _ _ Hloop) as [Hq1 Hout1];
          cbn [w_calls w_out set_db add_call] in Hq1, Hout1;
          rewrite !queried_app, Hq in Hq1; cbn [queried flat_map app] in Hq1;
          rewrite app_nil_r in Hq1.
        -- unfold bind, tx_Commit, fmt_Println, log_Fatalf in H.
           destruct (open_tx postgresDB w1) as [[d1 s1]|];
             injection H as <- <-; cbn [w_calls w_out set_db add_call add_out add_log];
             rewrite ?queried_app, Hq1, Hout1; cbn [queried flat_map app];
             rewrite ?app_nil_r; split; reflexivity.
        -- injection H as <- <-. rewrite Hq1, Hout1, app_nil_r. split; reflexivity.
      * injection H as <- <-. cbn [w_calls w_out add_call add_log].
        rewrite !queried_app, Hq. cbn [queried flat_map app].
        rewrite !app_nil_r. split; reflexivity.
    + injection H as <- <-. cbn [w_calls w_out add_call add_log].
      rewrite !queried_app, Hq, app_nil_r. split; reflexivity.
  - injection H as <- <-. cbn [w_calls w_out add_call add_log].
    rewrite !queried_app, Hq, app_nil_r. split; reflexivity.
Qed.

(** The table loop, whatever its outcome: the tables queried are the
    first [n] of the list, in its order, and all of them when the loop is
    left normally. *)
Lemma migrate_tables_frame (sqliteDB postgresDB : Conn) (tables : list string) :
  forall (w w' : @World E) (o : Outcome unit),
    for_each tables (migrate_table sqliteDB postgresDB) w = (o, w') ->
    exists n,
      queried sqliteDB (w_calls w')
      = queried sqliteDB (w_calls w)
        ++ map (fun table => "SELECT * FROM " +++ table) (firstn n tables)
      /\ (forall u, o = Ret u ->
                    n = length tables
                    /\ w_out w'
                       = w_out w
                         ++ map (fun table => "Migrated table '" +++ table
                                                +++ "' from SQLite to PostgreSQL") tables).
Proof.
  induction tables as [|table rest IH]; intros w w' o H.
  - injection H as <- <-. exists 0. cbn. rewrite !app_nil_r. now repeat split.
  - cbn [for_each] in H. unfold bind in H.
    destruct (migrate_table sqliteDB postgresDB table w) as [[[]|code] w1] eqn:Htable;
      destruct (migrate_table_frame _ _ _ _ _ _ Htable) as [Hq1 Hout1].
    + destruct (IH _ _ _ H) as (n & Hq & Hret).
      exists (S n). split.
      * rewrite Hq, Hq1. cbn [firstn map]. now rewrite <- app_assoc.
      * intros u Hu. destruct (Hret u Hu) as [Hn Hout].
        split; [now rewrite Hn|].
        rewrite Hout, Hout1. cbn [map]. now rewrite <- app_assoc.
    + injection H as <- <-. exists 1. split.
      * rewrite Hq1. reflexivity.
      * intros u Hu. discriminate.
Qed.

(** A run of [migrate], whatever its outcome. *)
Lemma migrate_frame (sqliteDBPath postgresDBURL : string) (w w' : @World E)
    (o : Outcome unit) :
  migrate sqliteDBPath postgresDBURL w = (o, w') ->
  exists n,
    queried ("sqlite3", sqliteDBPath) (w_calls w')
    = queried ("sqlite3", sqliteDBPath) (w_calls w)
      ++ map (fun table => "SELECT * FROM " +++ table) (firstn n migrate_tables)
    /\ (forall u, o = Ret u ->
                  n = length migrate_tables
                  /\ w_out w'
                     = w_out w
                       ++ map (fun table => "Migrated table '" +++ table
                                              +++ "' from SQLite to PostgreSQL")
                              migrate_tables
                       ++ ["Migration completed successfully!"]).
Proof.
  intros H. unfold migrate in H.
  unfold bind at 1 in H. unfold sql_Open at 1 in H.
  destruct (existsb (String.eqb "sqlite3") (w_drivers w)).
  - unfold bind at 1 in H. unfold sql_Open at 1 in H.
    destruct (existsb (String.eqb "postgres") (w_drivers w)).
    + unfold bind at 1 in H.
      destruct (for_each migrate_tables _ w) as [[[]|code] w1] eqn:Hloop;
        destruct (migrate_tables_frame _ _ _ _ _ _ Hloop) as (n & Hq1 & Hret1).
      * destruct (Hret1 tt eq_refl) as [Hn Hout1].
        unfold bind at 1 in H. unfold fmt_Println in H.
        unfold bind at 1 in H.
        destruct (for_each (rev migrate_tables) _ (add_out _ w1)) as [[[]|code] w2] eqn:Hdefer;
          pose proof (for_each_frame _
                        (fun wa wb => queried ("sqlite3", sqliteDBPath) (w_calls wb)
                                      = queried ("sqlite3", sqliteDBPath) (w_calls wa)
                                        /\ w_out wb = w_out wa)
                        (fun _ => conj eq_refl eq_refl)
                        (fun _ _ _ H12 H23 =>
                           conj (eq_trans (proj1 H23) (proj1 H12))
                                (eq_trans (proj2 H23) (proj2 H12)))
                        (fun _ wa oa wb Hb => deferred_rollback_frame _ _ wa wb oa Hb)
                        _ _ _ _ Hdefer) as [Hq2 Hout2];
          cbn [w_calls w_out add_out] in Hq2, Hout2.
        -- unfold bind, db_Close, ret in H. injection H as <- <-.
           exists n. split; [now rewrite Hq2, Hq1|].
           intros u _. split; [exact Hn|]. rewrite Hout2, Hout1. now rewrite <- app_assoc.
        -- injection H as <- <-.
           exists n. split; [now rewrite Hq2, Hq1|]. intros u Hu. discriminate.
      * injection H as <- <-. exists n. split; [exact Hq1|]. intros u Hu. discriminate.
    + injection H as <- <-. exists 0. cbn. rewrite app_nil_r.
      split; [reflexivity|]. intros u Hu. discriminate.
  - injection H as <- <-. exists 0. cbn. rewrite app_nil_r.
    split; [reflexivity|]. intros u Hu. discriminate.
Qed.

Lemma executed_Exec (c : Conn) (queries : list string) :
  executed c (map (fun q => CExec c q []) queries) = queries.
Proof.
  induction queries as [|q rest IH]; [reflexivity|].
  cbn [map]. change (CExec c q [] :: ?l) with ([CExec c q []] ++ l).
  rewrite executed_app, IH. cbn. now rewrite conn_eqb_refl.
Qed.

(** The statements that a reset reaches are the first ones of the
    statements of a full reset, and all of them when nothing stops it. *)
Lemma reset_attempted_prefix (tables : list string) :
  forall s : Store E,
    exists n,
      reset_attempted s tables = firstn n (reset_statements tables)
      /\ (forall s', reset_store s tables = inl s' ->
                     reset_attempted s tables = reset_statements tables).
Proof.
  induction tables as [|table rest IH]; intros s.
  - exists 0. split; [reflexivity|]. intros s' _. reflexivity.
  - cbn [reset_attempted reset_store reset_statements flat_map app].
    fold (reset_statements rest).
    destruct (engine_exec E s (delete_text table) []) as [s1|err] eqn:Hdel.
    + destruct (reset_store_table s table) as [s2|line] eqn:Htable.
      * destruct (IH s2) as (n & Hn & Hall).
        exists (S (S n)). cbn [firstn]. rewrite Hn. split; [reflexivity|].
        intros s' Hs'. now rewrite <- Hn, (Hall s' Hs').
      * exists 2. split; [reflexivity|]. intros s' Hs'. discriminate.
    + exists 1. split; [reflexivity|].
      unfold reset_store_table. rewrite Hdel. intros s' Hs'. discriminate.
Qed.

(** ** The arguments of db:seed *)

(** C10 (the code at the documented invocation).  For db:seed, [main]
    gives the first argument to [seedDB] as the path of the seed script
    and the second as the path of the database, and calls nothing else
    than [seedDB]: the file that is read is the first argument, and the
    database on which the transaction is begun is the second. *)
Theorem db_seed_argument_order (first second : string) (w : @World E) :
  String.eqb first "" = false ->
  String.eqb second "" = false ->
  @main E ["db:seed"; first; second]
  = Some (bind (seedDB first second)
               (fun _ => fmt_Println "Database seeding completed successfully!"))
  /\ (w_files w first = None ->
      forall run, @main E ["db:seed"; first; second] = Some run ->
                  run w = (Exit 1, add_log ("failed to read SQL file: open " +++ first
                                              +++ ": no such file or directory") w))
  /\ (forall script d,
         w_files w first = Some script ->
         existsb (String.eqb "sqlite") (w_drivers w) = true ->
         w_dbs w ("sqlite", second) = Some d ->
         forall run, @main E ["db:seed"; first; second] = Some run ->
                     exists w',
                       run w = (Ret tt, w')
                       /\ exists calls,
                           w_calls w' = w_calls w ++ CBegin ("sqlite", second) :: calls).
Proof.
  intros Hfirst Hsecond.
  assert (Hmain : @main E ["db:seed"; first; second]
                  = Some (bind (seedDB first second)
                               (fun _ => fmt_Println "Database seeding completed successfully!"))).
  { unfold main, flag_Arg. cbn [nth String.eqb Ascii.eqb Bool.eqb]. now rewrite Hfirst, Hsecond. }
  split; [exact Hmain|]. split.
  - intros Hfile run Hrun. rewrite Hmain in Hrun. injection Hrun as <-.
    apply bind_exit. unfold seedDB, bind, ioutil_ReadFile. now rewrite Hfile.
  - intros script d Hfile Hdriver Hdb run Hrun. rewrite Hmain in Hrun. injection Hrun as <-.
    destruct (seedDB_run first second script w d Hfile Hdriver Hdb)
      as (w1 & Hrun1 & _ & _ & Hcalls & _).
    eexists. split; [rewrite (bind_ret _ _ _ _ _ Hrun1); reflexivity|].
    eexists. cbn [w_calls add_out]. exact Hcalls.
Qed.

End Proofs.

(** ** The failure policy on a run

    The source has three channels, of which the second names a network
    that does not exist; the destination refuses it for its foreign key. *)

(** C1, counterexample.  Three rows, one refused for a foreign key and the
    two others accepted: the run commits one row of the table, not two. *)
Lemma migrate_one_fk_failure_commits_one_of_three :
  let r := migrate "/config/autobrr.db" "postgresql://localhost/autobrr" Toy.migrate_world in
  let query := build_insert "irc_channel" Toy.irc_channel_columns in
  Toy.query Toy.source "SELECT * FROM irc_channel"
  = inl (Toy.irc_channel_columns,
         [Toy.channel 1 1 "#a"; Toy.channel 2 9 "#b"; Toy.channel 3 2 "#c"])
  /\ (exists s1 err,
         insert_all (E:=Toy.engine) Toy.networks query [Toy.channel 1 1 "#a"] = Some s1
         /\ Toy.exec s1 query (Toy.channel 2 9 "#b") = inr err
         /\ Strings.Contains err fk_violation = true)
  /\ (exists s2,
         insert_all (E:=Toy.engine) Toy.networks query [Toy.channel 3 2 "#c"] = Some s2)
  /\ fst r = Ret tt
  /\ rowsSkipped (w_log (snd r)) = 1
  /\ exists s,
      Toy.durable (snd r) Toy.postgresDB = Some s
      /\ Toy.count s "irc_channel" = 1
      /\ Toy.count s "irc_channel" <> 3 - 1.
Proof.
  cbv zeta. split; [reflexivity|]. split; [|split; [|split; [|split]]].
  - eexists. eexists. split; [vm_compute; reflexivity|]. split; vm_compute; reflexivity.
  - eexists. vm_compute. reflexivity.
  - vm_compute. reflexivity.
  - vm_compute. reflexivity.
  - eexists. split; [vm_compute; reflexivity|]. split; [vm_compute; reflexivity|].
    vm_compute. discriminate.
Qed.

(** C3, counterexample.  Two runs of [migrate], one in which the second
    channel is refused for its foreign key and skipped, and one in which
    no row is refused.  The first writes the two lines about the row to
    the log; its result and what it prints on standard output are those
    of the second: the program has no count of the rows it skipped. *)
Lemma migrate_keeps_no_count_of_skipped_rows :
  let skipping := migrate "/config/autobrr.db" "postgresql://localhost/autobrr"
                    Toy.migrate_world in
  let clean := migrate "/config/autobrr.db" "postgresql://localhost/autobrr"
                 ToyClean.world in
  w_log (snd skipping)
  = ["Failed to insert the following values into PostgreSQL table 'irc_channel': "
       +++ fmt_values (Toy.channel 2 9 "#b");
     skip_prefix +++ "pq: insert or update on table " +++ Strings.Quote "irc_channel"
       +++ " violates foreign key constraint "
       +++ Strings.Quote "irc_channel_network_id_fkey"]
  /\ w_log (snd clean) = []
  /\ fst skipping = Ret tt
  /\ fst clean = Ret tt
  /\ w_out (snd skipping) = w_out (snd clean)
  /\ w_out (snd skipping)
     = map (fun table => "Migrated table '" +++ table +++ "' from SQLite to PostgreSQL")
           migrate_tables
       ++ ["Migration completed successfully!"]
  /\ w_err (snd skipping) = [].
Proof.
  cbv zeta. repeat split; vm_compute; reflexivity.
Qed.

Lemma migrate_table_one_fk_failure_witness :
  Toy.count Toy.source "irc_channel" = 3
  /\ exists s2 w',
      migrate_table Toy.sqliteDB Toy.postgresDB "irc_channel" Toy.channels_world = (Ret tt, w')
      /\ w_dbs w' Toy.postgresDB = Some (@mkDB Toy.engine s2 None)
      /\ Toy.count s2 "irc_channel" = 1
      /\ rowsSkipped (w_log w') = 1.
Proof.
  split; [reflexivity|].
  destruct (@migrate_table_one_fk_failure Toy.engine Toy.sqliteDB Toy.postgresDB
              "irc_channel" Toy.irc_channel_columns
              [Toy.channel 1 1 "#a"] [Toy.channel 3 2 "#c"] (Toy.channel 2 9 "#b")
              Toy.channels_world (Toy.db Toy.source) (Toy.db Toy.networks)
              (Toy.mkStore
                 (Toy.update "irc_channel"
                    (fun tbl => (fst tbl, snd tbl ++ [Toy.channel 1 1 "#a"]))
                    (Toy.tables Toy.networks)) true)
              (Toy.mkStore
                 (Toy.update "irc_channel"
                    (fun tbl => (fst tbl, snd tbl ++ [Toy.channel 3 2 "#c"]))
                    (Toy.tables Toy.networks)) true)
              ("pq: insert or update on table " +++ Strings.Quote "irc_channel"
                 +++ " violates foreign key constraint "
                 +++ Strings.Quote "irc_channel_network_id_fkey"))
    as (w' & Hrun & Hdb & Hlog & Hskip & Hout & _);
    try (vm_compute; reflexivity).
  eexists. exists w'. split; [exact Hrun|]. split; [exact Hdb|].
  split; [vm_compute; reflexivity|]. exact Hskip.
Defined.


Lemma copy_row_failure_policy_witness :
  (exists w',
      copy_row Toy.postgresDB "irc_channel" 3 "id, network_id, name" "$1, $2, $3"
               (Toy.channel 2 9 "#b") (Toy.loop_world Toy.networks) = (Ret tt, w')
      /\ w_dbs w' Toy.postgresDB = Some (@mkDB Toy.engine Toy.networks (Some Toy.networks))
      /\ length (w_log w') = 2
      /\ copy_rows Toy.postgresDB "irc_channel" 3 "id, network_id, name" "$1, $2, $3"
                   [Toy.channel 2 9 "#b"; Toy.channel 3 2 "#c"] (Toy.loop_world Toy.networks)
         = copy_rows Toy.postgresDB "irc_channel" 3 "id, network_id, name" "$1, $2, $3"
                     [Toy.channel 3 2 "#c"] w')
  /\ (exists w',
         bind (copy_rows Toy.postgresDB "irc_channel" 3 "id, network_id, name" "$1, $2, $3"
                         [Toy.channel 1 1 "#a"; Toy.channel 3 2 "#c"])
              (fun _ => fmt_Println "not reached") (Toy.loop_world Toy.narrow)
         = (Exit 1, w')
         /\ w_log w' = ["Failed to insert row into PostgreSQL table 'irc_channel': "
                          +++ "pq: INSERT has more expressions than target columns"]
         /\ w_out w' = []).
Proof.
  split.
  - destruct (@copy_row_failure_policy Toy.engine Toy.postgresDB "irc_channel"
                "id, network_id, name" "$1, $2, $3" 3 (Toy.loop_world Toy.networks)
                (Toy.channel 2 9 "#b") [Toy.channel 3 2 "#c"] Toy.networks Toy.networks
                ("pq: insert or update on table " +++ Strings.Quote "irc_channel"
                   +++ " violates foreign key constraint "
                   +++ Strings.Quote "irc_channel_network_id_fkey")
                eq_refl eq_refl eq_refl eq_refl) as [Hfk _].
    destruct (Hfk eq_refl) as (w' & Hrow & Hdb & Hlog & Hcalls & Hnext).
    exists w'. split; [exact Hrow|]. split; [exact Hdb|].
    split; [rewrite Hlog; reflexivity | exact Hnext].
  - destruct (@copy_row_failure_policy Toy.engine Toy.postgresDB "irc_channel"
                "id, network_id, name" "$1, $2, $3" 3 (Toy.loop_world Toy.narrow)
                (Toy.channel 1 1 "#a") [Toy.channel 3 2 "#c"] Toy.narrow Toy.narrow
                "pq: INSERT has more expressions than target columns"
                eq_refl eq_refl eq_refl eq_refl) as [_ Hother].
    eexists. split; [exact (Hother eq_refl (fun _ => fmt_Println "not reached"))|].
    split; reflexivity.
Defined.

(** ** Seeding on a run *)

(** C8, counterexample.  A script of one statement that ends with a
    semicolon: the fragment after the semicolon is empty, and it is
    executed. *)
Lemma seedDB_executes_empty_fragment :
  let script := "INSERT INTO users VALUES (1);" in
  let r := seedDB Toy.seed_path "/config/autobrr.db" (Toy.sqlite_world Toy.empty script) in
  fst r = Ret tt
  /\ Strings.Split script ";"%char = ["INSERT INTO users VALUES (1)"; ""]
  /\ executed Toy.sqlite (w_calls (snd r)) = ["INSERT INTO users VALUES (1)"; ""]
  /\ executed Toy.sqlite (w_calls (snd r)) <> filter non_empty (Strings.Split script ";"%char).
Proof.
  cbv zeta. split; [vm_compute; reflexivity|]. split; [vm_compute; reflexivity|].
  split; [vm_compute; reflexivity|]. vm_compute. discriminate.
Qed.

Lemma seedDB_executes_every_fragment_witness :
  exists w',
    seedDB Toy.seed_path "/config/autobrr.db"
           (Toy.sqlite_world Toy.empty "INSERT INTO users VALUES (1);") = (Ret tt, w')
    /\ w_calls w' = [CBegin Toy.sqlite;
                     CExec Toy.sqlite "INSERT INTO users VALUES (1)" [];
                     CExec Toy.sqlite "" [];
                     CCommit Toy.sqlite].
Proof.
  destruct (@seedDB_executes_every_fragment Toy.engine Toy.seed_path "/config/autobrr.db"
              "INSERT INTO users VALUES (1);"
              (Toy.sqlite_world Toy.empty "INSERT INTO users VALUES (1);")
              (Toy.db Toy.empty) eq_refl eq_refl eq_refl)
    as (_ & _ & w' & Hrun & Hcalls & _).
  exists w'. split; [exact Hrun|]. rewrite Hcalls. reflexivity.
Defined.

(** C5, counterexample.  A process in which the driver "sqlite" is
    registered beside the two of the blank imports: db:seed and db:reset
    open the database, execute their statements and return. *)
Lemma db_seed_and_reset_run_with_sqlite_driver :
  let w := Toy.sqlite_world Toy.source "INSERT INTO users VALUES (1)" in
  w_drivers w = ["sqlite"; "postgres"; "sqlite3"]
  /\ (exists run,
         main ["db:seed"; Toy.seed_path; "/config/autobrr.db"] = Some run
         /\ fst (run w) = Ret tt
         /\ executed Toy.sqlite (w_calls (snd (run w))) = ["INSERT INTO users VALUES (1)"]
         /\ exists s, Toy.durable (snd (run w)) Toy.sqlite = Some s /\ Toy.count s "users" = 1)
  /\ (exists run,
         main ["db:reset"; Toy.seed_path; "/config/autobrr.db"] = Some run
         /\ fst (run w) = Ret tt
         /\ executed Toy.sqlite (w_calls (snd (run w)))
            = reset_statements reset_tables ++ ["INSERT INTO users VALUES (1)"]
         /\ exists s,
             Toy.durable (snd (run w)) Toy.sqlite = Some s
             /\ Toy.count s "irc_channel" = 0
             /\ Toy.count s "users" = 1).
Proof.
  cbv zeta. split; [reflexivity|]. split.
  - eexists. split; [reflexivity|]. split; [vm_compute; reflexivity|].
    split; [vm_compute; reflexivity|].
    eexists. split; [vm_compute; reflexivity|]. vm_compute; reflexivity.
  - eexists. split; [reflexivity|]. split; [vm_compute; reflexivity|].
    split; [vm_compute; reflexivity|].
    eexists. split; [vm_compute; reflexivity|]. split; vm_compute; reflexivity.
Qed.

Lemma reset_and_seed_need_the_sqlite_driver_witness :
  resetDB "/config/autobrr.db" (Toy.blank_world Toy.source "INSERT INTO users VALUES (1);")
  = (Exit 1, add_log unknown_sqlite
               (Toy.blank_world Toy.source "INSERT INTO users VALUES (1);"))
  /\ seedDB Toy.seed_path "/config/autobrr.db"
            (Toy.blank_world Toy.source "INSERT INTO users VALUES (1);")
     = (Exit 1, add_log unknown_sqlite
                  (Toy.blank_world Toy.source "INSERT INTO users VALUES (1);"))
  /\ exists o w' calls,
      seedDB Toy.seed_path "/config/autobrr.db"
             (Toy.sqlite_world Toy.source "INSERT INTO users VALUES (1);") = (o, w')
      /\ w_calls w' = CBegin Toy.sqlite :: calls.
Proof.
  destruct (@reset_and_seed_need_the_sqlite_driver Toy.engine
              (Toy.blank_world Toy.source "INSERT INTO users VALUES (1);"))
    as (_ & Hwithout & _).
  destruct (Hwithout eq_refl) as (Hreset & Hseed & _).
  destruct (@reset_and_seed_need_the_sqlite_driver Toy.engine
              (Toy.sqlite_world Toy.source "INSERT INTO users VALUES (1);"))
    as (_ & _ & Hwith & _).
  destruct (Hwith eq_refl) as (_ & Hseed').
  split; [apply Hreset|].
  split; [exact (Hseed Toy.seed_path "/config/autobrr.db" _ eq_refl)|].
  exact (Hseed' Toy.seed_path "/config/autobrr.db" _ eq_refl).
Defined.

(** ** A reset that fails, on a run *)

Lemma db_reset_failure_exits_zero_witness :
  exists run w',
    main ["db:reset"; Toy.seed_path; "/config/autobrr.db"] = Some run
    /\ run (Toy.sqlite_world Toy.no_feed_cache "INSERT INTO users VALUES (1);") = (Ret tt, w')
    /\ w_out w' = ["Database reset completed successfully!"]
    /\ w_log w' = ["failed to delete rows from table feed_cache: no such table: feed_cache"]
    /\ exists s,
        Toy.durable w' Toy.sqlite = Some s
        /\ Toy.count s "irc_channel" = 3
        /\ Toy.count s "users" = 1.
Proof.
  destruct (@db_reset_failure_exits_zero Toy.engine Toy.seed_path "/config/autobrr.db"
              "INSERT INTO users VALUES (1);"
              "failed to delete rows from table feed_cache: no such table: feed_cache"
              (Toy.sqlite_world Toy.no_feed_cache "INSERT INTO users VALUES (1);")
              (Toy.db Toy.no_feed_cache)
              eq_refl eq_refl eq_refl eq_refl eq_refl eq_refl)
    as (run & w' & Hmain & Hrun & _ & Hout & Hlog & Hdb).
  exists run, w'. split; [exact Hmain|]. split; [exact Hrun|].
  split; [exact Hout|]. split; [exact Hlog|].
  eexists. unfold Toy.durable, Toy.sqlite. rewrite Hdb. split; [reflexivity|].
  split; vm_compute; reflexivity.
Defined.

(** ** The arguments of db:seed, on a run *)

(** The usage text gives the database first and the seed script second. *)
Lemma usage_db_seed :
  Strings.Contains usage "db:seed             <path-to-database> <seed-path>" = true
  /\ Strings.Contains usage "autobrrctl db:seed /path/to/sqlite.db /path/to/seed" = true.
Proof.
  split; vm_compute; reflexivity.
Qed.

Lemma db_seed_argument_order_witness :
  (exists run,
      main ["db:seed"; "/config/autobrr.db"; Toy.seed_path] = Some run
      /\ run (Toy.sqlite_world Toy.empty "INSERT INTO users VALUES (1)")
         = (Exit 1,
            add_log "failed to read SQL file: open /config/autobrr.db: no such file or directory"
                    (Toy.sqlite_world Toy.empty "INSERT INTO users VALUES (1)")))
  /\ (exists run w',
         main ["db:seed"; Toy.seed_path; "/config/autobrr.db"] = Some run
         /\ run (Toy.sqlite_world Toy.empty "INSERT INTO users VALUES (1)") = (Ret tt, w')).
Proof.
  split.
  - destruct (@db_seed_argument_order Toy.engine "/config/autobrr.db" Toy.seed_path
                (Toy.sqlite_world Toy.empty "INSERT INTO users VALUES (1)") eq_refl eq_refl)
      as (Hmain & Hmissing & _).
    eexists. split; [exact Hmain|]. exact (Hmissing eq_refl _ Hmain).
  - destruct (@db_seed_argument_order Toy.engine Toy.seed_path "/config/autobrr.db"
                (Toy.sqlite_world Toy.empty "INSERT INTO users VALUES (1)") eq_refl eq_refl)
      as (Hmain & _ & Hfound).
    destruct (Hfound "INSERT INTO users VALUES (1)" (Toy.db Toy.empty)
                eq_refl eq_refl eq_refl _ Hmain) as (w' & Hrun & _).
    eexists. exists w'. split; [exact Hmain | exact Hrun].
Defined.

(** ** The catalogs, on a run *)

Example migrate_queries_every_table :
  queried Toy.sqliteDB
          (w_calls (snd (migrate "/config/autobrr.db" "postgresql://localhost/autobrr"
                                 Toy.migrate_world)))
  = map (fun table => "SELECT * FROM " +++ table) migrate_tables.
Proof.
  vm_compute. reflexivity.
Qed.

Example reset_executes_every_statement :
  executed Toy.sqlite
           (w_calls (snd (resetDB "/config/autobrr.db" (Toy.sqlite_world Toy.source ""))))
  = reset_statements reset_tables
  /\ Toy.durable (snd (resetDB "/config/autobrr.db" (Toy.sqlite_world Toy.source "")))
                 Toy.sqlite
     = Some Toy.empty.
Proof.
  split; vm_compute; reflexivity.
Qed.

(** * More properties of the three operations *)

Section Extras.

Context {E : Engine}.

(** ** Effects of a run, whatever its outcome *)

Lemma post_ret {A} (R : @World E -> @World E -> Prop) (Q : Z -> Prop) (a : A) :
  (forall w, R w w) -> post R Q (ret a).
Proof.
  intros Hrefl w o w' H. injection H as <- <-. split; [apply Hrefl | discriminate].
Qed.

Lemma post_bind {A B} (R : @World E -> @World E -> Prop) (Q : Z -> Prop)
    (m : @M E A) (k : A -> @M E B) :
  (forall w1 w2 w3, R w1 w2 -> R w2 w3 -> R w1 w3) ->
  post R Q m -> (forall a, post R Q (k a)) -> post R Q (bind m k).
Proof.
  intros Htrans Hm Hk w o w' H. unfold bind in H.
  destruct (m w) as [[a|code] w1] eqn:Hmw; destruct (Hm _ _ _ Hmw) as [HR HQ].
  - destruct (Hk a _ _ _ H) as [HR' HQ']. split; [exact (Htrans _ _ _ HR HR') | exact HQ'].
  - injection H as <- <-. split; [exact HR|].
    intros code' Hc. injection Hc as <-. now apply HQ.
Qed.

Lemma post_for_each {A} (R : @World E -> @World E -> Prop) (Q : Z -> Prop)
    (xs : list A) (body : A -> @M E unit) :
  (forall w, R w w) ->
  (forall w1 w2 w3, R w1 w2 -> R w2 w3 -> R w1 w3) ->
  (forall x, post R Q (body x)) -> post R Q (for_each xs body).
Proof.
  intros Hrefl Htrans Hbody. induction xs as [|x xs IH]; cbn [for_each].
  - now apply post_ret.
  - apply post_bind; [exact Htrans | apply Hbody | intros _; exact IH].
Qed.

Lemma post_for_each_return {A} (R : @World E -> @World E -> Prop) (Q : Z -> Prop)
    (xs : list A) (body : A -> @M E Flow) :
  (forall w, R w w) ->
  (forall w1 w2 w3, R w1 w2 -> R w2 w3 -> R w1 w3) ->
  (forall x, post R Q (body x)) -> post R Q (for_each_return xs body).
Proof.
  intros Hrefl Htrans Hbody. induction xs as [|x xs IH]; cbn [for_each_return].
  - now apply post_ret.
  - apply post_bind; [exact Htrans | apply Hbody |].
    intros [|]; [exact IH | now apply post_ret].
Qed.

Lemma open_tx_inv (c : Conn) (w : @World E) (d : @DB E) (s : Store E) :
  open_tx c w = Some (d, s) -> w_dbs w c = Some d /\ db_tx d = Some s.
Proof.
  unfold open_tx. destruct (w_dbs w c) as [d'|]; [|discriminate].
  destruct (db_tx d') as [s'|] eqn:Htx; [|discriminate].
  intros H. injection H as <- <-. now split.
Qed.

Section Effects.

Variables sqliteDB postgresDB : Conn.

Local Abbreviation effects := (@migrate_effects E sqliteDB postgresDB).
Local Abbreviation quiet := (@copy_effects E sqliteDB postgresDB).
Local Abbreviation fatal := (fun code : Z => code = 1%Z).

Lemma migrate_effects_refl (w : @World E) : effects w w.
Proof.
  repeat split. exists []. now rewrite app_nil_r.
Qed.

Lemma migrate_effects_trans (w1 w2 w3 : @World E) :
  effects w1 w2 -> effects w2 w3 -> effects w1 w3.
Proof.
  intros (Hd1 & Hf1 & He1 & Hdb1 & c1 & Hc1 & Hm1) (Hd2 & Hf2 & He2 & Hdb2 & c2 & Hc2 & Hm2).
  repeat split; try congruence.
  - intros c Hc. now rewrite Hdb2, Hdb1.
  - exists (c1 ++ c2). rewrite Hc2, Hc1, <- app_assoc, forallb_app, Hm1, Hm2. now split.
Qed.

Lemma copy_effects_refl (w : @World E) : quiet w w.
Proof.
  split; [apply migrate_effects_refl | reflexivity].
Qed.

Lemma copy_effects_trans (w1 w2 w3 : @World E) :
  quiet w1 w2 -> quiet w2 w3 -> quiet w1 w3.
Proof.
  intros [H1 Hd1] [H2 Hd2]. split; [exact (migrate_effects_trans _ _ _ H1 H2) | congruence].
Qed.

(** A step that only adds calls of [migrate] and writes the destination. *)
Lemma effects_step (w : @World E) (calls : list Call) (w' : @World E) :
  w_drivers w' = w_drivers w ->
  w_files w' = w_files w ->
  w_err w' = w_err w ->
  (forall c, conn_eqb postgresDB c = false -> w_dbs w' c = w_dbs w c) ->
  w_calls w' = w_calls w ++ calls ->
  forallb (migrate_call sqliteDB postgresDB) calls = true ->
  effects w w'.
Proof.
  intros. repeat split; try assumption. now exists calls.
Qed.

Lemma durable_set_db (w : @World E) (d : @DB E) (tx : option (Store E)) (w0 : @World E) :
  w_dbs w postgresDB = Some d ->
  durable (set_db postgresDB (mkDB (db_committed d) tx) w0) postgresDB = durable w postgresDB.
Proof.
  intros H. unfold durable. rewrite w_dbs_set_db, H. reflexivity.
Qed.

Lemma post_log_Printf (line : string) : post quiet fatal (log_Printf line).
Proof.
  intros w o w' H. injection H as <- <-. split; [|discriminate].
  split; [|reflexivity].
  apply (effects_step _ []); try reflexivity. cbn. now rewrite app_nil_r.
Qed.

Lemma post_log_Fatalf {A} (line : string) : post quiet fatal (@log_Fatalf E A line).
Proof.
  intros w o w' H. injection H as <- <-. split; [|intros code Hc; now injection Hc as <-].
  split; [|reflexivity].
  apply (effects_step _ []); try reflexivity. cbn. now rewrite app_nil_r.
Qed.

Lemma post_fmt_Println (line : string) : post quiet fatal (fmt_Println line).
Proof.
  intros w o w' H. injection H as <- <-. split; [|discriminate].
  split; [|reflexivity].
  apply (effects_step _ []); try reflexivity. cbn. now rewrite app_nil_r.
Qed.

Lemma post_db_Query (query : string) : post quiet fatal (db_Query sqliteDB query).
Proof.
  intros w o w' H. unfold db_Query in H. cbn [w_dbs add_call] in H.
  assert (Hq : quiet w (add_call (CQuery sqliteDB query) w)).
  { split; [|reflexivity].
    apply (effects_step _ [CQuery sqliteDB query]); try reflexivity.
    cbn. now rewrite conn_eqb_refl. }
  destruct (w_dbs w sqliteDB); injection H as <- <-; (split; [exact Hq | discriminate]).
Qed.

Lemma post_db_Begin : post quiet fatal (db_Begin postgresDB).
Proof.
  intros w o w' H. unfold db_Begin in H. cbn [w_dbs add_call] in H.
  destruct (w_dbs w postgresDB) as [d|] eqn:Hdb; injection H as <- <-;
    (split; [|discriminate]).
  - split.
    + apply (effects_step _ [CBegin postgresDB]); try reflexivity.
      * intros c Hc. cbn. now rewrite Hc.
      * cbn. now rewrite conn_eqb_refl.
    + exact (durable_set_db w d _ _ Hdb).
  - split; [|reflexivity].
    apply (effects_step _ [CBegin postgresDB]); try reflexivity.
    cbn. now rewrite conn_eqb_refl.
Qed.

Lemma post_tx_Prepare (query : string) : post quiet fatal (tx_Prepare postgresDB query).
Proof.
  intros w o w' H. unfold tx_Prepare in H.
  destruct (open_tx postgresDB w) as [[d s]|]; injection H as <- <-;
    (split; [|discriminate]); (split; [|reflexivity]).
  - apply (effects_step _ [CPrepare postgresDB query]); try reflexivity.
    cbn. now rewrite conn_eqb_refl.
  - apply migrate_effects_refl.
Qed.

Lemma post_tx_Exec (query : string) (args : list Value) :
  post quiet fatal (tx_Exec postgresDB query args).
Proof.
  intros w o w' H. unfold tx_Exec in H.
  destruct (open_tx postgresDB w) as [[d s]|] eqn:Htx.
  - destruct (open_tx_inv _ _ _ _ Htx) as [Hdb _].
    destruct (engine_exec E s query args) as [s'|err]; injection H as <- <-;
      (split; [|discriminate]).
    + split.
      * apply (effects_step _ [CExec postgresDB query args]); try reflexivity.
        -- intros c Hc. cbn. now rewrite Hc.
        -- cbn. now rewrite conn_eqb_refl.
      * exact (durable_set_db w d _ _ Hdb).
    + split; [|reflexivity].
      apply (effects_step _ [CExec postgresDB query args]); try reflexivity.
      cbn. now rewrite conn_eqb_refl.
  - injection H as <- <-. split; [apply copy_effects_refl | discriminate].
Qed.

Lemma post_tx_Rollback : post quiet fatal (tx_Rollback postgresDB).
Proof.
  intros w o w' H. unfold tx_Rollback in H.
  destruct (open_tx postgresDB w) as [[d s]|] eqn:Htx; injection H as <- <-;
    (split; [|discriminate]).
  - destruct (open_tx_inv _ _ _ _ Htx) as [Hdb _]. split.
    + apply (effects_step _ [CRollback postgresDB]); try reflexivity.
      * intros c Hc. cbn. now rewrite Hc.
      * cbn. now rewrite conn_eqb_refl.
    + exact (durable_set_db w d _ _ Hdb).
  - apply copy_effects_refl.
Qed.

Lemma post_tx_Commit : post effects fatal (tx_Commit postgresDB).
Proof.
  intros w o w' H. unfold tx_Commit in H.
  destruct (open_tx postgresDB w) as [[d s]|]; injection H as <- <-;
    (split; [|discriminate]).
  - apply (effects_step _ [CCommit postgresDB]); try reflexivity.
    + intros c Hc. cbn. now rewrite Hc.
    + cbn. now rewrite conn_eqb_refl.
  - apply migrate_effects_refl.
Qed.

Lemma post_weaken {A} (m : @M E A) : post quiet fatal m -> post effects fatal m.
Proof.
  intros H w o w' Hrun. destruct (H _ _ _ Hrun) as [[He _] Hq]. now split.
Qed.

(** One row, and the row loop: the destination's durable store stays. *)
Lemma post_copy_row (table colNames colPlaceholders : string) (ncols : nat) (row : Row) :
  post quiet fatal (copy_row postgresDB table ncols colNames colPlaceholders row).
Proof.
  unfold copy_row. destruct (rows_Scan ncols row) as [values|err]; [|apply post_log_Fatalf].
  apply post_bind; [exact copy_effects_trans | apply post_tx_Prepare |].
  intros [err|]; [apply post_log_Fatalf|].
  apply post_bind; [exact copy_effects_trans | apply post_tx_Exec |].
  intros [err|]; [|apply post_ret; exact copy_effects_refl].
  destruct (Strings.Contains err fk_violation); [|apply post_log_Fatalf].
  apply post_bind; [exact copy_effects_trans | apply post_log_Printf | intros _].
  apply post_bind; [exact copy_effects_trans | apply post_log_Printf | intros _].
  apply post_bind; [exact copy_effects_trans | apply post_tx_Rollback | intros _].
  apply post_bind; [exact copy_effects_trans | apply post_db_Begin |].
  intros [err'|]; [apply post_log_Fatalf | apply post_ret; exact copy_effects_refl].
Qed.

Lemma post_copy_rows (table colNames colPlaceholders : string) (ncols : nat)
    (rows : list Row) :
  post quiet fatal (copy_rows postgresDB table ncols colNames colPlaceholders rows).
Proof.
  unfold copy_rows.
  apply post_for_each;
    [exact copy_effects_refl | exact copy_effects_trans | intros row; apply post_copy_row].
Qed.

Lemma post_migrate_table (table : string) :
  post effects fatal (migrate_table sqliteDB postgresDB table).
Proof.
  unfold migrate_table.
  apply post_bind; [exact migrate_effects_trans | apply post_weaken, post_db_Query |].
  intros [[columns rows]|err]; [|apply post_weaken, post_log_Fatalf].
  destruct (build_columns columns) as [colNames colPlaceholders].
  apply post_bind; [exact migrate_effects_trans | apply post_weaken, post_db_Begin |].
  intros [err|]; [apply post_weaken, post_log_Fatalf|].
  apply post_bind; [exact migrate_effects_trans | apply post_weaken, post_copy_rows | intros _].
  apply post_bind; [exact migrate_effects_trans | apply post_tx_Commit |].
  intros [err|]; [apply post_weaken, post_log_Fatalf | apply post_weaken, post_fmt_Println].
Qed.

(** The deferred rollbacks find their transactions finished: they return
    without a call and without a change. *)
Lemma deferred_rollback_done (w : @World E) :
  (forall d, w_dbs w postgresDB = Some d -> db_tx d = None) ->
  deferred_rollback postgresDB w = (Ret tt, w).
Proof.
  intros Hdone. unfold deferred_rollback, bind, tx_Rollback, open_tx.
  destruct (w_dbs w postgresDB) as [d|] eqn:Hdb; [|reflexivity].
  now rewrite (Hdone d eq_refl).
Qed.

Lemma post_deferred_rollback : post quiet fatal (deferred_rollback postgresDB).
Proof.
  unfold deferred_rollback.
  apply post_bind; [exact copy_effects_trans | apply post_tx_Rollback |].
  intros [err|]; [|apply post_ret; exact copy_effects_refl].
  destruct (String.eqb err ErrTxDone);
    [apply post_ret; exact copy_effects_refl | apply post_log_Fatalf].
Qed.

Lemma post_sql_Open (driverName dataSourceName : string) :
  post quiet fatal (sql_Open driverName dataSourceName).
Proof.
  intros w o w' H. unfold sql_Open in H.
  destruct (existsb (String.eqb driverName) (w_drivers w)); injection H as <- <-;
    (split; [apply copy_effects_refl | discriminate]).
Qed.

Lemma post_migrate_tables (tables : list string) :
  post effects fatal (for_each tables (migrate_table sqliteDB postgresDB)).
Proof.
  apply post_for_each;
    [exact migrate_effects_refl | exact migrate_effects_trans | exact post_migrate_table].
Qed.

(** A table whose body exits has left the durable store of the
    destination as it found it. *)
Lemma migrate_table_exit_durable (table : string) (w w' : @World E) (code : Z) :
  migrate_table sqliteDB postgresDB table w = (Exit code, w') ->
  durable w' postgresDB = durable w postgresDB.
Proof.
  intros H. unfold migrate_table in H.
  unfold bind at 1 in H.
  destruct (db_Query sqliteDB ("SELECT * FROM " +++ table) w) as [[r|c0] w0] eqn:Hq;
    destruct (post_db_Query _ _ _ _ Hq) as [[_ Hd0] _].
  - destruct r as [[columns rows]|err].
    + destruct (build_columns columns) as [colNames colPlaceholders].
      unfold bind at 1 in H.
      destruct (db_Begin postgresDB w0) as [[e|c1] w1] eqn:Hb;
        destruct (post_db_Begin _ _ _ Hb) as [[_ Hd1] _].
      * destruct e as [err|].
        -- injection H as <- <-. unfold durable in *; cbn [w_dbs add_log] in *; congruence.
        -- unfold bind at 1 in H.
           destruct (copy_rows postgresDB table (length columns) colNames colPlaceholders
                               rows w1) as [[[]|c2] w2] eqn:Hl;
             destruct (post_copy_rows _ _ _ _ _ _ _ _ Hl) as [[_ Hd2] _].
           ++ unfold bind, tx_Commit in H.
              destruct (open_tx postgresDB w2) as [[d s]|]; [discriminate|].
              injection H as <- <-. unfold durable in *; cbn [w_dbs add_log] in *; congruence.
           ++ injection H as <- <-. congruence.
      * injection H as <- <-. congruence.
    + injection H as <- <-. unfold durable in *; cbn [w_dbs add_log] in *; congruence.
  - injection H as <- <-. congruence.
Qed.

(** A table whose body returns has committed: no transaction is open. *)
Lemma migrate_table_ret_closed (table : string) (w w' : @World E) :
  migrate_table sqliteDB postgresDB table w = (Ret tt, w') ->
  exists s, w_dbs w' postgresDB = Some (mkDB s None).
Proof.
  intros H. unfold migrate_table in H.
  unfold bind at 1 in H.
  destruct (db_Query sqliteDB ("SELECT * FROM " +++ table) w) as [[r|c0] w0]; [|discriminate].
  destruct r as [[columns rows]|err]; [|discriminate].
  destruct (build_columns columns) as [colNames colPlaceholders].
  unfold bind at 1 in H.
  destruct (db_Begin postgresDB w0) as [[e|c1] w1]; [|discriminate].
  destruct e as [err|]; [discriminate|].
  unfold bind at 1 in H.
  destruct (copy_rows postgresDB table (length columns) colNames colPlaceholders rows w1)
    as [[[]|c2] w2]; [|discriminate].
  unfold bind, tx_Commit in H.
  destruct (open_tx postgresDB w2) as [[d s]|]; [|discriminate].
  injection H as <-. exists s. cbn [w_dbs add_out]. apply w_dbs_set_db.
Qed.

Lemma deferred_rollbacks_done {A} (xs : list A) (w : @World E) (s : Store E) :
  w_dbs w postgresDB = Some (mkDB s None) ->
  for_each xs (fun _ => deferred_rollback postgresDB) w = (Ret tt, w).
Proof.
  intros Hdb. induction xs as [|x xs IH]; [reflexivity|].
  cbn [for_each]. rewrite (bind_ret _ _ w w tt); [exact IH|].
  apply deferred_rollback_done. intros d Hd. rewrite Hdb in Hd. now injection Hd as <-.
Qed.

End Effects.

(** A loop that exits has run a first part of its list normally and has
    exited in the body of the next element. *)
Lemma for_each_exit_inv {A} (xs : list A) (body : A -> @M E unit) :
  forall (w w' : @World E) (code : Z),
    for_each xs body w = (Exit code, w') ->
    exists done x rest w1,
      xs = done ++ x :: rest
      /\ for_each done body w = (Ret tt, w1)
      /\ body x w1 = (Exit code, w').
Proof.
  induction xs as [|x xs IH]; intros w w' code H; [discriminate|].
  cbn [for_each] in H. unfold bind in H.
  destruct (body x w) as [[[]|c] w1] eqn:Hx.
  - destruct (IH _ _ _ H) as (done & y & rest & w2 & -> & Hdone & Hy).
    exists (x :: done), y, rest, w2. split; [reflexivity|]. split; [|exact Hy].
    cbn [for_each]. now rewrite (bind_ret _ _ _ _ _ Hx).
  - injection H as <- <-. exists [], x, xs, w. now repeat split.
Qed.

(** ** migrate: what it touches *)

(** A run of [migrate], whatever its outcome. *)
Lemma post_migrate (sqliteDBPath postgresDBURL : string) :
  post (@migrate_effects E ("sqlite3", sqliteDBPath) ("postgres", postgresDBURL))
       (fun code => code = 1%Z) (migrate sqliteDBPath postgresDBURL).
Proof.
  assert (Hrest : forall sqliteDB postgresDB,
             post (@migrate_effects E sqliteDB postgresDB) (fun code => code = 1%Z)
                  (bind (for_each migrate_tables (@migrate_table E sqliteDB postgresDB))
                        (fun _ =>
                           bind (fmt_Println "Migration completed successfully!")
                                (fun _ =>
                                   bind (for_each (rev migrate_tables)
                                                  (fun _ => deferred_rollback postgresDB))
                                        (fun _ => bind (db_Close postgresDB)
                                                       (fun _ => db_Close sqliteDB)))))).
  { intros sqliteDB postgresDB.
    apply post_bind; [apply migrate_effects_trans | apply post_migrate_tables | intros _].
    apply post_bind; [apply migrate_effects_trans | apply post_weaken, post_fmt_Println |].
    intros _.
    apply post_bind; [apply migrate_effects_trans | | intros _].
    - apply post_for_each;
        [apply migrate_effects_refl | apply migrate_effects_trans |].
      intros _. apply post_weaken, post_deferred_rollback.
    - apply post_bind; [apply migrate_effects_trans | | intros _];
        apply post_ret; apply migrate_effects_refl. }
  intros w0 o w' H. unfold migrate in H.
    unfold bind at 1 in H. unfold sql_Open at 1 in H.
    destruct (existsb (String.eqb "sqlite3") (w_drivers w0)).
    - unfold bind at 1 in H. unfold sql_Open at 1 in H.
      destruct (existsb (String.eqb "postgres") (w_drivers w0)).
      + exact (Hrest _ _ _ _ _ H).
      + exact (post_weaken _ _ _ (post_log_Fatalf _ _ _) _ _ _ H).
    - exact (post_weaken _ _ _ (post_log_Fatalf _ _ _) _ _ _ H).
Qed.

(** X1.  Whatever its outcome, a run of [migrate] leaves the source
    database, every database other than the destination, the files and
    the driver registry as they were; the calls it makes are queries on
    the source and transaction calls on the destination; and when it
    exits, the status is 1. *)
Theorem migrate_reads_source_writes_destination (sqliteDBPath postgresDBURL : string)
    (w : @World E) :
  w_dbs (snd (migrate sqliteDBPath postgresDBURL w)) ("sqlite3", sqliteDBPath)
  = w_dbs w ("sqlite3", sqliteDBPath)
  /\ (forall c, conn_eqb ("postgres", postgresDBURL) c = false ->
                w_dbs (snd (migrate sqliteDBPath postgresDBURL w)) c = w_dbs w c)
  /\ w_files (snd (migrate sqliteDBPath postgresDBURL w)) = w_files w
  /\ w_drivers (snd (migrate sqliteDBPath postgresDBURL w)) = w_drivers w
  /\ (exists calls,
         w_calls (snd (migrate sqliteDBPath postgresDBURL w)) = w_calls w ++ calls
         /\ forallb (migrate_call ("sqlite3", sqliteDBPath) ("postgres", postgresDBURL))
                    calls = true)
  /\ (forall code, fst (migrate sqliteDBPath postgresDBURL w) = Exit code -> code = 1%Z).
Proof.
  destruct (migrate sqliteDBPath postgresDBURL w) as [o w'] eqn:Hrun.
  destruct (post_migrate _ _ _ _ _ Hrun) as [(Hd & Hf & _ & Hdbs & Hcalls) Hq].
  cbn [fst snd]. repeat split; try assumption.
  apply Hdbs. reflexivity.
Qed.

Lemma migrate_tables_ret_closed (sqliteDB postgresDB : Conn) (tables : list string) :
  tables <> [] ->
  forall w w' : @World E,
    for_each tables (migrate_table sqliteDB postgresDB) w = (Ret tt, w') ->
    exists s, w_dbs w' postgresDB = Some (mkDB s None).
Proof.
  induction tables as [|table rest IH]; intros Hne w w' H; [congruence|].
  cbn [for_each] in H. unfold bind in H.
  destruct (migrate_table sqliteDB postgresDB table w) as [[[]|c] w1] eqn:Htable;
    [|discriminate].
  destruct rest as [|table2 rest].
  - injection H as <-. exact (migrate_table_ret_closed _ _ _ _ _ Htable).
  - apply (IH ltac:(discriminate) _ _ H).
Qed.

(** What follows the table loop in [migrate] always returns, and but for
    the line on standard output it changes nothing. *)
Lemma migrate_epilogue (sqliteDB postgresDB : Conn) (w : @World E) (s : Store E) :
  w_dbs w postgresDB = Some (mkDB s None) ->
  bind (fmt_Println "Migration completed successfully!")
       (fun _ => bind (for_each (rev migrate_tables) (fun _ => deferred_rollback postgresDB))
                      (fun _ => bind (db_Close postgresDB) (fun _ => db_Close sqliteDB))) w
  = (Ret tt, add_out "Migration completed successfully!" w).
Proof.
  intros Hdb. unfold bind at 1. unfold fmt_Println.
  rewrite (bind_ret _ _ _ _ _
             (deferred_rollbacks_done postgresDB (rev migrate_tables)
                (add_out "Migration completed successfully!" w) s Hdb)).
  reflexivity.
Qed.

(** X2.  When a run of [migrate] exits, the status is 1 and the run has
    gone through a first part of the table list normally: these tables,
    and only these, are reported on standard output, what they committed
    is what is durable in the destination, the table in which the run
    ended has committed nothing, and the final message is not printed. *)
Theorem migrate_exit_keeps_completed_tables (sqliteDBPath postgresDBURL : string)
    (w w' : @World E) (code : Z) :
  migrate sqliteDBPath postgresDBURL w = (Exit code, w') ->
  code = 1%Z
  /\ exists done rest w1,
      migrate_tables = done ++ rest
      /\ rest <> []
      /\ for_each done (migrate_table ("sqlite3", sqliteDBPath) ("postgres", postgresDBURL)) w
         = (Ret tt, w1)
      /\ durable w' ("postgres", postgresDBURL) = durable w1 ("postgres", postgresDBURL)
      /\ w_out w' = w_out w
                    ++ map (fun table => "Migrated table '" +++ table
                                           +++ "' from SQLite to PostgreSQL") done.
Proof.
  intros H.
  split.
  { destruct (post_migrate _ _ _ _ _ H) as [_ Hq]. now apply Hq. }
  unfold migrate in H.
  unfold bind at 1 in H. unfold sql_Open at 1 in H.
  destruct (existsb (String.eqb "sqlite3") (w_drivers w)).
  - unfold bind at 1 in H. unfold sql_Open at 1 in H.
    destruct (existsb (String.eqb "postgres") (w_drivers w)).
    + unfold bind at 1 in H.
      destruct (for_each migrate_tables _ w) as [[[]|c] w1] eqn:Hloop.
      * assert (Hne : migrate_tables <> []) by (unfold migrate_tables; discriminate).
        destruct (migrate_tables_ret_closed _ _ _ Hne _ _ Hloop) as [s Hdb].
        rewrite (migrate_epilogue _ _ _ s Hdb) in H. discriminate.
      * injection H as <- <-.
        destruct (for_each_exit_inv _ _ _ _ _ Hloop) as (done & x & rest & w1' & Heq & Hdone & Hx).
        exists done, (x :: rest), w1'. split; [exact Heq|]. split; [discriminate|].
        split; [exact Hdone|]. split.
        -- exact (migrate_table_exit_durable _ _ _ _ _ _ Hx).
        -- destruct (migrate_table_frame _ _ _ _ _ _ Hx) as [_ Hout].
           destruct (migrate_tables_frame _ _ _ _ _ _ Hdone) as (n & _ & Hret).
           destruct (Hret tt eq_refl) as [_ Hout1].
           rewrite Hout, Hout1, app_nil_r. reflexivity.
    + injection H as <- <-. exists [], migrate_tables, w.
      split; [reflexivity|]. split; [unfold migrate_tables; discriminate|].
      cbn [map]. rewrite app_nil_r. now repeat split.
  - injection H as <- <-. exists [], migrate_tables, w.
    split; [reflexivity|]. split; [unfold migrate_tables; discriminate|].
    cbn [map]. rewrite app_nil_r. now repeat split.
Qed.

(** ** migrate: a run that returns *)

Lemma rowsSkipped_app (log1 log2 : list string) :
  rowsSkipped (log1 ++ log2) = rowsSkipped log1 + rowsSkipped log2.
Proof.
  unfold rowsSkipped. now rewrite filter_app, length_app.
Qed.

(** The row loop when no row is refused for another reason than a
    foreign key: the view that [copy_store] computes, and two lines of log
    for every row that [skipped] counts. *)
Lemma copy_rows_skipped (postgresDB : Conn) (table colNames colPlaceholders : string)
    (ncols : nat) (rows : list Row) :
  forall (w : @World E) (s0 cur cur' : Store E),
    w_dbs w postgresDB = Some (mkDB s0 (Some cur)) ->
    rows_wf ncols rows = true ->
    copy_store s0 cur (insert_text table colNames colPlaceholders) rows = Some cur' ->
    exists w',
      copy_rows postgresDB table ncols colNames colPlaceholders rows w = (Ret tt, w')
      /\ w_dbs w' postgresDB = Some (mkDB s0 (Some cur'))
      /\ w_out w' = w_out w
      /\ length (w_log w')
         = length (w_log w)
           + 2 * skipped s0 cur (insert_text table colNames colPlaceholders) rows
      /\ rowsSkipped (w_log w')
         = rowsSkipped (w_log w)
           + skipped s0 cur (insert_text table colNames colPlaceholders) rows.
Proof.
  induction rows as [|row rows IH]; intros w s0 cur cur' Hdb Hwf Hall.
  - simpl in Hall. injection Hall as <-.
    exists w. cbn [skipped]. rewrite !Nat.add_0_r. now repeat split.
  - apply rows_wf_cons in Hwf. destruct Hwf as [Hlen Hwf].
    cbn [copy_store skipped] in *.
    destruct (engine_prepare E cur (insert_text table colNames colPlaceholders)) eqn:Hprep;
      [discriminate|].
    destruct (engine_exec E cur (insert_text table colNames colPlaceholders) row)
      as [cur1|err] eqn:Hexec.
    + pose proof (copy_row_ok postgresDB table colNames colPlaceholders ncols w row s0 cur cur1
                    Hdb Hlen Hprep Hexec) as Hrow.
      match type of Hrow with
      | _ = (_, ?w1) =>
          destruct (IH w1 s0 cur1 cur' (w_dbs_set_db postgresDB _ _) Hwf Hall)
            as (w' & Hrun & Hdb' & Hout & Hlog & Hskip)
      end.
      exists w'. split; [|repeat split; assumption].
      now rewrite (copy_rows_cons _ _ _ _ _ _ _ _ _ Hrow).
    + destruct (Strings.Contains err fk_violation) eqn:Hfk; [|discriminate].
      pose proof (copy_row_fk postgresDB table colNames colPlaceholders ncols w row s0 cur err
                    Hdb Hlen Hprep Hexec Hfk) as Hrow.
      match type of Hrow with
      | _ = (_, ?w1) =>
          destruct (IH w1 s0 s0 cur' (w_dbs_set_db postgresDB _ _) Hwf Hall)
            as (w' & Hrun & Hdb' & Hout & Hlog & Hskip)
      end.
      cbn [w_log w_out set_db add_call add_log] in Hout, Hlog, Hskip.
      exists w'. split; [now rewrite (copy_rows_cons _ _ _ _ _ _ _ _ _ Hrow)|].
      split; [exact Hdb'|]. split; [exact Hout|]. split.
      * rewrite Hlog, !length_app. cbn [length]. lia.
      * rewrite Hskip, <- app_assoc. cbn [app].
        rewrite rowsSkipped_skip. lia.
Qed.

(** One table under the same condition. *)
Lemma migrate_table_policy (sqliteDB postgresDB : Conn) (table : string)
    (columns : list string) (rows : list Row) (w : @World E) (dsrc ddst : @DB E)
    (s' : Store E) :
  w_dbs w sqliteDB = Some dsrc ->
  engine_query E (db_committed dsrc) ("SELECT * FROM " +++ table) = inl (columns, rows) ->
  w_dbs w postgresDB = Some ddst ->
  rows_wf (length columns) rows = true ->
  copy_store (db_committed ddst) (db_committed ddst) (build_insert table columns) rows
    = Some s' ->
  exists w',
    migrate_table sqliteDB postgresDB table w = (Ret tt, w')
    /\ w_dbs w' postgresDB = Some (mkDB s' None)
    /\ w_out w' = w_out w ++ ["Migrated table '" +++ table +++ "' from SQLite to PostgreSQL"]
    /\ length (w_log w')
       = length (w_log w)
         + 2 * skipped (db_committed ddst) (db_committed ddst)
                       (build_insert table columns) rows
    /\ rowsSkipped (w_log w')
       = rowsSkipped (w_log w)
         + skipped (db_committed ddst) (db_committed ddst) (build_insert table columns) rows.
Proof.
  intros Hsrc Hquery Hdst Hwf Hall.
  rewrite build_insert_text in *.
  destruct (copy_rows_skipped postgresDB table _ _ (length columns) rows
              (set_db postgresDB (mkDB (db_committed ddst) (Some (db_committed ddst)))
                 (add_call (CBegin postgresDB)
                    (add_call (CQuery sqliteDB ("SELECT * FROM " +++ table)) w)))
              (db_committed ddst) (db_committed ddst) s'
              (w_dbs_set_db postgresDB _ _) Hwf Hall)
    as (w1 & Hrun & Hdb1 & Hout1 & Hlog1 & Hskip1).
  eexists. split; [|split; [|split; [|split]]].
  - exact (migrate_table_copied _ _ _ _ _ _ _ _ _ _ Hsrc Hquery Hdst Hrun Hdb1).
  - apply w_dbs_set_db.
  - cbn [w_out add_out set_db add_call]. now rewrite Hout1.
  - cbn [w_log add_out set_db add_call]. exact Hlog1.
  - cbn [w_log add_out set_db add_call]. exact Hskip1.
Qed.

(** X3.  One table of [migrate] whose rows are accepted or refused for a
    foreign key: the table is committed with the rows that [copy_store]
    keeps, and the log has grown by exactly two lines for each refused
    row, one of them a 'Skipping row' line; accepted rows are not logged. *)
Theorem migrate_table_logs_two_lines_per_skipped_row (sqliteDB postgresDB : Conn)
    (table : string) (columns : list string) (rows : list Row) (w : @World E)
    (dsrc ddst : @DB E) (s' : Store E) :
  w_dbs w sqliteDB = Some dsrc ->
  engine_query E (db_committed dsrc) ("SELECT * FROM " +++ table) = inl (columns, rows) ->
  w_dbs w postgresDB = Some ddst ->
  rows_wf (length columns) rows = true ->
  copy_store (db_committed ddst) (db_committed ddst) (build_insert table columns) rows
    = Some s' ->
  exists w',
    migrate_table sqliteDB postgresDB table w = (Ret tt, w')
    /\ w_dbs w' postgresDB = Some (mkDB s' None)
    /\ length (w_log w')
       = length (w_log w)
         + 2 * skipped (db_committed ddst) (db_committed ddst)
                       (build_insert table columns) rows
    /\ rowsSkipped (w_log w')
       = rowsSkipped (w_log w)
         + skipped (db_committed ddst) (db_committed ddst) (build_insert table columns) rows
    /\ skipped (db_committed ddst) (db_committed ddst) (build_insert table columns) rows
       <= length rows.
Proof.
  intros Hsrc Hquery Hdst Hwf Hall.
  destruct (migrate_table_policy _ _ _ _ _ _ _ _ _ Hsrc Hquery Hdst Hwf Hall)
    as (w' & Hrun & Hdb & _ & Hlog & Hskip).
  exists w'. repeat split; try assumption.
  clear. generalize (db_committed ddst) at 2 as cur.
  induction rows as [|row rest IH]; intros cur; cbn [skipped length]; [lia|].
  destruct (engine_prepare E cur (build_insert table columns)); [lia|].
  destruct (engine_exec E cur (build_insert table columns) row) as [cur1|err].
  - specialize (IH cur1). lia.
  - destruct (Strings.Contains err fk_violation); [|lia].
    specialize (IH (db_committed ddst)). lia.
Qed.

(** The table loop when [migrate_store] gives a store. *)
Lemma migrate_tables_run (sqliteDB postgresDB : Conn) (dsrc : @DB E) (tables : list string) :
  conn_eqb postgresDB sqliteDB = false ->
  forall (w : @World E) (ddst : @DB E) (s' : Store E),
    w_dbs w sqliteDB = Some dsrc ->
    w_dbs w postgresDB = Some ddst ->
    migrate_store (db_committed dsrc) (db_committed ddst) tables = Some s' ->
    exists w' d',
      for_each tables (migrate_table sqliteDB postgresDB) w = (Ret tt, w')
      /\ w_dbs w' postgresDB = Some d'
      /\ db_committed d' = s'
      /\ (tables <> [] -> db_tx d' = None)
      /\ w_dbs w' sqliteDB = Some dsrc
      /\ w_out w' = w_out w
                    ++ map (fun table => "Migrated table '" +++ table
                                           +++ "' from SQLite to PostgreSQL") tables.
Proof.
  intros Hneq. induction tables as [|table rest IH]; intros w ddst s' Hsrc Hdst Hall.
  - cbn [migrate_store] in Hall. injection Hall as <-.
    exists w, ddst. cbn [map]. rewrite app_nil_r. repeat split; try assumption. congruence.
  - cbn [migrate_store] in Hall.
    destruct (engine_query E (db_committed dsrc) ("SELECT * FROM " +++ table))
      as [[columns rows]|err] eqn:Hquery; [|discriminate].
    destruct (rows_wf (length columns) rows) eqn:Hwf; [|discriminate].
    destruct (copy_store (db_committed ddst) (db_committed ddst)
                         (build_insert table columns) rows) as [s1|] eqn:Hcopy;
      [|discriminate].
    destruct (migrate_table_policy _ _ _ _ _ _ _ _ _ Hsrc Hquery Hdst Hwf Hcopy)
      as (w1 & Hrun1 & Hdb1 & Hout1 & _).
    destruct (post_migrate_table sqliteDB postgresDB table _ _ _ Hrun1)
      as [(_ & _ & _ & Hother & _) _].
    assert (Hsrc1 : w_dbs w1 sqliteDB = Some dsrc) by (rewrite (Hother _ Hneq); exact Hsrc).
    destruct (IH w1 (mkDB s1 None) s' Hsrc1 Hdb1 Hall)
      as (w' & d' & Hrun & Hdb' & Hcom & Htx & Hsrc' & Hout).
    exists w', d'. split; [|split; [exact Hdb'|split; [exact Hcom|split; [|split]]]].
    + cbn [for_each]. now rewrite (bind_ret _ _ _ _ _ Hrun1).
    + intros _. destruct rest as [|table2 rest]; [|apply Htx; discriminate].
      injection Hrun as <-. rewrite Hdb1 in Hdb'. now injection Hdb' as <-.
    + exact Hsrc'.
    + rewrite Hout, Hout1, <- app_assoc. reflexivity.
Qed.

(** X4.  A run of [migrate] in which every table can be queried and no
    row is refused for another reason than a foreign key returns; what is
    durable in the destination is the store that copying the tables one
    after the other gives ([migrate_store]), no transaction is left open,
    the source is as before, and standard output has one line for each
    table, in the order of the list, and the final message. *)
Theorem migrate_returns (sqliteDBPath postgresDBURL : string) (w : @World E)
    (dsrc ddst : @DB E) (s' : Store E) :
  existsb (String.eqb "sqlite3") (w_drivers w) = true ->
  existsb (String.eqb "postgres") (w_drivers w) = true ->
  w_dbs w ("sqlite3", sqliteDBPath) = Some dsrc ->
  w_dbs w ("postgres", postgresDBURL) = Some ddst ->
  migrate_store (db_committed dsrc) (db_committed ddst) migrate_tables = Some s' ->
  exists w',
    migrate sqliteDBPath postgresDBURL w = (Ret tt, w')
    /\ w_dbs w' ("postgres", postgresDBURL) = Some (mkDB s' None)
    /\ w_dbs w' ("sqlite3", sqliteDBPath) = Some dsrc
    /\ w_out w' = w_out w
                  ++ map (fun table => "Migrated table '" +++ table
                                         +++ "' from SQLite to PostgreSQL") migrate_tables
                  ++ ["Migration completed successfully!"].
Proof.
  intros Hsqlite Hpostgres Hsrc Hdst Hall.
  destruct (migrate_tables_run ("sqlite3", sqliteDBPath) ("postgres", postgresDBURL) dsrc
              migrate_tables eq_refl w ddst s' Hsrc Hdst Hall)
    as (w1 & d' & Hrun & Hdb & Hcom & Htx & Hsrc' & Hout).
  assert (Hd' : d' = mkDB s' None).
  { destruct d' as [c t]. cbn in Hcom, Htx. subst c.
    rewrite Htx by (unfold migrate_tables; discriminate). reflexivity. }
  subst d'.
  exists (add_out "Migration completed successfully!" w1).
  split; [|split; [exact Hdb | split; [exact Hsrc'|]]].
  - unfold migrate.
    unfold bind at 1. unfold sql_Open at 1. rewrite Hsqlite.
    unfold bind at 1. unfold sql_Open at 1. rewrite Hpostgres.
    rewrite (bind_ret _ _ _ _ _ Hrun).
    exact (migrate_epilogue _ _ _ s' Hdb).
  - cbn [w_out add_out]. rewrite Hout, <- app_assoc. reflexivity.
Qed.

(** ** migrate: the calls for the rows of a table *)

Lemma copy_rows_ok_calls (postgresDB : Conn) (table colNames colPlaceholders : string)
    (ncols : nat) (rows : list Row) :
  forall (w : @World E) (s0 cur cur' : Store E),
    w_dbs w postgresDB = Some (mkDB s0 (Some cur)) ->
    rows_wf ncols rows = true ->
    insert_all cur (insert_text table colNames colPlaceholders) rows = Some cur' ->
    exists w',
      copy_rows postgresDB table ncols colNames colPlaceholders rows w = (Ret tt, w')
      /\ w_dbs w' postgresDB = Some (mkDB s0 (Some cur'))
      /\ w_log w' = w_log w
      /\ w_calls w' = w_calls w
                      ++ flat_map (row_calls postgresDB
                                             (insert_text table colNames colPlaceholders)) rows.
Proof.
  induction rows as [|row rows IH]; intros w s0 cur cur' Hdb Hwf Hall.
  - simpl in Hall. injection Hall as <-.
    exists w. cbn. rewrite app_nil_r. now repeat split.
  - apply rows_wf_cons in Hwf. destruct Hwf as [Hlen Hwf].
    cbn [insert_all] in Hall.
    destruct (engine_prepare E cur (insert_text table colNames colPlaceholders)) eqn:Hprep;
      [discriminate|].
    destruct (engine_exec E cur (insert_text table colNames colPlaceholders) row)
      as [cur1|err] eqn:Hexec; [|discriminate].
    pose proof (copy_row_ok postgresDB table colNames colPlaceholders ncols w row s0 cur cur1
                  Hdb Hlen Hprep Hexec) as Hrow.
    match type of Hrow with
    | _ = (_, ?w1) =>
        destruct (IH w1 s0 cur1 cur' (w_dbs_set_db postgresDB _ _) Hwf Hall)
          as (w' & Hrun & Hdb' & Hlog & Hcalls)
    end.
    exists w'. split; [now rewrite (copy_rows_cons _ _ _ _ _ _ _ _ _ Hrow)|].
    split; [exact Hdb'|]. split; [exact Hlog|].
    rewrite Hcalls. cbn [w_calls set_db add_call flat_map row_calls app].
    now rewrite <- !app_assoc.
Qed.

(** X5.  One table of [migrate] whose rows are all accepted: after the
    query on the source, the destination gets one Begin, then for every
    row, in the order of the source, a Prepare of the INSERT text of the
    table followed by an Exec with the cells of the row, then one Commit;
    nothing is logged and the rows are durable. *)
Theorem migrate_table_calls (sqliteDB postgresDB : Conn) (table : string)
    (columns : list string) (rows : list Row) (w : @World E) (dsrc ddst : @DB E)
    (s' : Store E) :
  w_dbs w sqliteDB = Some dsrc ->
  engine_query E (db_committed dsrc) ("SELECT * FROM " +++ table) = inl (columns, rows) ->
  w_dbs w postgresDB = Some ddst ->
  rows_wf (length columns) rows = true ->
  insert_all (db_committed ddst) (build_insert table columns) rows = Some s' ->
  exists w',
    migrate_table sqliteDB postgresDB table w = (Ret tt, w')
    /\ w_calls w' = w_calls w
                    ++ [CQuery sqliteDB ("SELECT * FROM " +++ table); CBegin postgresDB]
                    ++ flat_map (row_calls postgresDB (build_insert table columns)) rows
                    ++ [CCommit postgresDB]
    /\ w_log w' = w_log w
    /\ w_dbs w' postgresDB = Some (mkDB s' None).
Proof.
  intros Hsrc Hquery Hdst Hwf Hall.
  rewrite build_insert_text in *.
  destruct (copy_rows_ok_calls postgresDB table _ _ (length columns) rows
              (set_db postgresDB (mkDB (db_committed ddst) (Some (db_committed ddst)))
                 (add_call (CBegin postgresDB)
                    (add_call (CQuery sqliteDB ("SELECT * FROM " +++ table)) w)))
              (db_committed ddst) (db_committed ddst) s'
              (w_dbs_set_db postgresDB _ _) Hwf Hall)
    as (w1 & Hrun & Hdb1 & Hlog1 & Hcalls1).
  eexists. split; [|split; [|split]].
  - exact (migrate_table_copied _ _ _ _ _ _ _ _ _ _ Hsrc Hquery Hdst Hrun Hdb1).
  - cbn [w_calls add_out set_db add_call]. rewrite Hcalls1.
    cbn [w_calls add_out set_db add_call]. rewrite <- !app_assoc. reflexivity.
  - cbn [w_log add_out set_db add_call]. exact Hlog1.
  - apply w_dbs_set_db.
Qed.

(** ** db:seed and db:reset as [main] runs them *)

Lemma main_db_seed (first second : string) :
  String.eqb first "" = false ->
  String.eqb second "" = false ->
  @main E ["db:seed"; first; second]
  = Some (bind (seedDB first second)
               (fun _ => fmt_Println "Database seeding completed successfully!")).
Proof.
  intros Hfirst Hsecond.
  unfold main, flag_Arg. cbn [nth String.eqb Ascii.eqb Bool.eqb]. now rewrite Hfirst, Hsecond.
Qed.

Lemma main_db_reset (first second : string) :
  String.eqb first "" = false ->
  String.eqb second "" = false ->
  @main E ["db:reset"; first; second]
  = Some (bind (resetDB second)
               (fun _ => bind (seedDB first second)
                              (fun _ => fmt_Println "Database reset completed successfully!"))).
Proof.
  intros Hfirst Hsecond.
  unfold main, flag_Arg. cbn [nth String.eqb Ascii.eqb Bool.eqb]. now rewrite Hfirst, Hsecond.
Qed.

(** X8.  db:reset reads the seed script only after the reset: with a
    script that cannot be read, the database has been emptied, and the
    emptying committed, when the process exits with status 1. *)
Theorem db_reset_unreadable_seed (first second : string)
    (w : @World E) (d : @DB E) (s1 : Store E) :
  String.eqb first "" = false ->
  String.eqb second "" = false ->
  w_files w first = None ->
  existsb (String.eqb "sqlite") (w_drivers w) = true ->
  w_dbs w ("sqlite", second) = Some d ->
  reset_store (db_committed d) reset_tables = inl s1 ->
  exists run w',
    main ["db:reset"; first; second] = Some run
    /\ run w = (Exit 1, w')
    /\ w_dbs w' ("sqlite", second) = Some (mkDB s1 None)
    /\ w_log w' = w_log w ++ ["failed to read SQL file: open " +++ first
                                +++ ": no such file or directory"]
    /\ w_out w' = w_out w.
Proof.
  intros Hfirst Hsecond Hfile Hdriver Hdb Hreset.
  destruct (resetDB_run second w d Hdriver Hdb)
    as (w1 & Hrun1 & Hdb1 & Hlog1 & _ & Hout1 & Hfiles1 & _).
  rewrite Hreset in Hdb1, Hlog1. rewrite app_nil_r in Hlog1.
  rewrite <- Hfiles1 in Hfile.
  eexists. eexists. split; [exact (main_db_reset first second Hfirst Hsecond)|].
  split.
  - rewrite (bind_ret _ _ _ _ _ Hrun1). apply bind_exit.
    unfold seedDB, bind, ioutil_ReadFile. rewrite Hfile. reflexivity.
  - cbn [w_dbs w_log w_out add_log]. rewrite Hlog1, Hout1. now repeat split.
Qed.

(** ** resetDB on a database without sqlite_sequence *)

Lemma reset_store_without_sequence (no_sequence : Store E -> Prop) (tables : list string) :
  (forall s table s',
      no_sequence s -> engine_exec E s (delete_text table) [] = inl s' -> no_sequence s') ->
  (forall s table,
      no_sequence s ->
      exists err,
        engine_exec E s (sequence_text table) [] = inr err
        /\ Strings.Contains err "no such table" = true) ->
  forall s s' : Store E,
    no_sequence s -> delete_all s tables = Some s' -> reset_store s tables = inl s'.
Proof.
  intros Hkeep Hseq. induction tables as [|table rest IH]; intros s s' Hs H.
  - cbn in *. now injection H as <-.
  - cbn [delete_all reset_store] in *. unfold reset_store_table.
    destruct (engine_exec E s (delete_text table) []) as [s1|err] eqn:Hdel; [|discriminate].
    pose proof (Hkeep _ _ _ Hs Hdel) as Hs1.
    destruct (Hseq s1 table Hs1) as (err & Herr & Hno). rewrite Herr, Hno.
    now apply IH.
Qed.

(** X9.  A database without sqlite_sequence: as long as a store has the
    property [no_sequence], which deleting the rows of a table keeps,
    every sequence statement is refused with an error that holds "no such
    table".  When the rows of every table of the list can be deleted,
    [resetDB] executes the delete and the sequence statement of every
    table, logs nothing, and commits the store with all tables emptied. *)
Theorem resetDB_without_sequence (no_sequence : Store E -> Prop) (dbPath : string)
    (w : @World E) (d : @DB E) (s' : Store E) :
  existsb (String.eqb "sqlite") (w_drivers w) = true ->
  w_dbs w ("sqlite", dbPath) = Some d ->
  no_sequence (db_committed d) ->
  (forall s table s',
      no_sequence s -> engine_exec E s (delete_text table) [] = inl s' -> no_sequence s') ->
  (forall s table,
      no_sequence s ->
      exists err,
        engine_exec E s (sequence_text table) [] = inr err
        /\ Strings.Contains err "no such table" = true) ->
  delete_all (db_committed d) reset_tables = Some s' ->
  exists w',
    resetDB dbPath w = (Ret tt, w')
    /\ w_dbs w' ("sqlite", dbPath) = Some (mkDB s' None)
    /\ w_log w' = w_log w
    /\ executed ("sqlite", dbPath) (w_calls w')
       = executed ("sqlite", dbPath) (w_calls w) ++ reset_statements reset_tables.
Proof.
  intros Hdriver Hdb Hnone Hkeep Hseq Hdel.
  pose proof (reset_store_without_sequence no_sequence reset_tables Hkeep Hseq _ _ Hnone Hdel)
    as Hreset.
  destruct (resetDB_run dbPath w d Hdriver Hdb) as (w' & Hrun & Hdb' & Hlog & Hcalls & _).
  rewrite Hreset in Hdb', Hlog, Hcalls.
  destruct (reset_attempted_prefix reset_tables (db_committed d)) as (n & _ & Hall).
  rewrite (Hall s' Hreset) in Hcalls.
  exists w'. split; [exact Hrun|]. split; [exact Hdb'|].
  split; [now rewrite Hlog, app_nil_r|].
  rewrite Hcalls.
  change (CBegin ("sqlite", dbPath) :: ?l) with ([CBegin ("sqlite", dbPath)] ++ l).
  rewrite !executed_app, executed_Exec.
  cbn [executed flat_map app]. now rewrite app_nil_r.
Qed.

(** ** The statements of a seed script *)

Lemma Split_length (s : string) (sep : ascii) :
  length (Strings.Split s sep) = S (count_char sep s).
Proof.
  induction s as [|c s IH]; [reflexivity|].
  cbn [Strings.Split count_char].
  destruct (Ascii.eqb c sep).
  - cbn [length]. now rewrite IH.
  - destruct (Strings.Split s sep) as [|frag frags]; [discriminate|].
    cbn [length] in *. lia.
Qed.

Lemma Split_app (sep : ascii) (a b : string) :
  Strings.Split (a +++ String sep b) sep = Strings.Split a sep ++ Strings.Split b sep.
Proof.
  induction a as [|x a IH].
  - cbn. now rewrite Ascii.eqb_refl.
  - change (String x a +++ String sep b) with (String x (a +++ String sep b)).
    cbn [Strings.Split]. rewrite IH.
    destruct (Ascii.eqb x sep); [reflexivity|].
    pose proof (Split_not_nil a sep) as Hne.
    destruct (Strings.Split a sep) as [|frag frags]; [congruence | reflexivity].
Qed.

(** X10.  A seed script of which every fragment is accepted: the
    statements executed are the fragments between the semicolons, one
    more than there are semicolons in the script (one, empty, for the
    empty script), and those of a script [a;b] are those of [a] followed
    by those of [b], whatever [a] and [b] hold. *)
Theorem seedDB_statements (seedDBPath dbPath script : string)
    (w : @World E) (d : @DB E) (s' : Store E) :
  w_files w seedDBPath = Some script ->
  existsb (String.eqb "sqlite") (w_drivers w) = true ->
  w_dbs w ("sqlite", dbPath) = Some d ->
  exec_all (db_committed d) (Strings.Split script ";"%char) = inl s' ->
  exists w',
    seedDB seedDBPath dbPath w = (Ret tt, w')
    /\ executed ("sqlite", dbPath) (w_calls w')
       = executed ("sqlite", dbPath) (w_calls w) ++ Strings.Split script ";"%char
    /\ length (Strings.Split script ";"%char) = S (count_char ";"%char script)
    /\ (forall a b, script = a +++ ";" +++ b ->
                    Strings.Split script ";"%char
                    = Strings.Split a ";"%char ++ Strings.Split b ";"%char).
Proof.
  intros Hfile Hdriver Hdb Hall.
  destruct (seedDB_run seedDBPath dbPath script w d Hfile Hdriver Hdb)
    as (w' & Hrun & _ & _ & Hcalls & _).
  rewrite Hall, (attempted_all _ _ _ Hall) in Hcalls.
  exists w'. split; [exact Hrun|]. split; [|split].
  - rewrite Hcalls.
    change (CBegin ("sqlite", dbPath) :: ?l) with ([CBegin ("sqlite", dbPath)] ++ l).
    rewrite !executed_app, executed_Exec.
    cbn [executed flat_map app]. now rewrite app_nil_r.
  - apply Split_length.
  - intros a b ->. apply Split_app.
Qed.

(** ** Which errors of an insert are foreign-key errors *)

Lemma HasPrefix_app (prefix rest : string) : Strings.HasPrefix (prefix +++ rest) prefix = true.
Proof.
  induction prefix as [|c prefix IH]; [reflexivity|].
  cbn. now rewrite Ascii.eqb_refl.
Qed.

Lemma HasPrefix_inv (prefix s : string) :
  Strings.HasPrefix s prefix = true -> exists rest, s = prefix +++ rest.
Proof.
  revert s. induction prefix as [|c prefix IH]; intros s H.
  - now exists s.
  - destruct s as [|x s]; [discriminate|].
    cbn in H. destruct (Ascii.eqb x c) eqn:Hx; [|discriminate].
    apply Ascii.eqb_eq in Hx. subst x.
    destruct (IH s H) as [rest ->]. now exists rest.
Qed.

Lemma Contains_unfold (s substr : string) :
  Strings.Contains s substr
  = if Strings.HasPrefix s substr then true
    else match s with
         | EmptyString => false
         | String _ s' => Strings.Contains s' substr
         end.
Proof.
  destruct s; reflexivity.
Qed.

Lemma Contains_app (a substr b : string) :
  Strings.Contains (a +++ substr +++ b) substr = true.
Proof.
  induction a as [|x a IH]; rewrite Contains_unfold.
  - cbn [String.append]. now rewrite HasPrefix_app.
  - destruct (Strings.HasPrefix _ substr); [reflexivity | exact IH].
Qed.

Lemma Contains_inv (s substr : string) :
  Strings.Contains s substr = true -> exists a b, s = a +++ substr +++ b.
Proof.
  induction s as [|x s IH]; rewrite Contains_unfold; intros H.
  - destruct (Strings.HasPrefix "" substr) eqn:Hp; [|discriminate].
    destruct (HasPrefix_inv _ _ Hp) as [rest Hrest]. now exists "", rest.
  - destruct (Strings.HasPrefix (String x s) substr) eqn:Hp.
    + destruct (HasPrefix_inv _ _ Hp) as [rest Hrest]. now exists "", rest.
    + destruct (IH H) as (a & b & ->). now exists (String x a), b.
Qed.

(** X11.  A row whose insert is refused is skipped exactly when the
    error text holds the words "violates foreign key constraint"
    somewhere, whatever stands before and after them; with any other
    error text the process exits with status 1. *)
Theorem copy_row_skips_by_error_text (postgresDB : Conn)
    (table colNames colPlaceholders : string) (ncols : nat) (w : @World E) (row : Row)
    (s0 cur : Store E) (err : string) :
  w_dbs w postgresDB = Some (mkDB s0 (Some cur)) ->
  length row = ncols ->
  engine_prepare E cur (insert_text table colNames colPlaceholders) = None ->
  engine_exec E cur (insert_text table colNames colPlaceholders) row = inr err ->
  ((exists before after, err = before +++ "violates foreign key constraint" +++ after) ->
   fst (copy_row postgresDB table ncols colNames colPlaceholders row w) = Ret tt)
  /\ (~ (exists before after, err = before +++ "violates foreign key constraint" +++ after) ->
      fst (copy_row postgresDB table ncols colNames colPlaceholders row w) = Exit 1).
Proof.
  intros Hdb Hlen Hprep Hexec. split.
  - intros (before & after & ->).
    now rewrite (copy_row_fk postgresDB table colNames colPlaceholders ncols w row s0 cur _
                   Hdb Hlen Hprep Hexec (Contains_app before fk_violation after)).
  - intros Hno.
    destruct (Strings.Contains err fk_violation) eqn:Hfk.
    + exfalso. apply Hno. exact (Contains_inv _ _ Hfk).
    + now rewrite (copy_row_fatal postgresDB table colNames colPlaceholders ncols w row s0 cur
                     err Hdb Hlen Hprep Hexec Hfk).
Qed.

(** ** The arguments of the database subcommands *)

Lemma flag_Arg_short (args : list string) (i : nat) : length args <= i -> flag_Arg args i = "".
Proof.
  intros H. unfold flag_Arg. now apply nth_overflow.
Qed.

(** X12.  A database subcommand that lacks one of its two arguments, or
    is given an empty one, prints the usage text and exits with status 1:
    no file is read, nothing is logged and no database is called. *)
Theorem main_missing_argument (args : list string) (w : @World E) :
  flag_Arg args 0 = "db:migrate" \/ flag_Arg args 0 = "db:seed"
  \/ flag_Arg args 0 = "db:reset" ->
  length args < 3 \/ flag_Arg args 1 = "" \/ flag_Arg args 2 = "" ->
  exists run w',
    main args = Some run
    /\ run w = (Exit 1, w')
    /\ w_err w' = w_err w ++ [usage]
    /\ w_dbs w' = w_dbs w
    /\ w_calls w' = w_calls w
    /\ w_log w' = w_log w.
Proof.
  intros Hcmd Hmissing.
  assert (Hargs : String.eqb (flag_Arg args 1) "" = true
                  \/ String.eqb (flag_Arg args 2) "" = true).
  { destruct Hmissing as [Hlen|[H1|H2]].
    - right. rewrite flag_Arg_short by lia. reflexivity.
    - left. now rewrite H1.
    - right. now rewrite H2. }
  destruct Hcmd as [Hcmd|[Hcmd|Hcmd]]; unfold main; rewrite Hcmd;
    cbn [String.eqb Ascii.eqb Bool.eqb].
  - assert (Hor : String.eqb (flag_Arg args 1) "" || String.eqb (flag_Arg args 2) "" = true)
      by (apply orb_true_iff; exact Hargs).
    rewrite Hor. eexists. eexists. split; [reflexivity|]. now repeat split.
  - destruct (String.eqb (flag_Arg args 1) "") eqn:H1.
    + eexists. eexists. split; [reflexivity|]. now repeat split.
    + destruct Hargs as [Habs|H2]; [discriminate|]. rewrite H2.
      eexists. eexists. split; [reflexivity|]. now repeat split.
  - destruct (String.eqb (flag_Arg args 1) "") eqn:H1.
    + eexists. eexists. split; [reflexivity|]. now repeat split.
    + destruct Hargs as [Habs|H2]; [discriminate|]. rewrite H2.
      eexists. eexists. split; [reflexivity|]. now repeat split.
Qed.

(** ** All or nothing *)

(** X18.  Every run of [resetDB]: what is durable afterwards is what was
    durable before, or it is the store that the statements of all the
    tables of the list give, the tolerated refusals of the sequence
    statement apart; no run leaves some tables emptied and others not. *)
Theorem resetDB_all_or_nothing (dbPath : string) (w : @World E) :
  durable (snd (resetDB dbPath w)) ("sqlite", dbPath) = durable w ("sqlite", dbPath)
  \/ exists s0 s',
      durable w ("sqlite", dbPath) = Some s0
      /\ reset_store s0 reset_tables = inl s'
      /\ durable (snd (resetDB dbPath w)) ("sqlite", dbPath) = Some s'
      /\ fst (resetDB dbPath w) = Ret tt.
Proof.
  destruct (existsb (String.eqb "sqlite") (w_drivers w)) eqn:Hdriver.
  - destruct (w_dbs w ("sqlite", dbPath)) as [d|] eqn:Hdb.
    + destruct (resetDB_run dbPath w d Hdriver Hdb) as (w' & Hrun & Hdb' & _).
      rewrite Hrun. cbn [fst snd]. unfold durable. rewrite Hdb', Hdb. cbn [db_committed].
      destruct (reset_store (db_committed d) reset_tables) as [s'|line] eqn:Hall.
      * right. exists (db_committed d), s'. now repeat split.
      * left. reflexivity.
    + left. unfold resetDB, bind, sql_Open, db_Begin.
      rewrite Hdriver. cbn [w_dbs add_call]. rewrite Hdb. reflexivity.
  - left. unfold resetDB, bind, sql_Open. rewrite Hdriver. reflexivity.
Qed.

End Extras.

(** * The catalogs *)

Section Catalogs.

Context {E : Engine}.

(** The table loop, whatever its outcome: the tables queried are the
    first [n] of the list; those reported on standard output are the
    same when the loop is left normally, and all but the last of them
    when the process exits, which it does inside the body of a table. *)
Lemma migrate_tables_progress (sqliteDB postgresDB : Conn) (tables : list string) :
  forall (w w' : @World E) (o : Outcome unit),
    for_each tables (migrate_table sqliteDB postgresDB) w = (o, w') ->
    exists n,
      queried sqliteDB (w_calls w')
      = queried sqliteDB (w_calls w)
        ++ map (fun table => "SELECT * FROM " +++ table) (firstn n tables)
      /\ w_out w'
         = w_out w
           ++ map (fun table => "Migrated table '" +++ table +++ "' from SQLite to PostgreSQL")
                  (firstn (match o with Ret _ => n | Exit _ => pred n end) tables)
      /\ match o with
         | Ret _ => n = length tables
         | Exit _ => 1 <= n <= length tables
         end.
Proof.
  induction tables as [|table rest IH]; intros w w' o H.
  - injection H as <- <-. exists 0. cbn. rewrite !app_nil_r. now repeat split.
  - cbn [for_each] in H. unfold bind in H.
    destruct (migrate_table sqliteDB postgresDB table w) as [[[]|code] w1] eqn:Htable;
      destruct (migrate_table_frame _ _ _ _ _ _ Htable) as [Hq1 Hout1].
    + destruct (IH _ _ _ H) as (n & Hq & Hout & Hn).
      exists (S n). split; [|split].
      * rewrite Hq, Hq1. cbn [firstn map]. now rewrite <- app_assoc.
      * rewrite Hout, Hout1, <- app_assoc. f_equal.
        destruct o as [u|code].
        -- reflexivity.
        -- destruct n as [|m]; [lia|]. reflexivity.
      * destruct o as [u|code]; cbn [length]; lia.
    + injection H as <- <-. exists 1. split; [|split].
      * rewrite Hq1. reflexivity.
      * rewrite Hout1. reflexivity.
      * cbn [length]. lia.
Qed.

(** A run of [migrate] in which every table can be queried and no row
    is refused for another reason than a foreign key. *)
Lemma migrate_run_returns (sqliteDBPath postgresDBURL : string) (w : @World E)
    (dsrc ddst : @DB E) (s' : Store E) :
  existsb (String.eqb "sqlite3") (w_drivers w) = true ->
  existsb (String.eqb "postgres") (w_drivers w) = true ->
  w_dbs w ("sqlite3", sqliteDBPath) = Some dsrc ->
  w_dbs w ("postgres", postgresDBURL) = Some ddst ->
  migrate_store (db_committed dsrc) (db_committed ddst) migrate_tables = Some s' ->
  exists w',
    migrate sqliteDBPath postgresDBURL w = (Ret tt, w')
    /\ w_dbs w' ("postgres", postgresDBURL) = Some (mkDB s' None).
Proof.
  intros Hsqlite Hpostgres Hsrc Hdst Hall.
  destruct (migrate_tables_run ("sqlite3", sqliteDBPath) ("postgres", postgresDBURL) dsrc
              migrate_tables eq_refl w ddst s' Hsrc Hdst Hall)
    as (w1 & d' & Hrun & Hdb & Hcom & Htx & _).
  assert (Hd' : d' = mkDB s' None).
  { destruct d' as [c t]. cbn in Hcom, Htx. subst c.
    rewrite Htx by (unfold migrate_tables; discriminate). reflexivity. }
  subst d'.
  exists (add_out "Migration completed successfully!" w1).
  split; [|exact Hdb].
  unfold migrate.
  unfold bind at 1. unfold sql_Open at 1. rewrite Hsqlite.
  unfold bind at 1. unfold sql_Open at 1. rewrite Hpostgres.
  rewrite (bind_ret _ _ _ _ _ Hrun).
  exact (migrate_epilogue _ _ _ s' Hdb).
Qed.

(** C9 (amended).  The table list of [migrate] is users, indexer,
    irc_network, irc_channel, client, filter, action, notification,
    filter_indexer, release, release_action_status, feed, api_key; the
    table list of [resetDB] holds the same tables and feed_cache, each
    once.  A run of [migrate] that returns has queried and reported all
    the tables of its list, in that order; a run that exits has status 1,
    has queried the first [n] tables of the list and reported all of them
    but the last; and a run in which every table can be queried and no
    row is refused for another reason than a foreign key does return.  A
    run of [resetDB] returns and has executed the first statements of the
    delete and sequence statements of its list, in order: all of them,
    with their effect durable, when none is refused (the tolerated
    refusal apart), and otherwise without a durable effect. *)
Theorem catalogs_processed :
  migrate_tables
  = ["users"; "indexer"; "irc_network"; "irc_channel"; "client"; "filter"; "action";
     "notification"; "filter_indexer"; "release"; "release_action_status"; "feed"; "api_key"]
  /\ (forall table, In table reset_tables <-> table = "feed_cache" \/ In table migrate_tables)
  /\ NoDup reset_tables
  /\ NoDup migrate_tables
  /\ (forall sqliteDBPath postgresDBURL (w w' : @World E) (o : Outcome unit),
         migrate sqliteDBPath postgresDBURL w = (o, w') ->
         exists n,
           queried ("sqlite3", sqliteDBPath) (w_calls w')
           = queried ("sqlite3", sqliteDBPath) (w_calls w)
             ++ map (fun table => "SELECT * FROM " +++ table) (firstn n migrate_tables)
           /\ match o with
              | Ret _ =>
                  n = length migrate_tables
                  /\ w_out w'
                     = w_out w
                       ++ map (fun table => "Migrated table '" +++ table
                                              +++ "' from SQLite to PostgreSQL")
                              migrate_tables
                       ++ ["Migration completed successfully!"]
              | Exit code =>
                  code = 1%Z
                  /\ n <= length migrate_tables
                  /\ w_out w'
                     = w_out w
                       ++ map (fun table => "Migrated table '" +++ table
                                              +++ "' from SQLite to PostgreSQL")
                              (firstn (pred n) migrate_tables)
              end)
  /\ (forall sqliteDBPath postgresDBURL (w : @World E) (dsrc ddst : @DB E) (s' : Store E),
         existsb (String.eqb "sqlite3") (w_drivers w) = true ->
         existsb (String.eqb "postgres") (w_drivers w) = true ->
         w_dbs w ("sqlite3", sqliteDBPath) = Some dsrc ->
         w_dbs w ("postgres", postgresDBURL) = Some ddst ->
         migrate_store (db_committed dsrc) (db_committed ddst) migrate_tables = Some s' ->
         exists w',
           migrate sqliteDBPath postgresDBURL w = (Ret tt, w')
           /\ w_dbs w' ("postgres", postgresDBURL) = Some (mkDB s' None))
  /\ (forall dbPath (w : @World E) (d : @DB E),
         existsb (String.eqb "sqlite") (w_drivers w) = true ->
         w_dbs w ("sqlite", dbPath) = Some d ->
         exists w' n,
           resetDB dbPath w = (Ret tt, w')
           /\ executed ("sqlite", dbPath) (w_calls w')
              = executed ("sqlite", dbPath) (w_calls w)
                ++ firstn n (reset_statements reset_tables)
           /\ match reset_store (db_committed d) reset_tables with
              | inl s' =>
                  firstn n (reset_statements reset_tables) = reset_statements reset_tables
                  /\ w_dbs w' ("sqlite", dbPath) = Some (mkDB s' None)
              | inr _ =>
                  1 <= n /\ w_dbs w' ("sqlite", dbPath) = Some (mkDB (db_committed d) None)
              end).
Proof.
  split; [reflexivity|]. split; [|split; [|split; [|split; [|split]]]].
  - intros table. unfold reset_tables, migrate_tables. cbn [In]. intuition.
  - unfold reset_tables.
    repeat (constructor; [cbn [In]; intuition discriminate|]). constructor.
  - unfold migrate_tables.
    repeat (constructor; [cbn [In]; intuition discriminate|]). constructor.
  - intros sqliteDBPath postgresDBURL w w' o H.
    assert (Hcode : forall code, o = Exit code -> code = 1%Z).
    { intros code ->. destruct (post_migrate _ _ _ _ _ H) as [_ Hq]. now apply Hq. }
    unfold migrate in H.
    unfold bind at 1 in H. unfold sql_Open at 1 in H.
    destruct (existsb (String.eqb "sqlite3") (w_drivers w)).
    + unfold bind at 1 in H. unfold sql_Open at 1 in H.
      destruct (existsb (String.eqb "postgres") (w_drivers w)).
      * unfold bind at 1 in H.
        destruct (for_each migrate_tables _ w) as [[[]|c] w1] eqn:Hloop;
          destruct (migrate_tables_progress _ _ _ _ _ _ Hloop) as (n & Hq1 & Hout1 & Hn).
        -- assert (Hne : migrate_tables <> []) by (unfold migrate_tables; discriminate).
           destruct (migrate_tables_ret_closed _ _ _ Hne _ _ Hloop) as [s Hdb].
           rewrite (migrate_epilogue _ _ _ s Hdb) in H. injection H as <- <-.
           exists n. split; [exact Hq1|]. split; [exact Hn|].
           cbn [w_out add_out]. rewrite Hout1, Hn, firstn_all, <- app_assoc. reflexivity.
        -- injection H as <- <-.
           exists n. split; [exact Hq1|]. split; [now apply Hcode|].
           split; [lia | exact Hout1].
      * injection H as <- <-. exists 0. cbn [firstn map pred w_calls w_out add_log].
        rewrite !app_nil_r. repeat split; lia.
    + injection H as <- <-. exists 0. cbn [firstn map pred w_calls w_out add_log].
      rewrite !app_nil_r. repeat split; lia.
  - exact migrate_run_returns.
  - intros dbPath w d Hdriver Hdb.
    destruct (resetDB_run dbPath w d Hdriver Hdb) as (w' & Hrun & Hdb' & _ & Hcalls & _).
    destruct (reset_attempted_prefix reset_tables (db_committed d)) as (n & Hn & Hall).
    exists w'.
    destruct (reset_store (db_committed d) reset_tables) as [s'|line] eqn:Hreset.
    + exists n. split; [exact Hrun|]. split; [|split; [|exact Hdb']].
      * rewrite Hcalls, <- Hn.
        change (CBegin ("sqlite", dbPath) :: ?l) with ([CBegin ("sqlite", dbPath)] ++ l).
        rewrite !executed_app, executed_Exec. cbn. now rewrite app_nil_r.
      * rewrite <- Hn. exact (Hall s' eq_refl).
    + exists (length (reset_attempted (db_committed d) reset_tables)).
      assert (Hfirst : firstn (length (reset_attempted (db_committed d) reset_tables))
                              (reset_statements reset_tables)
                       = reset_attempted (db_committed d) reset_tables).
      { rewrite Hn, length_firstn.
        destruct (Nat.le_ge_cases n (length (reset_statements reset_tables))) as [Hle|Hge].
        - now rewrite Nat.min_l.
        - rewrite Nat.min_r by exact Hge. rewrite firstn_all. symmetry. now apply firstn_all2. }
      split; [exact Hrun|]. split; [|split; [|exact Hdb']].
      * rewrite Hcalls, Hfirst.
        change (CBegin ("sqlite", dbPath) :: ?l) with ([CBegin ("sqlite", dbPath)] ++ l).
        rewrite !executed_app, executed_Exec. cbn. now rewrite app_nil_r.
      * unfold reset_tables. cbn [reset_attempted length].
        destruct (engine_exec E (db_committed d) (delete_text "action") []); cbn [length]; lia.
Qed.

End Catalogs.

(** ** The properties above on runs of the small engine *)

Lemma migrate_exit_keeps_completed_tables_witness :
  exists w',
    migrate "/config/autobrr.db" "postgresql://localhost/autobrr" ToyRuns.narrow_world
    = (Exit 1, w')
    /\ w_out w' = ["Migrated table 'users' from SQLite to PostgreSQL";
                   "Migrated table 'indexer' from SQLite to PostgreSQL";
                   "Migrated table 'irc_network' from SQLite to PostgreSQL"]
    /\ exists done rest w1,
        migrate_tables = done ++ rest
        /\ for_each done (migrate_table Toy.sqliteDB Toy.postgresDB) ToyRuns.narrow_world
           = (Ret tt, w1)
        /\ durable w' Toy.postgresDB = durable w1 Toy.postgresDB.
Proof.
  assert (Hrun : migrate "/config/autobrr.db" "postgresql://localhost/autobrr"
                         ToyRuns.narrow_world
                 = (Exit 1,
                    snd (migrate "/config/autobrr.db" "postgresql://localhost/autobrr"
                                 ToyRuns.narrow_world)))
    by (vm_compute; reflexivity).
  destruct (@migrate_exit_keeps_completed_tables Toy.engine
              "/config/autobrr.db" "postgresql://localhost/autobrr"
              ToyRuns.narrow_world _ 1 Hrun)
    as (_ & done & rest & w1 & Heq & _ & Hdone & Hdur & _).
  eexists. split; [exact Hrun|]. split; [vm_compute; reflexivity|].
  exists done, rest, w1. split; [exact Heq|]. split; [exact Hdone | exact Hdur].
Defined.

Lemma migrate_table_logs_two_lines_per_skipped_row_witness :
  exists w',
    migrate_table Toy.sqliteDB Toy.postgresDB "irc_channel" Toy.channels_world = (Ret tt, w')
    /\ w_dbs w' Toy.postgresDB = Some (@mkDB Toy.engine ToyRuns.migrated None)
    /\ length (w_log w') = 2
    /\ rowsSkipped (w_log w') = 1.
Proof.
  destruct (@migrate_table_logs_two_lines_per_skipped_row Toy.engine
              Toy.sqliteDB Toy.postgresDB "irc_channel" Toy.irc_channel_columns
              [Toy.channel 1 1 "#a"; Toy.channel 2 9 "#b"; Toy.channel 3 2 "#c"]
              Toy.channels_world (Toy.db Toy.source) (Toy.db Toy.networks) ToyRuns.migrated)
    as (w' & Hrun & Hdb & Hlog & Hskip & _); try (vm_compute; reflexivity).
  exists w'. split; [exact Hrun|]. split; [exact Hdb|].
  split; [rewrite Hlog | rewrite Hskip]; vm_compute; reflexivity.
Defined.

Lemma migrate_returns_witness :
  exists w',
    migrate "/config/autobrr.db" "postgresql://localhost/autobrr" Toy.migrate_world
    = (Ret tt, w')
    /\ w_dbs w' Toy.postgresDB = Some (@mkDB Toy.engine ToyRuns.migrated None)
    /\ w_dbs w' Toy.sqliteDB = Some (Toy.db Toy.source)
    /\ length (w_out w') = 14.
Proof.
  destruct (@migrate_returns Toy.engine "/config/autobrr.db" "postgresql://localhost/autobrr"
              Toy.migrate_world (Toy.db Toy.source) (Toy.db Toy.empty) ToyRuns.migrated)
    as (w' & Hrun & Hdst & Hsrc & Hout); try (vm_compute; reflexivity).
  exists w'. split; [exact Hrun|]. split; [exact Hdst|]. split; [exact Hsrc|].
  rewrite Hout. reflexivity.
Defined.

Lemma migrate_table_calls_witness :
  exists w',
    migrate_table Toy.sqliteDB Toy.postgresDB "irc_network" Toy.migrate_world = (Ret tt, w')
    /\ w_calls w'
       = [CQuery Toy.sqliteDB "SELECT * FROM irc_network";
          CBegin Toy.postgresDB;
          CPrepare Toy.postgresDB "INSERT INTO irc_network (id, name) VALUES ($1, $2)";
          CExec Toy.postgresDB "INSERT INTO irc_network (id, name) VALUES ($1, $2)"
                [VInt 1; VText "libera"];
          CPrepare Toy.postgresDB "INSERT INTO irc_network (id, name) VALUES ($1, $2)";
          CExec Toy.postgresDB "INSERT INTO irc_network (id, name) VALUES ($1, $2)"
                [VInt 2; VText "oftc"];
          CCommit Toy.postgresDB]
    /\ w_dbs w' Toy.postgresDB = Some (Toy.db Toy.networks).
Proof.
  destruct (@migrate_table_calls Toy.engine Toy.sqliteDB Toy.postgresDB "irc_network"
              Toy.irc_network_columns [[VInt 1; VText "libera"]; [VInt 2; VText "oftc"]]
              Toy.migrate_world (Toy.db Toy.source) (Toy.db Toy.empty) Toy.networks)
    as (w' & Hrun & Hcalls & _ & Hdb); try (vm_compute; reflexivity).
  exists w'. split; [exact Hrun|]. split; [rewrite Hcalls; reflexivity | exact Hdb].
Defined.

Lemma db_reset_unreadable_seed_witness :
  exists run w',
    main ["db:reset"; "/config/missing.sql"; "/config/autobrr.db"] = Some run
    /\ run (Toy.sqlite_world Toy.source "") = (Exit 1, w')
    /\ w_dbs w' Toy.sqlite = Some (Toy.db Toy.empty)
    /\ w_log w' = ["failed to read SQL file: open /config/missing.sql: no such file or directory"].
Proof.
  assert (Hreset : reset_store (E:=Toy.engine) Toy.source reset_tables = inl Toy.empty)
    by (vm_compute; reflexivity).
  destruct (@db_reset_unreadable_seed Toy.engine "/config/missing.sql" "/config/autobrr.db"
              (Toy.sqlite_world Toy.source "") (Toy.db Toy.source) Toy.empty
              eq_refl eq_refl eq_refl eq_refl eq_refl Hreset)
    as (run & w' & Hmain & Hrun & Hdb & Hlog & _).
  exists run, w'. split; [exact Hmain|]. split; [exact Hrun|]. split; [exact Hdb | exact Hlog].
Defined.

Lemma resetDB_without_sequence_witness :
  exists w',
    resetDB "/config/autobrr.db" (Toy.sqlite_world ToyRuns.no_sequence "") = (Ret tt, w')
    /\ w_dbs w' Toy.sqlite
       = Some (Toy.db (Toy.mkStore (Toy.tables Toy.empty) false))
    /\ w_log w' = [].
Proof.
  destruct (@resetDB_without_sequence Toy.engine (fun s => Toy.sequence s = false)
              "/config/autobrr.db" (Toy.sqlite_world ToyRuns.no_sequence "")
              (Toy.db ToyRuns.no_sequence) (Toy.mkStore (Toy.tables Toy.empty) false)
              eq_refl eq_refl eq_refl)
    as (w' & Hrun & Hdb & Hlog & _).
  - intros s table s' Hs. cbn [engine_exec Toy.engine]. unfold Toy.exec, delete_text.
    cbn [String.append String.eqb Toy.strip_prefix Ascii.eqb Bool.eqb].
    destruct (Toy.lookup table (Toy.tables s)); [|discriminate].
    intros H. injection H as <-. exact Hs.
  - intros s table Hs. cbn [engine_exec Toy.engine]. unfold Toy.exec, sequence_text.
    cbn [String.append String.eqb Toy.strip_prefix Ascii.eqb Bool.eqb].
    rewrite Hs. eexists. split; reflexivity.
  - vm_compute; reflexivity.
  - exists w'. split; [exact Hrun|]. split; [exact Hdb | exact Hlog].
Defined.

Lemma seedDB_statements_witness :
  exists w',
    seedDB Toy.seed_path "/config/autobrr.db"
           (Toy.sqlite_world Toy.source "DELETE FROM users;DELETE FROM feed;") = (Ret tt, w')
    /\ executed Toy.sqlite (w_calls w') = ["DELETE FROM users"; "DELETE FROM feed"; ""]
    /\ count_char ";"%char "DELETE FROM users;DELETE FROM feed;" = 2.
Proof.
  destruct (@seedDB_statements Toy.engine Toy.seed_path "/config/autobrr.db"
              "DELETE FROM users;DELETE FROM feed;"
              (Toy.sqlite_world Toy.source "DELETE FROM users;DELETE FROM feed;")
              (Toy.db Toy.source) Toy.source eq_refl eq_refl eq_refl)
    as (w' & Hrun & Hexec & _); [vm_compute; reflexivity|].
  exists w'. split; [exact Hrun|]. split; [unfold Toy.sqlite; rewrite Hexec; reflexivity | reflexivity].
Defined.

Lemma copy_row_skips_by_error_text_witness :
  fst (copy_row Toy.postgresDB "irc_channel" 3 "id, network_id, name" "$1, $2, $3"
                (Toy.channel 2 9 "#b") (Toy.loop_world Toy.networks)) = Ret tt
  /\ fst (copy_row Toy.postgresDB "irc_channel" 3 "id, network_id, name" "$1, $2, $3"
                   (Toy.channel 1 1 "#a") (Toy.loop_world Toy.narrow)) = Exit 1.
Proof.
  split.
  - destruct (@copy_row_skips_by_error_text Toy.engine Toy.postgresDB "irc_channel"
                "id, network_id, name" "$1, $2, $3" 3 (Toy.loop_world Toy.networks)
                (Toy.channel 2 9 "#b") Toy.networks Toy.networks
                ("pq: insert or update on table " +++ Strings.Quote "irc_channel"
                   +++ " violates foreign key constraint "
                   +++ Strings.Quote "irc_channel_network_id_fkey")
                eq_refl eq_refl eq_refl eq_refl) as [Hskip _].
    apply Hskip.
    exists ("pq: insert or update on table " +++ Strings.Quote "irc_channel" +++ " "),
           (" " +++ Strings.Quote "irc_channel_network_id_fkey").
    reflexivity.
  - vm_compute. reflexivity.
Defined.

Lemma main_missing_argument_witness :
  exists run w',
    main ["db:seed"] = Some run
    /\ run (Toy.sqlite_world Toy.source "") = (Exit 1, w')
    /\ w_err w' = [usage]
    /\ w_calls w' = [].
Proof.
  destruct (@main_missing_argument Toy.engine ["db:seed"] (Toy.sqlite_world Toy.source ""))
    as (run & w' & Hmain & Hrun & Herr & _ & Hcalls & _).
  - right. left. reflexivity.
  - left. cbn. lia.
  - exists run, w'. split; [exact Hmain|]. split; [exact Hrun|]. split; [exact Herr | exact Hcalls].
Defined.

(** ** The catalogs, on runs of the small engine *)

(** C9, counterexample.  A run of [migrate] into a destination that
    refuses the rows of irc_channel for another reason than a foreign
    key: the process exits in the fourth table, and the nine tables after
    it are not processed.  A run of [resetDB] on a database without the
    table feed_cache: the loop stops at that table, the fifth, and no
    table is emptied. *)
Lemma runs_stop_before_the_end_of_the_catalog :
  let r := migrate "/config/autobrr.db" "postgresql://localhost/autobrr"
             ToyRuns.narrow_world in
  let r' := resetDB "/config/autobrr.db" (Toy.sqlite_world Toy.no_feed_cache "") in
  fst r = Exit 1
  /\ queried Toy.sqliteDB (w_calls (snd r))
     = ["SELECT * FROM users"; "SELECT * FROM indexer"; "SELECT * FROM irc_network";
        "SELECT * FROM irc_channel"]
  /\ queried Toy.sqliteDB (w_calls (snd r))
     <> map (fun table => "SELECT * FROM " +++ table) migrate_tables
  /\ w_out (snd r) = ["Migrated table 'users' from SQLite to PostgreSQL";
                      "Migrated table 'indexer' from SQLite to PostgreSQL";
                      "Migrated table 'irc_network' from SQLite to PostgreSQL"]
  /\ fst r' = Ret tt
  /\ executed Toy.sqlite (w_calls (snd r'))
     = firstn 9 (reset_statements reset_tables)
  /\ length (reset_statements reset_tables) = 28
  /\ Toy.durable (snd r') Toy.sqlite = Some Toy.no_feed_cache.
Proof.
  cbv zeta. repeat split; try (vm_compute; reflexivity).
  vm_compute. discriminate.
Qed.

Lemma catalogs_processed_witness :
  (exists w',
      migrate "/config/autobrr.db" "postgresql://localhost/autobrr" Toy.migrate_world
      = (Ret tt, w')
      /\ w_dbs w' Toy.postgresDB = Some (@mkDB Toy.engine ToyRuns.migrated None)
      /\ queried Toy.sqliteDB (w_calls w')
         = map (fun table => "SELECT * FROM " +++ table) migrate_tables)
  /\ (exists w',
         resetDB "/config/autobrr.db" (Toy.sqlite_world Toy.source "") = (Ret tt, w')
         /\ executed Toy.sqlite (w_calls w') = reset_statements reset_tables
         /\ w_dbs w' Toy.sqlite = Some (Toy.db Toy.empty)).
Proof.
  destruct (@catalogs_processed Toy.engine) as (_ & _ & _ & _ & Hany & Hreturns & Hreset).
  split.
  - destruct (Hreturns "/config/autobrr.db" "postgresql://localhost/autobrr"
                Toy.migrate_world (Toy.db Toy.source) (Toy.db Toy.empty) ToyRuns.migrated
                eq_refl eq_refl eq_refl eq_refl) as (w' & Hrun & Hdb);
      [vm_compute; reflexivity|].
    destruct (Hany _ _ _ _ _ Hrun) as (n & Hq & Hn & _).
    exists w'. split; [exact Hrun|]. split; [exact Hdb|].
    unfold Toy.sqliteDB. rewrite Hq, Hn, firstn_all. reflexivity.
  - destruct (Hreset "/config/autobrr.db" (Toy.sqlite_world Toy.source "")
                (Toy.db Toy.source) eq_refl eq_refl) as (w' & n & Hrun & Hexec & Hend).
    assert (Hstore : reset_store (E:=Toy.engine) (db_committed (Toy.db Toy.source)) reset_tables
                     = inl Toy.empty) by (vm_compute; reflexivity).
    rewrite Hstore in Hend. destruct Hend as [Hall Hdb].
    exists w'. split; [exact Hrun|]. split; [|exact Hdb].
    unfold Toy.sqlite. rewrite Hexec, Hall. reflexivity.
Defined.

(** * create-user and change-password *)

Section UserProofs.

Context {E : Engine} {UserFields Repo : Type}.

Variable repo_Store : Repo -> CreateUserRequest -> Repo + string.
Variable repo_FindByUsername : Repo -> string -> option (@User UserFields) + string.
Variable repo_Update : Repo -> @User UserFields -> Repo + string.
Variable CreateHash : string -> string + string.
Variable db_Open : string -> option string.

Local Abbreviation Sess := (@Session E Repo).

Lemma lift_Fatalf {A} (line : string) (s : Sess) :
  lift (@log_Fatalf E A line) s
  = (Exit 1, mkSession (add_log line (s_world s)) (s_console s) (s_printed s) (s_repo s)).
Proof.
  reflexivity.
Qed.

Lemma length_zero (s : string) : Nat.eqb (String.length s) 0 = true <-> s = "".
Proof.
  destruct s; cbn; split; intros H; try reflexivity; discriminate.
Qed.

(** What [readPassword] does, whatever the outcome: it returns a password
    that was read (never an empty one from a pipe), or an error, or exits
    with status 1; it never touches the repository. *)
Lemma readPassword_run (s s' : Sess) (o : Outcome (string + string)) :
  readPassword s = (o, s') ->
  s_repo s' = s_repo s
  /\ s_console s' = s_console s
  /\ match o with
     | Ret (inl password) =>
         password_read (s_console s) password /\ s_world s' = s_world s
     | Ret (inr err) => s_world s' = s_world s
     | Exit code => code = 1%Z
     end.
Proof.
  unfold readPassword, password_read.
  destruct (is_terminal (s_console s)) eqn:Hterm.
  - unfold ubind, fmt_Printf, uret.
    destruct (tty_password (s_console s)) as [password|err] eqn:Htty;
      intros H; injection H as <- <-; cbn; rewrite ?Hterm; now repeat split.
  - destruct (scanned (s_console s)) as [password| |err] eqn:Hscan.
    + destruct (Nat.eqb (String.length password) 0) eqn:Hlen;
        intros H; injection H as <- <-; cbn; rewrite ?Hterm.
      * now repeat split.
      * split; [reflexivity|]. split; [reflexivity|]. split; [|reflexivity].
        split; [reflexivity|]. intros ->. discriminate.
    + intros H. injection H as <- <-. now repeat split.
    + intros H. injection H as <- <-. now repeat split.
Qed.

(** X13.  What create-user does, whatever the outcome.  When it returns,
    the configuration path and the user name were given, nothing was
    logged, and the repository is the one that [Store] gives for the user
    name and a hash that [CreateHash] made of a password that was read:
    the password itself is not what is stored.  When it exits, the status
    is 1 and the repository is as before. *)
Theorem create_user_outcome (configPath : string) (args : list string)
    (s s' : Sess) (o : Outcome unit) :
  create_user repo_Store CreateHash db_Open configPath args s = (o, s') ->
  match o with
  | Ret _ =>
      String.eqb configPath "" = false
      /\ String.eqb (flag_Arg args 1) "" = false
      /\ s_world s' = s_world s
      /\ exists password hashed,
          password_read (s_console s) password
          /\ CreateHash password = inl hashed
          /\ repo_Store (s_repo s) (mkCreateUserRequest (flag_Arg args 1) hashed)
             = inl (s_repo s')
  | Exit code => code = 1%Z /\ s_repo s' = s_repo s
  end.
Proof.
  unfold create_user.
  destruct (String.eqb configPath "") eqn:Hcfg;
    [intros H; rewrite lift_Fatalf in H; injection H as <- <-; now split|].
  destruct (db_Open configPath);
    [intros H; rewrite lift_Fatalf in H; injection H as <- <-; now split|].
  cbv zeta.
  destruct (String.eqb (flag_Arg args 1) "") eqn:Hname;
    [intros H; injection H as <- <-; now split|].
  unfold ubind at 1.
  destruct (readPassword s) as [[r|code] s1] eqn:Hread;
    destruct (readPassword_run _ _ _ Hread) as (Hrepo1 & Hcons1 & Hres).
  - destruct r as [password|err];
      [|intros H; rewrite lift_Fatalf in H; injection H as <- <-; now split].
    destruct Hres as [Hpw Hworld1].
    destruct (CreateHash password) as [hashed|err] eqn:Hhash;
      [|intros H; rewrite lift_Fatalf in H; injection H as <- <-; now split].
    unfold ubind, on_repo. rewrite Hrepo1.
    destruct (repo_Store (s_repo s) (mkCreateUserRequest (flag_Arg args 1) hashed))
      as [repo'|err] eqn:Hstore; intros H.
    + injection H as <- <-. cbn [s_world s_repo].
      split; [reflexivity|]. split; [reflexivity|]. split; [exact Hworld1|].
      exists password, hashed. now repeat split.
    + rewrite lift_Fatalf in H. injection H as <- <-. now split.
  - intros H. injection H as <- <-. now split.
Qed.

(** X14.  An empty password.  Piped on standard input it is refused:
    create-user logs "failed to read password: zero length password" and
    exits with status 1, the repository as before.  Typed at a terminal it
    is accepted: the hash of the empty password is stored. *)
Theorem create_user_empty_password (configPath : string) (args : list string) (s : Sess) :
  String.eqb configPath "" = false ->
  db_Open configPath = None ->
  String.eqb (flag_Arg args 1) "" = false ->
  (is_terminal (s_console s) = false ->
   scanned (s_console s) = ScanToken "" ->
   create_user repo_Store CreateHash db_Open configPath args s
   = (Exit 1,
      mkSession (add_log "failed to read password: zero length password" (s_world s))
                (s_console s) (s_printed s) (s_repo s)))
  /\ (is_terminal (s_console s) = true ->
      tty_password (s_console s) = inl "" ->
      forall hashed repo',
        CreateHash "" = inl hashed ->
        repo_Store (s_repo s) (mkCreateUserRequest (flag_Arg args 1) hashed) = inl repo' ->
        create_user repo_Store CreateHash db_Open configPath args s
        = (Ret tt,
           mkSession (s_world s) (s_console s)
                     ((s_printed s ++ ["Password: "]) ++ [String "010"%char ""]) repo')).
Proof.
  intros Hcfg Hopen Hname. unfold create_user. rewrite Hcfg, Hopen. cbv zeta. rewrite Hname.
  split.
  - intros Hterm Hscan. unfold ubind, readPassword. rewrite Hterm, Hscan. reflexivity.
  - intros Hterm Htty hashed repo' Hhash Hstore.
    unfold ubind, readPassword. rewrite Hterm. unfold ubind, fmt_Printf, uret.
    cbn [s_console]. rewrite Htty, Hhash. unfold on_repo. cbn [s_repo].
    rewrite Hstore. reflexivity.
Qed.

(** X15.  What change-password does, whatever the outcome.  When it
    returns, the user was found, nothing was logged, and the repository
    is the one that [Update] gives for the user found with its password
    replaced by a hash that [CreateHash] made of a password that was
    read, its other fields as found.  When it exits, the status is 1 and
    the repository is as before. *)
Theorem change_password_outcome (configPath : string) (args : list string)
    (s s' : Sess) (o : Outcome unit) :
  change_password repo_FindByUsername repo_Update CreateHash db_Open configPath args s
  = (o, s') ->
  match o with
  | Ret _ =>
      s_world s' = s_world s
      /\ exists user password hashed,
          repo_FindByUsername (s_repo s) (flag_Arg args 1) = inl (Some user)
          /\ password_read (s_console s) password
          /\ CreateHash password = inl hashed
          /\ repo_Update (s_repo s) (mkUser hashed (user_fields user)) = inl (s_repo s')
  | Exit code => code = 1%Z /\ s_repo s' = s_repo s
  end.
Proof.
  unfold change_password.
  destruct (String.eqb configPath "") eqn:Hcfg;
    [intros H; rewrite lift_Fatalf in H; injection H as <- <-; now split|].
  destruct (db_Open configPath);
    [intros H; rewrite lift_Fatalf in H; injection H as <- <-; now split|].
  cbv zeta.
  destruct (String.eqb (flag_Arg args 1) "") eqn:Hname;
    [intros H; injection H as <- <-; now split|].
  unfold ubind at 1. unfold find_user.
  destruct (repo_FindByUsername (s_repo s) (flag_Arg args 1)) as [[user|]|err] eqn:Hfind;
    try (intros H; rewrite lift_Fatalf in H; injection H as <- <-; now split).
  unfold ubind at 1.
  destruct (readPassword s) as [[r|code] s1] eqn:Hread;
    destruct (readPassword_run _ _ _ Hread) as (Hrepo1 & Hcons1 & Hres).
  - destruct r as [password|err];
      [|intros H; rewrite lift_Fatalf in H; injection H as <- <-; now split].
    destruct Hres as [Hpw Hworld1].
    destruct (CreateHash password) as [hashed|err] eqn:Hhash;
      [|intros H; rewrite lift_Fatalf in H; injection H as <- <-; now split].
    unfold ubind, on_repo. rewrite Hrepo1.
    destruct (repo_Update (s_repo s) (mkUser hashed (user_fields user)))
      as [repo'|err] eqn:Hupdate; intros H.
    + injection H as <- <-. cbn [s_world s_repo].
      split; [exact Hworld1|].
      exists user, password, hashed. now repeat split.
    + rewrite lift_Fatalf in H. injection H as <- <-. now split.
  - intros H. injection H as <- <-. now split.
Qed.

(** X16.  change-password for a user that the repository does not find
    (neither a user nor an error): the process exits with status 1 after
    logging "failed to get user: <nil>", before any password is asked
    for: nothing is printed and the repository is as before. *)
Theorem change_password_unknown_user (configPath : string) (args : list string) (s : Sess) :
  String.eqb configPath "" = false ->
  db_Open configPath = None ->
  String.eqb (flag_Arg args 1) "" = false ->
  repo_FindByUsername (s_repo s) (flag_Arg args 1) = inl None ->
  change_password repo_FindByUsername repo_Update CreateHash db_Open configPath args s
  = (Exit 1,
     mkSession (add_log "failed to get user: <nil>" (s_world s))
               (s_console s) (s_printed s) (s_repo s)).
Proof.
  intros Hcfg Hopen Hname Hfind.
  unfold change_password. rewrite Hcfg, Hopen. cbv zeta. rewrite Hname.
  unfold ubind, find_user. rewrite Hfind. reflexivity.
Qed.

End UserProofs.

(** ** The user subcommands on the small repository *)

Lemma create_user_outcome_witness :
  exists s',
    create_user ToyUsers.store ToyUsers.hash ToyUsers.open "/config.toml"
                ["create-user"; "john"] (ToyUsers.session (ToyUsers.piped "secret") [])
    = (Ret tt, s')
    /\ s_repo s' = [mkCreateUserRequest "john" "$argon2id$secret"]
    /\ exists password hashed,
        ToyUsers.hash password = inl hashed
        /\ ToyUsers.store [] (mkCreateUserRequest "john" hashed) = inl (s_repo s').
Proof.
  assert (Hrun : create_user ToyUsers.store ToyUsers.hash ToyUsers.open "/config.toml"
                             ["create-user"; "john"]
                             (ToyUsers.session (ToyUsers.piped "secret") [])
                 = (Ret tt,
                    snd (create_user ToyUsers.store ToyUsers.hash ToyUsers.open "/config.toml"
                                     ["create-user"; "john"]
                                     (ToyUsers.session (ToyUsers.piped "secret") []))))
    by (vm_compute; reflexivity).
  destruct (@create_user_outcome Toy.engine _ ToyUsers.store ToyUsers.hash ToyUsers.open
              "/config.toml" ["create-user"; "john"]
              (ToyUsers.session (ToyUsers.piped "secret") []) _ (Ret tt) Hrun)
    as (_ & _ & _ & password & hashed & _ & Hhash & Hstore).
  eexists. split; [exact Hrun|]. split; [vm_compute; reflexivity|].
  exists password, hashed. split; [exact Hhash | exact Hstore].
Defined.

Lemma create_user_empty_password_witness :
  fst (create_user ToyUsers.store ToyUsers.hash ToyUsers.open "/config.toml"
                   ["create-user"; "john"] (ToyUsers.session (ToyUsers.piped "") []))
  = Exit 1
  /\ exists s',
      create_user ToyUsers.store ToyUsers.hash ToyUsers.open "/config.toml"
                  ["create-user"; "john"] (ToyUsers.session (ToyUsers.typed "") [])
      = (Ret tt, s')
      /\ s_repo s' = [mkCreateUserRequest "john" "$argon2id$"].
Proof.
  destruct (@create_user_empty_password Toy.engine _ ToyUsers.store ToyUsers.hash ToyUsers.open
              "/config.toml" ["create-user"; "john"]
              (ToyUsers.session (ToyUsers.piped "") []) eq_refl eq_refl eq_refl)
    as [Hpiped _].
  destruct (@create_user_empty_password Toy.engine _ ToyUsers.store ToyUsers.hash ToyUsers.open
              "/config.toml" ["create-user"; "john"]
              (ToyUsers.session (ToyUsers.typed "") []) eq_refl eq_refl eq_refl)
    as [_ Htyped].
  split.
  - now rewrite (Hpiped eq_refl eq_refl).
  - eexists. split; [exact (Htyped eq_refl eq_refl _ _ eq_refl eq_refl) | reflexivity].
Defined.

Lemma change_password_outcome_witness :
  exists s',
    change_password ToyUsers.find ToyUsers.update ToyUsers.hash ToyUsers.open "/config.toml"
                    ["change-password"; "john"]
                    (ToyUsers.session (ToyUsers.typed "new")
                                      [mkCreateUserRequest "john" "$argon2id$old";
                                       mkCreateUserRequest "jane" "$argon2id$other"])
    = (Ret tt, s')
    /\ s_repo s' = [mkCreateUserRequest "john" "$argon2id$new";
                    mkCreateUserRequest "jane" "$argon2id$other"]
    /\ exists user password hashed,
        ToyUsers.hash password = inl hashed
        /\ ToyUsers.update [mkCreateUserRequest "john" "$argon2id$old";
                            mkCreateUserRequest "jane" "$argon2id$other"]
                           (mkUser hashed (user_fields user))
           = inl (s_repo s').
Proof.
  assert (Hrun : change_password ToyUsers.find ToyUsers.update ToyUsers.hash ToyUsers.open
                                 "/config.toml" ["change-password"; "john"]
                                 (ToyUsers.session (ToyUsers.typed "new")
                                    [mkCreateUserRequest "john" "$argon2id$old";
                                     mkCreateUserRequest "jane" "$argon2id$other"])
                 = (Ret tt,
                    snd (change_password ToyUsers.find ToyUsers.update ToyUsers.hash
                                         ToyUsers.open "/config.toml"
                                         ["change-password"; "john"]
                                         (ToyUsers.session (ToyUsers.typed "new")
                                            [mkCreateUserRequest "john" "$argon2id$old";
                                             mkCreateUserRequest "jane" "$argon2id$other"]))))
    by (vm_compute; reflexivity).
  destruct (@change_password_outcome Toy.engine _ _ ToyUsers.find ToyUsers.update
              ToyUsers.hash ToyUsers.open "/config.toml" ["change-password"; "john"]
              (ToyUsers.session (ToyUsers.typed "new")
                                [mkCreateUserRequest "john" "$argon2id$old";
                                 mkCreateUserRequest "jane" "$argon2id$other"])
              _ (Ret tt) Hrun)
    as (_ & user & password & hashed & _ & _ & Hhash & Hupdate).
  eexists. split; [exact Hrun|]. split; [vm_compute; reflexivity|].
  exists user, password, hashed. split; [exact Hhash | exact Hupdate].
Defined.

Lemma change_password_unknown_user_witness :
  change_password ToyUsers.find ToyUsers.update ToyUsers.hash ToyUsers.open "/config.toml"
                  ["change-password"; "nobody"]
                  (ToyUsers.session (ToyUsers.typed "new")
                                    [mkCreateUserRequest "john" "$argon2id$old"])
  = (Exit 1,
     mkSession (add_log "failed to get user: <nil>" (Toy.sqlite_world Toy.empty ""))
               (ToyUsers.typed "new") [] [mkCreateUserRequest "john" "$argon2id$old"]).
Proof.
  exact (@change_password_unknown_user Toy.engine _ _ ToyUsers.find ToyUsers.update
           ToyUsers.hash ToyUsers.open "/config.toml" ["change-password"; "nobody"]
           (ToyUsers.session (ToyUsers.typed "new") [mkCreateUserRequest "john" "$argon2id$old"])
           eq_refl eq_refl eq_refl eq_refl).
Defined.


(** * Seed scripts and the engine's own transaction control *)

Section ScriptProofs.

Context {E : Engine}.

Variable engine_control : string -> option Control.

Local Abbreviation usable := Script.tx_usable.

Lemma tx_usable_app (db : Conn) (calls1 calls2 : list Call) :
  usable db (calls1 ++ calls2)
  = fold_left (fun u c =>
                 match c with
                 | CBegin db' => if conn_eqb db db' then true else u
                 | CRollback db' | CCommit db' => if conn_eqb db db' then false else u
                 | _ => u
                 end) calls2 (usable db calls1).
Proof.
  unfold Script.tx_usable. apply fold_left_app.
Qed.

Lemma tx_usable_Begin (db : Conn) (calls : list Call) :
  usable db (calls ++ [CBegin db]) = true.
Proof.
  rewrite tx_usable_app. cbn. now rewrite conn_eqb_refl.
Qed.

Lemma tx_usable_Exec (db : Conn) (calls : list Call) (query : string) (args : list Value) :
  usable db (calls ++ [CExec db query args]) = usable db calls.
Proof.
  rewrite tx_usable_app. reflexivity.
Qed.

Lemma tx_usable_Rollback (db : Conn) (calls : list Call) :
  usable db (calls ++ [CRollback db]) = false.
Proof.
  rewrite tx_usable_app. cbn. now rewrite conn_eqb_refl.
Qed.

Lemma tx_usable_Commit (db : Conn) (calls : list Call) :
  usable db (calls ++ [CCommit db]) = false.
Proof.
  rewrite tx_usable_app. cbn. now rewrite conn_eqb_refl.
Qed.

(** A call through a usable handle reaches the connection. *)
Lemma on_conn_usable (db : Conn) (call : Call) (f : @DB E -> @DB E + string)
    (w : @World E) (d : @DB E) :
  usable db (w_calls w) = true ->
  w_dbs w db = Some d ->
  Script.on_conn db call f w
  = match f d with
    | inl d' => (Ret None, set_db db d' (add_call call w))
    | inr err => (Ret (Some err), add_call call w)
    end.
Proof.
  intros Husable Hdb. unfold Script.on_conn. rewrite Husable.
  cbn [w_dbs add_call]. now rewrite Hdb.
Qed.

(** The loop over the fragments on a connection in state [d], through a
    usable handle. *)
Lemma script_loop (db : Conn) (cmds : list string) :
  forall (w : @World E) (d : @DB E),
    usable db (w_calls w) = true ->
    w_dbs w db = Some d ->
    exists w',
      for_each_return cmds (Script.seed_command engine_control db) w
      = (Ret (match snd (Script.run_script engine_control d cmds) with
              | None => Next
              | Some _ => Return
              end), w')
      /\ w_dbs w' db = Some (Script.after_loop engine_control d cmds)
      /\ w_log w' = w_log w
                    ++ match snd (Script.run_script engine_control d cmds) with
                       | None => []
                       | Some err => ["failed to execute SQL command: " +++ err]
                       end
      /\ w_calls w' = w_calls w
                      ++ map (fun cmd => CExec db cmd []) (Script.reached engine_control d cmds)
                      ++ match snd (Script.run_script engine_control d cmds) with
                         | None => []
                         | Some _ => [CRollback db]
                         end
      /\ w_out w' = w_out w.
Proof.
  induction cmds as [|cmd rest IH]; intros w d Husable Hdb.
  - exists w. cbn. unfold Script.after_loop. cbn. rewrite !app_nil_r. now repeat split.
  - cbn [for_each_return]. unfold bind at 1. unfold Script.seed_command at 1.
    unfold bind at 1. unfold Script.tx_Exec.
    rewrite (on_conn_usable _ _ _ _ _ Husable Hdb).
    unfold Script.after_loop. cbn [Script.run_script Script.reached].
    destruct (Script.conn_exec engine_control d cmd []) as [d1|err] eqn:Hexec.
    + cbn [ret].
      destruct (IH (set_db db d1 (add_call (CExec db cmd []) w)) d1) as
        (w' & Hrun & Hdb' & Hlog & Hcalls & Hout).
      { cbn [w_calls set_db add_call]. now rewrite tx_usable_Exec. }
      { apply w_dbs_set_db. }
      exists w'. split; [exact Hrun|]. split; [exact Hdb'|]. split; [exact Hlog|].
      split; [|exact Hout].
      rewrite Hcalls. cbn [w_calls set_db add_call map]. now rewrite <- app_assoc.
    + unfold bind, log_Printf, ret. unfold Script.tx_Rollback.
      rewrite (on_conn_usable _ _ _ _ d).
      2:{ cbn [w_calls add_log add_call]. now rewrite tx_usable_Exec. }
      2:{ exact Hdb. }
      cbn [snd]. unfold Script.conn_rollback.
      destruct d as [s0 [cur|]]; cbn [db_tx db_committed].
      * eexists. split; [reflexivity|]. split; [apply w_dbs_set_db|].
        cbn [w_log w_calls w_out set_db add_call add_log map].
        rewrite <- app_assoc. now repeat split.
      * eexists. split; [reflexivity|]. split; [exact Hdb|].
        cbn [w_log w_calls w_out set_db add_call add_log map].
        rewrite <- app_assoc. now repeat split.
Qed.


Lemma tx_usable_Execs (db : Conn) (cmds : list string) (calls : list Call) :
  usable db (calls ++ map (fun cmd => CExec db cmd []) cmds) = usable db calls.
Proof.
  rewrite tx_usable_app. induction cmds as [|cmd rest IH]; [reflexivity|exact IH].
Qed.

(** What [seedDB] does on a script, whatever its fragments are, once it
    has read the script and knows the driver: the connection is left as
    [Script.seeded] says, and the run ends as [Script.seed_end] says. *)
Lemma seedDB_on_connection (seedDBPath dbPath script : string) (w : @World E) (d : @DB E) :
  w_files w seedDBPath = Some script ->
  existsb (String.eqb "sqlite") (w_drivers w) = true ->
  w_dbs w ("sqlite", dbPath) = Some d ->
  exists w',
    Script.seedDB engine_control seedDBPath dbPath w
    = (if snd (Script.seed_end engine_control d (Strings.Split script ";"%char))
       then Exit 1 else Ret tt, w')
    /\ w_dbs w' ("sqlite", dbPath)
       = Some (Script.seeded engine_control d (Strings.Split script ";"%char))
    /\ w_log w' = w_log w
                  ++ match fst (Script.seed_end engine_control d
                                  (Strings.Split script ";"%char)) with
                     | Some line => [line]
                     | None => []
                     end
    /\ w_calls w'
       = w_calls w
         ++ CBegin ("sqlite", dbPath)
         :: map (fun cmd => CExec ("sqlite", dbPath) cmd [])
                (Script.reached engine_control
                   (mkDB (db_committed d) (Some (db_committed d)))
                   (Strings.Split script ";"%char))
         ++ [match snd (Script.run_script engine_control
                          (mkDB (db_committed d) (Some (db_committed d)))
                          (Strings.Split script ";"%char)) with
             | None => CCommit ("sqlite", dbPath)
             | Some _ => CRollback ("sqlite", dbPath)
             end]
    /\ w_out w' = w_out w.
Proof.
  intros Hfile Hdriver Hdb.
  unfold Script.seedDB.
  unfold bind at 1. unfold ioutil_ReadFile. rewrite Hfile.
  unfold bind at 1. unfold sql_Open. rewrite Hdriver.
  unfold bind at 1. unfold db_Begin. cbn [w_dbs add_call]. rewrite Hdb.
  destruct (script_loop ("sqlite", dbPath) (Strings.Split script ";"%char)
              (set_db ("sqlite", dbPath) (mkDB (db_committed d) (Some (db_committed d)))
                      (add_call (CBegin ("sqlite", dbPath)) w))
              (mkDB (db_committed d) (Some (db_committed d))))
    as (w1 & Hrun & Hdb1 & Hlog1 & Hcalls1 & Hout1).
  { cbn [w_calls set_db add_call]. apply tx_usable_Begin. }
  { apply w_dbs_set_db. }
  cbn [w_log w_calls w_out set_db add_call] in Hlog1, Hcalls1, Hout1.
  unfold bind at 1. cbv zeta. rewrite Hrun.
  unfold Script.seed_end, Script.seeded. unfold Script.after_loop in Hdb1 |- *.
  destruct (Script.run_script engine_control (mkDB (db_committed d) (Some (db_committed d)))
              (Strings.Split script ";"%char)) as [d' [err|]] eqn:Hscript;
    cbn [fst snd] in *.
  - exists w1. unfold db_Close, ret. cbn [db_tx].
    split; [reflexivity|]. split; [exact Hdb1|]. split; [exact Hlog1|].
    split; [|exact Hout1]. rewrite Hcalls1, <- app_assoc. reflexivity.
  - assert (Husable : usable ("sqlite", dbPath) (w_calls w1) = true).
    { rewrite Hcalls1, app_nil_r, tx_usable_Execs. apply tx_usable_Begin. }
    unfold bind at 1. unfold Script.tx_Commit.
    rewrite (on_conn_usable _ _ _ _ _ Husable Hdb1).
    unfold Script.conn_commit.
    destruct d' as [s0 [s|]]; cbn [db_tx db_committed fst snd].
    + eexists. unfold db_Close, ret. split; [reflexivity|].
      split; [apply w_dbs_set_db|].
      cbn [w_log w_calls w_out set_db add_call].
      rewrite Hlog1, Hcalls1, Hout1, !app_nil_r.
      repeat split; rewrite <- ?app_assoc; reflexivity.
    + eexists. unfold log_Fatalf. split; [reflexivity|].
      cbn [w_dbs w_log w_calls w_out add_log add_call].
      split; [exact Hdb1|].
      rewrite Hlog1, Hcalls1, Hout1, !app_nil_r.
      repeat split; rewrite <- ?app_assoc; reflexivity.
Qed.

(** A script of which the fragments that are reached are all statements
    on the data: the engine's transaction stays the one that [seedDB]
    began, and the fragments do to its view what [exec_all] says. *)
Lemma run_script_data (cmds : list string) :
  forall s0 cur : Store E,
    Forall (fun cmd => engine_control cmd = None) (attempted cur cmds) ->
    Script.reached engine_control (mkDB s0 (Some cur)) cmds = attempted cur cmds
    /\ match exec_all cur cmds with
       | inl cur' =>
           Script.run_script engine_control (mkDB s0 (Some cur)) cmds
           = (mkDB s0 (Some cur'), None)
       | inr err =>
           exists cur',
             Script.run_script engine_control (mkDB s0 (Some cur)) cmds
             = (mkDB s0 (Some cur'), Some err)
       end.
Proof.
  induction cmds as [|cmd rest IH]; intros s0 cur Hdata.
  - split; reflexivity.
  - cbn [attempted] in Hdata. inversion Hdata as [|? ? Hcmd Hrest]; subst.
    cbn [Script.reached Script.run_script attempted exec_all].
    unfold Script.conn_exec. rewrite Hcmd. cbn [db_tx db_committed].
    destruct (engine_exec E cur cmd []) as [cur1|err].
    + destruct (IH s0 cur1 Hrest) as [Hreached Hrun].
      split; [now rewrite Hreached | exact Hrun].
    + split; [reflexivity|]. now exists cur.
Qed.


(** [seedDB] on a script of which the fragments that are reached are all
    statements on the data. *)
Lemma seedDB_data_script (seedDBPath dbPath script : string) (w : @World E) (d : @DB E) :
  w_files w seedDBPath = Some script ->
  existsb (String.eqb "sqlite") (w_drivers w) = true ->
  w_dbs w ("sqlite", dbPath) = Some d ->
  Forall (fun cmd => engine_control cmd = None)
         (attempted (db_committed d) (Strings.Split script ";"%char)) ->
  exists w',
    Script.seedDB engine_control seedDBPath dbPath w = (Ret tt, w')
    /\ w_dbs w' ("sqlite", dbPath)
       = Some (mkDB (match exec_all (db_committed d) (Strings.Split script ";"%char) with
                     | inl s' => s'
                     | inr _ => db_committed d
                     end) None)
    /\ w_log w' = w_log w
                  ++ match exec_all (db_committed d) (Strings.Split script ";"%char) with
                     | inl _ => []
                     | inr err => ["failed to execute SQL command: " +++ err]
                     end
    /\ w_calls w' = w_calls w
                    ++ CBegin ("sqlite", dbPath)
                    :: map (fun cmd => CExec ("sqlite", dbPath) cmd [])
                           (attempted (db_committed d) (Strings.Split script ";"%char))
                    ++ [match exec_all (db_committed d) (Strings.Split script ";"%char) with
                        | inl _ => CCommit ("sqlite", dbPath)
                        | inr _ => CRollback ("sqlite", dbPath)
                        end]
    /\ w_out w' = w_out w.
Proof.
  intros Hfile Hdriver Hdb Hdata.
  destruct (seedDB_on_connection seedDBPath dbPath script w d Hfile Hdriver Hdb)
    as (w' & Hrun & Hdb' & Hlog & Hcalls & Hout).
  destruct (run_script_data (Strings.Split script ";"%char) (db_committed d) (db_committed d)
              Hdata) as [Hreached Hscript].
  unfold Script.seed_end, Script.seeded, Script.after_loop in Hrun, Hdb', Hlog.
  rewrite Hreached in Hcalls.
  exists w'.
  destruct (exec_all (db_committed d) (Strings.Split script ";"%char)) as [s'|err].
  - rewrite Hscript in Hrun, Hdb', Hlog, Hcalls. cbn [fst snd db_tx db_committed] in *.
    now repeat split.
  - destruct Hscript as [cur' Hscript].
    rewrite Hscript in Hrun, Hdb', Hlog, Hcalls. cbn [fst snd db_tx db_committed] in *.
    now repeat split.
Qed.

(** C6 (amended).  A seed script of which a statement is refused, and of
    which the fragments up to that one are statements on the data (none
    is a COMMIT, END, ROLLBACK or BEGIN of the engine): [seedDB] rolls its
    one transaction back at that statement and returns; the durable store
    is the one from before the seed, and the calls made are one Begin, the
    statements up to the refused one and one Rollback. *)
Theorem seedDB_failure_commits_nothing (seedDBPath dbPath script : string)
    (w : @World E) (d : @DB E) (err : string) :
  w_files w seedDBPath = Some script ->
  existsb (String.eqb "sqlite") (w_drivers w) = true ->
  w_dbs w ("sqlite", dbPath) = Some d ->
  Forall (fun cmd => engine_control cmd = None)
         (attempted (db_committed d) (Strings.Split script ";"%char)) ->
  exec_all (db_committed d) (Strings.Split script ";"%char) = inr err ->
  exists w',
    Script.seedDB engine_control seedDBPath dbPath w = (Ret tt, w')
    /\ w_dbs w' ("sqlite", dbPath) = Some (mkDB (db_committed d) None)
    /\ w_log w' = w_log w ++ ["failed to execute SQL command: " +++ err]
    /\ w_calls w' = w_calls w
                    ++ CBegin ("sqlite", dbPath)
                    :: map (fun cmd => CExec ("sqlite", dbPath) cmd [])
                           (attempted (db_committed d) (Strings.Split script ";"%char))
                    ++ [CRollback ("sqlite", dbPath)].
Proof.
  intros Hfile Hdriver Hdb Hdata Hfail.
  destruct (seedDB_data_script seedDBPath dbPath script w d Hfile Hdriver Hdb Hdata)
    as (w' & Hrun & Hdb' & Hlog & Hcalls & _).
  rewrite Hfail in Hdb', Hlog, Hcalls.
  exists w'. now repeat split.
Qed.

End ScriptProofs.

(** C6, counterexample.  A script that inserts a row, commits by itself
    and then has a fragment that is refused: [seedDB] logs the refusal,
    calls Rollback and returns, and the row that the script committed is
    durable. *)
Lemma seedDB_failure_after_commit_keeps_row :
  let r := Script.seedDB ToyScript.control Toy.seed_path "/config/autobrr.db"
             (Toy.sqlite_world Toy.empty ToyScript.committing) in
  Strings.Split ToyScript.committing ";"%char = ["INSERT INTO users VALUES (1)"; "COMMIT"; "BOGUS"]
  /\ fst r = Ret tt
  /\ w_log (snd r) = ["failed to execute SQL command: near " +++ Strings.Quote "BOGUS"
                        +++ ": syntax error"]
  /\ w_calls (snd r) = [CBegin Toy.sqlite;
                        CExec Toy.sqlite "INSERT INTO users VALUES (1)" [];
                        CExec Toy.sqlite "COMMIT" [];
                        CExec Toy.sqlite "BOGUS" [];
                        CRollback Toy.sqlite]
  /\ Toy.count Toy.empty "users" = 0
  /\ exists s,
      Toy.durable (snd r) Toy.sqlite = Some s
      /\ Toy.count s "users" = 1
      /\ Toy.count s "users" <> 0.
Proof.
  cbv zeta. repeat split; try (vm_compute; reflexivity).
  eexists. split; [vm_compute; reflexivity|]. split; [vm_compute; reflexivity|].
  vm_compute. discriminate.
Qed.

Lemma seedDB_failure_commits_nothing_witness :
  exists w',
    Script.seedDB ToyScript.control Toy.seed_path "/config/autobrr.db"
                  (Toy.sqlite_world Toy.empty "INSERT INTO users VALUES (1);BOGUS")
    = (Ret tt, w')
    /\ w_dbs w' Toy.sqlite = Some (Toy.db Toy.empty)
    /\ Toy.count Toy.empty "users" = 0
    /\ executed Toy.sqlite (w_calls w') = ["INSERT INTO users VALUES (1)"; "BOGUS"].
Proof.
  destruct (@seedDB_failure_commits_nothing Toy.engine ToyScript.control
              Toy.seed_path "/config/autobrr.db"
              "INSERT INTO users VALUES (1);BOGUS"
              (Toy.sqlite_world Toy.empty "INSERT INTO users VALUES (1);BOGUS")
              (Toy.db Toy.empty)
              ("near " +++ Strings.Quote "BOGUS" +++ ": syntax error")
              eq_refl eq_refl eq_refl)
    as (w' & Hrun & Hdb & Hlog & Hcalls).
  - repeat constructor.
  - reflexivity.
  - exists w'. split; [exact Hrun|]. split; [exact Hdb|]. split; [reflexivity|].
    rewrite Hcalls. reflexivity.
Defined.

(** ** db:seed and db:reset on a script *)

Section ScriptRuns.

Context {E : Engine}.

Variable engine_control : string -> option Control.

Lemma script_main_db_seed (first second : string) :
  String.eqb first "" = false ->
  String.eqb second "" = false ->
  @Script.main E engine_control ["db:seed"; first; second]
  = Some (bind (Script.seedDB engine_control first second)
               (fun _ => fmt_Println "Database seeding completed successfully!")).
Proof.
  intros Hfirst Hsecond.
  unfold Script.main, flag_Arg. cbn [nth String.eqb Ascii.eqb Bool.eqb].
  now rewrite Hfirst, Hsecond.
Qed.

Lemma script_main_db_reset (first second : string) :
  String.eqb first "" = false ->
  String.eqb second "" = false ->
  @Script.main E engine_control ["db:reset"; first; second]
  = Some (bind (resetDB second)
               (fun _ => bind (Script.seedDB engine_control first second)
                              (fun _ => fmt_Println "Database reset completed successfully!"))).
Proof.
  intros Hfirst Hsecond.
  unfold Script.main, flag_Arg. cbn [nth String.eqb Ascii.eqb Bool.eqb].
  now rewrite Hfirst, Hsecond.
Qed.

(** X6.  db:seed with a script of which a fragment is refused, whatever
    the other fragments are: [seedDB] logs the refusal and returns, and
    [main], which cannot see it, prints that the seeding completed
    successfully and returns, so that the process ends with status 0.
    What is durable is what the script had committed by itself when the
    fragment was refused. *)
Theorem db_seed_failure_reports_success (first second script err : string)
    (w : @World E) (d : @DB E) :
  String.eqb first "" = false ->
  String.eqb second "" = false ->
  w_files w first = Some script ->
  existsb (String.eqb "sqlite") (w_drivers w) = true ->
  w_dbs w ("sqlite", second) = Some d ->
  snd (Script.run_script engine_control (mkDB (db_committed d) (Some (db_committed d)))
         (Strings.Split script ";"%char)) = Some err ->
  exists run w',
    @Script.main E engine_control ["db:seed"; first; second] = Some run
    /\ run w = (Ret tt, w')
    /\ exit_status (fst (run w)) = 0%Z
    /\ w_out w' = w_out w ++ ["Database seeding completed successfully!"]
    /\ w_log w' = w_log w ++ ["failed to execute SQL command: " +++ err]
    /\ w_dbs w' ("sqlite", second)
       = Some (mkDB (db_committed
                       (fst (Script.run_script engine_control
                               (mkDB (db_committed d) (Some (db_committed d)))
                               (Strings.Split script ";"%char)))) None).
Proof.
  intros Hfirst Hsecond Hfile Hdriver Hdb Hfail.
  destruct (seedDB_on_connection engine_control first second script w d Hfile Hdriver Hdb)
    as (w1 & Hrun & Hdb1 & Hlog1 & _ & Hout1).
  unfold Script.seed_end, Script.seeded, Script.after_loop in Hrun, Hdb1, Hlog1.
  destruct (Script.run_script engine_control (mkDB (db_committed d) (Some (db_committed d)))
              (Strings.Split script ";"%char)) as [d' e].
  cbn [fst snd] in *. subst e. cbn [fst snd db_tx] in *.
  assert (Hall : bind (Script.seedDB engine_control first second)
                      (fun _ => fmt_Println "Database seeding completed successfully!") w
                 = (Ret tt, add_out "Database seeding completed successfully!" w1))
    by (rewrite (bind_ret _ _ _ _ _ Hrun); reflexivity).
  eexists. eexists. split; [exact (script_main_db_seed first second Hfirst Hsecond)|].
  split; [exact Hall|]. split; [now rewrite Hall|].
  cbn [w_out w_log w_dbs add_out]. rewrite Hout1. now repeat split.
Qed.

(** X7.  db:reset resets and seeds in two transactions.  When the reset
    succeeds, it is committed before the seed begins: if a statement of
    the seed is then refused, the database stays emptied, and unseeded
    when the fragments of the script up to that statement are statements
    on the data; for such a script [main] prints in both cases that the
    reset completed successfully, and returns. *)
Theorem db_reset_two_transactions (first second script : string)
    (w : @World E) (d : @DB E) (s1 : Store E) :
  String.eqb first "" = false ->
  String.eqb second "" = false ->
  w_files w first = Some script ->
  existsb (String.eqb "sqlite") (w_drivers w) = true ->
  w_dbs w ("sqlite", second) = Some d ->
  reset_store (db_committed d) reset_tables = inl s1 ->
  Forall (fun cmd => engine_control cmd = None)
         (attempted s1 (Strings.Split script ";"%char)) ->
  exists run w',
    @Script.main E engine_control ["db:reset"; first; second] = Some run
    /\ run w = (Ret tt, w')
    /\ w_out w' = w_out w ++ ["Database reset completed successfully!"]
    /\ w_dbs w' ("sqlite", second)
       = Some (mkDB (match exec_all s1 (Strings.Split script ";"%char) with
                     | inl s2 => s2
                     | inr _ => s1
                     end) None)
    /\ w_calls w'
       = w_calls w
         ++ (CBegin ("sqlite", second)
             :: map (fun q => CExec ("sqlite", second) q []) (reset_statements reset_tables)
             ++ [CCommit ("sqlite", second)])
         ++ (CBegin ("sqlite", second)
             :: map (fun cmd => CExec ("sqlite", second) cmd [])
                    (attempted s1 (Strings.Split script ";"%char))
             ++ [match exec_all s1 (Strings.Split script ";"%char) with
                 | inl _ => CCommit ("sqlite", second)
                 | inr _ => CRollback ("sqlite", second)
                 end]).
Proof.
  intros Hfirst Hsecond Hfile Hdriver Hdb Hreset Hdata.
  destruct (resetDB_run second w d Hdriver Hdb)
    as (w1 & Hrun1 & Hdb1 & _ & Hcalls1 & Hout1 & Hfiles1 & Hdrivers1).
  rewrite Hreset in Hdb1, Hcalls1.
  destruct (reset_attempted_prefix reset_tables (db_committed d)) as (n & _ & Hall).
  rewrite (Hall s1 Hreset) in Hcalls1.
  rewrite <- Hfiles1 in Hfile. rewrite <- Hdrivers1 in Hdriver.
  destruct (seedDB_data_script engine_control first second script w1 _ Hfile Hdriver Hdb1 Hdata)
    as (w2 & Hrun2 & Hdb2 & _ & Hcalls2 & Hout2).
  cbn [db_committed] in Hdb2, Hcalls2.
  eexists. eexists. split; [exact (script_main_db_reset first second Hfirst Hsecond)|].
  split; [rewrite (bind_ret _ _ _ _ _ Hrun1), (bind_ret _ _ _ _ _ Hrun2); reflexivity|].
  cbn [w_out w_calls w_dbs add_out].
  split; [now rewrite Hout2, Hout1|]. split; [exact Hdb2|].
  rewrite Hcalls2, Hcalls1, <- !app_assoc. reflexivity.
Qed.

(** X17.  Every run of [seedDB] on a script of which the fragments that
    are reached are statements on the data, whatever the files, the
    drivers and the database: what is durable afterwards is what was
    durable before, or it is the store that all the fragments of the
    script, executed in order, give; in the second case every fragment
    was accepted and [seedDB] has returned. *)
Theorem seedDB_all_or_nothing (seedDBPath dbPath : string) (w : @World E) :
  (forall script s0,
      w_files w seedDBPath = Some script ->
      durable w ("sqlite", dbPath) = Some s0 ->
      Forall (fun cmd => engine_control cmd = None)
             (attempted s0 (Strings.Split script ";"%char))) ->
  durable (snd (Script.seedDB engine_control seedDBPath dbPath w)) ("sqlite", dbPath)
  = durable w ("sqlite", dbPath)
  \/ exists script s0 s',
      w_files w seedDBPath = Some script
      /\ durable w ("sqlite", dbPath) = Some s0
      /\ exec_all s0 (Strings.Split script ";"%char) = inl s'
      /\ durable (snd (Script.seedDB engine_control seedDBPath dbPath w)) ("sqlite", dbPath)
         = Some s'
      /\ fst (Script.seedDB engine_control seedDBPath dbPath w) = Ret tt.
Proof.
  intros Hdata.
  destruct (w_files w seedDBPath) as [script|] eqn:Hfile.
  - destruct (existsb (String.eqb "sqlite") (w_drivers w)) eqn:Hdriver.
    + destruct (w_dbs w ("sqlite", dbPath)) as [d|] eqn:Hdb.
      * assert (Hd : Forall (fun cmd => engine_control cmd = None)
                            (attempted (db_committed d) (Strings.Split script ";"%char))).
        { apply Hdata; [reflexivity|]. unfold durable. now rewrite Hdb. }
        destruct (seedDB_data_script engine_control seedDBPath dbPath script w d
                    Hfile Hdriver Hdb Hd) as (w' & Hrun & Hdb' & _).
        rewrite Hrun. cbn [fst snd]. unfold durable. rewrite Hdb', Hdb. cbn [db_committed].
        destruct (exec_all (db_committed d) (Strings.Split script ";"%char)) as [s'|err] eqn:Hall.
        -- right. exists script, (db_committed d), s'. now repeat split.
        -- left. reflexivity.
      * left. unfold Script.seedDB, bind, ioutil_ReadFile, sql_Open, db_Begin.
        rewrite Hfile, Hdriver. cbn [w_dbs add_call]. rewrite Hdb. reflexivity.
    + left. unfold Script.seedDB, bind, ioutil_ReadFile, sql_Open.
      rewrite Hfile, Hdriver. reflexivity.
  - left. unfold Script.seedDB, bind, ioutil_ReadFile. rewrite Hfile. reflexivity.
Qed.

(** The two seed loops on fragments that are statements on the data. *)
Lemma seed_loops_agree (db : Conn) (cmds : list string) :
  forall (w : @World E) (s0 cur : Store E),
    Script.tx_usable db (w_calls w) = true ->
    w_dbs w db = Some (mkDB s0 (Some cur)) ->
    Forall (fun cmd => engine_control cmd = None) (attempted cur cmds) ->
    for_each_return cmds (Script.seed_command engine_control db) w
    = for_each_return cmds (seed_command db) w.
Proof.
  induction cmds as [|cmd rest IH]; intros w s0 cur Husable Hdb Hdata; [reflexivity|].
  cbn [attempted] in Hdata. inversion Hdata as [|? ? Hcmd Hrest]; subst.
  cbn [for_each_return]. unfold bind at 1 2. unfold Script.seed_command at 1, seed_command at 1.
  unfold bind.
  unfold Script.tx_Exec. rewrite (on_conn_usable _ _ _ _ _ Husable Hdb).
  unfold tx_Exec, open_tx. rewrite Hdb. cbn [db_tx db_committed].
  unfold Script.conn_exec. rewrite Hcmd. cbn [db_tx db_committed].
  destruct (engine_exec E cur cmd []) as [cur1|err].
  - cbn [ret].
    apply (IH _ s0 cur1); [| apply w_dbs_set_db | exact Hrest].
    cbn [w_calls set_db add_call]. now rewrite tx_usable_Exec.
  - unfold log_Printf, ret. unfold Script.tx_Rollback.
    rewrite (on_conn_usable _ _ _ _ (mkDB s0 (Some cur))).
    2:{ cbn [w_calls add_log add_call]. now rewrite tx_usable_Exec. }
    2:{ exact Hdb. }
    unfold tx_Rollback, open_tx. cbn [w_dbs add_log add_call]. rewrite Hdb.
    reflexivity.
Qed.

(** X19.  On a script of which the fragments that are reached are
    statements on the data, [seedDB] with the engine's transaction
    control in view does what [seedDB] does when every statement is
    executed on the view of the transaction: the same outcome and the
    same world. *)
Theorem seedDB_agrees_on_data_scripts (seedDBPath dbPath : string) (w : @World E) :
  (forall script s0,
      w_files w seedDBPath = Some script ->
      durable w ("sqlite", dbPath) = Some s0 ->
      Forall (fun cmd => engine_control cmd = None)
             (attempted s0 (Strings.Split script ";"%char))) ->
  Script.seedDB engine_control seedDBPath dbPath w = seedDB seedDBPath dbPath w.
Proof.
  intros Hdata.
  unfold Script.seedDB, seedDB.
  unfold bind at 1 6. unfold ioutil_ReadFile.
  destruct (w_files w seedDBPath) as [script|] eqn:Hfile; [|reflexivity].
  unfold bind at 1 5. unfold sql_Open.
  destruct (existsb (String.eqb "sqlite") (w_drivers w)); [|reflexivity].
  unfold bind at 1 4. unfold db_Begin. cbn [w_dbs add_call].
  destruct (w_dbs w ("sqlite", dbPath)) as [d|] eqn:Hdb; [|reflexivity].
  assert (Hd : Forall (fun cmd => engine_control cmd = None)
                      (attempted (db_committed d) (Strings.Split script ";"%char))).
  { apply (Hdata script); [reflexivity|]. unfold durable. now rewrite Hdb. }
  cbv zeta. unfold bind at 1 3.
  rewrite (seed_loops_agree ("sqlite", dbPath) _ _ (db_committed d) (db_committed d));
    [| cbn [w_calls set_db add_call]; apply tx_usable_Begin | apply w_dbs_set_db | exact Hd].
  destruct (seed_loop ("sqlite", dbPath) (Strings.Split script ";"%char)
              (set_db ("sqlite", dbPath) (mkDB (db_committed d) (Some (db_committed d)))
                      (add_call (CBegin ("sqlite", dbPath)) w))
              (db_committed d) (db_committed d) (w_dbs_set_db _ _ _))
    as (w1 & Hrun & Hdb1 & _ & Hcalls1 & _).
  rewrite Hrun.
  destruct (exec_all (db_committed d) (Strings.Split script ";"%char)) as [s'|err];
    [|reflexivity].
  assert (Husable : Script.tx_usable ("sqlite", dbPath) (w_calls w1) = true).
  { rewrite Hcalls1, app_nil_r. cbn [w_calls set_db add_call].
    rewrite tx_usable_Execs. apply tx_usable_Begin. }
  unfold bind. unfold Script.tx_Commit.
  rewrite (on_conn_usable _ _ _ _ _ Husable Hdb1).
  unfold tx_Commit, open_tx. rewrite Hdb1. reflexivity.
Qed.

End ScriptRuns.

(** ** The properties of scripts on runs of the small engine *)

Lemma db_seed_failure_reports_success_witness :
  exists run w',
    Script.main ToyScript.control ["db:seed"; Toy.seed_path; "/config/autobrr.db"] = Some run
    /\ run (Toy.sqlite_world Toy.empty ToyScript.committing) = (Ret tt, w')
    /\ w_out w' = ["Database seeding completed successfully!"]
    /\ exists s, Toy.durable w' Toy.sqlite = Some s /\ Toy.count s "users" = 1.
Proof.
  destruct (@db_seed_failure_reports_success Toy.engine ToyScript.control
              Toy.seed_path "/config/autobrr.db" ToyScript.committing
              ("near " +++ Strings.Quote "BOGUS" +++ ": syntax error")
              (Toy.sqlite_world Toy.empty ToyScript.committing)
              (Toy.db Toy.empty) eq_refl eq_refl eq_refl eq_refl eq_refl eq_refl)
    as (run & w' & Hmain & Hrun & _ & Hout & _ & Hdb).
  exists run, w'. split; [exact Hmain|]. split; [exact Hrun|]. split; [exact Hout|].
  eexists. unfold Toy.durable, Toy.sqlite. rewrite Hdb. split; [reflexivity|].
  vm_compute. reflexivity.
Defined.

Lemma db_reset_two_transactions_witness :
  exists run w',
    Script.main ToyScript.control ["db:reset"; Toy.seed_path; "/config/autobrr.db"] = Some run
    /\ run (Toy.sqlite_world Toy.source "INSERT INTO users VALUES (1);BOGUS") = (Ret tt, w')
    /\ w_out w' = ["Database reset completed successfully!"]
    /\ w_dbs w' Toy.sqlite = Some (Toy.db Toy.empty).
Proof.
  assert (Hreset : reset_store (E:=Toy.engine) Toy.source reset_tables = inl Toy.empty)
    by (vm_compute; reflexivity).
  destruct (@db_reset_two_transactions Toy.engine ToyScript.control
              Toy.seed_path "/config/autobrr.db"
              "INSERT INTO users VALUES (1);BOGUS"
              (Toy.sqlite_world Toy.source "INSERT INTO users VALUES (1);BOGUS")
              (Toy.db Toy.source) Toy.empty eq_refl eq_refl eq_refl eq_refl eq_refl Hreset)
    as (run & w' & Hmain & Hrun & Hout & Hdb & _).
  - repeat constructor.
  - exists run, w'. split; [exact Hmain|]. split; [exact Hrun|].
    split; [exact Hout | exact Hdb].
Defined.

Lemma seedDB_all_or_nothing_witness :
  Toy.durable (snd (Script.seedDB ToyScript.control Toy.seed_path "/config/autobrr.db"
                      (Toy.sqlite_world Toy.empty "INSERT INTO users VALUES (1);BOGUS")))
              Toy.sqlite
  = Some Toy.empty.
Proof.
  destruct (@seedDB_all_or_nothing Toy.engine ToyScript.control
              Toy.seed_path "/config/autobrr.db"
              (Toy.sqlite_world Toy.empty "INSERT INTO users VALUES (1);BOGUS"))
    as [Hsame|(script & s0 & s' & Hfile & Hdur & Hall & _)].
  - intros script s0 Hfile Hdb.
    injection Hfile as <-. injection Hdb as <-. repeat constructor.
  - exact Hsame.
  - injection Hfile as <-. injection Hdur as <-. vm_compute in Hall. discriminate Hall.
Defined.

Lemma seedDB_agrees_on_data_scripts_witness :
  Script.seedDB ToyScript.control Toy.seed_path "/config/autobrr.db"
                (Toy.sqlite_world Toy.empty "INSERT INTO users VALUES (1);BOGUS")
  = seedDB Toy.seed_path "/config/autobrr.db"
           (Toy.sqlite_world Toy.empty "INSERT INTO users VALUES (1);BOGUS")
  /\ Script.seedDB ToyScript.control Toy.seed_path "/config/autobrr.db"
                   (Toy.sqlite_world Toy.empty ToyScript.committing)
     <> seedDB Toy.seed_path "/config/autobrr.db"
               (Toy.sqlite_world Toy.empty ToyScript.committing).
Proof.
  split.
  - apply (@seedDB_agrees_on_data_scripts Toy.engine ToyScript.control).
    intros script s0 Hfile Hdb.
    injection Hfile as <-. injection Hdb as <-. repeat constructor.
  - intros H.
    assert (Hlog : length (w_calls (snd (Script.seedDB ToyScript.control Toy.seed_path
                                           "/config/autobrr.db"
                                           (Toy.sqlite_world Toy.empty ToyScript.committing))))
                   = length (w_calls (snd (seedDB Toy.seed_path "/config/autobrr.db"
                                             (Toy.sqlite_world Toy.empty
                                                ToyScript.committing)))))
      by (now rewrite H).
    vm_compute in Hlog. discriminate Hlog.
Defined.
